(** * Auto Vote Own Topic: a shallow embedding of the theme component

    The repository holds four drafts of one Discourse api-initializer,
    [auto-vote-own-topic.js].  Each draft is embedded in a module of its own:

    - [Part002]: v1.4, slug/name category matching, DOM reflection, one
      navigation trigger;
    - [Part001]: composer [save] pre-vote plus an optional visit vote;
    - [Part000]: [topic:created] event plus navigation fallback;
    - [AutoVoteOwnTopic]: the file under [javascripts/discourse/api-initializers],
      the debugging draft with [checkAndVote].

    JavaScript strings are modelled as [string] over the ASCII range, on which
    [trim], [toLowerCase], [parseInt] and the class [\d] act as written below.
    Topic, user and category ids are integers ([Z]); the numbers of
    JavaScript represent them exactly below 2^53. *)

From Stdlib Require Import ZArith List String Ascii Bool Lia.
From Stdlib Require Import Numbers.DecimalString Numbers.DecimalPos.
From stdpp Require Import base gmap sets.
Import ListNotations.
Open Scope string_scope.
Open Scope list_scope.
Open Scope Z_scope.

(** ** The JavaScript string and array primitives the drafts call *)

Module Js.

(** [StrWhiteSpaceChar] restricted to ASCII: TAB, LF, VT, FF, CR, SP. *)
Definition isWhiteSpace (c : ascii) : bool :=
  let n := nat_of_ascii c in
  ((9 <=? n) && (n <=? 13))%nat || (n =? 32)%nat.

Definition isDigit (c : ascii) : bool :=
  let n := nat_of_ascii c in ((48 <=? n) && (n <=? 57))%nat.

Definition digitValue (c : ascii) : Z := Z.of_nat (nat_of_ascii c - 48).

Definition isSlash (c : ascii) : bool := Ascii.eqb c "/".

Fixpoint trimStart (s : string) : string :=
  match s with
  | String c s' => if isWhiteSpace c then trimStart s' else s
  | EmptyString => EmptyString
  end.

Fixpoint trimEnd (s : string) : string :=
  match s with
  | EmptyString => EmptyString
  | String c s' =>
      match trimEnd s' with
      | EmptyString => if isWhiteSpace c then EmptyString else String c EmptyString
      | r => String c r
      end
  end.

(** [String.prototype.trim] *)
Definition trim (s : string) : string := trimEnd (trimStart s).

(** [s.split(sep)] for a one-character separator; [split sep ""] is [[""]]. *)
Fixpoint split (sep : ascii) (s : string) : list string :=
  match s with
  | EmptyString => [EmptyString]
  | String c s' =>
      if Ascii.eqb c sep then EmptyString :: split sep s'
      else match split sep s' with
           | h :: t => String c h :: t
           | [] => [String c EmptyString]
           end
  end.

(** Truthiness of a string: [Boolean(s)], [!s]. *)
Definition truthy (s : string) : bool :=
  match s with EmptyString => false | String _ _ => true end.

Fixpoint parseDigits (acc : Z) (s : string) : Z :=
  match s with
  | String c s' => if isDigit c then parseDigits (10 * acc + digitValue c) s' else acc
  | EmptyString => acc
  end.

Definition startsWithDigit (s : string) : bool :=
  match s with String c _ => isDigit c | EmptyString => false end.

(** [parseInt(s, 10)]; [None] is [NaN].  Leading white space is skipped, one
    sign is accepted, the longest run of decimal digits is read, and whatever
    follows is ignored.  The digits are read into a [Z]: that is the number
    JavaScript returns as long as it is below 2^53 in absolute value; beyond
    that JavaScript returns the nearest double instead. *)
Definition parseInt (s : string) : option Z :=
  let s1 := trimStart s in
  let '(neg, s2) :=
    match s1 with
    | String "-" r => (true, r)
    | String "+" r => (false, r)
    | _ => (false, s1)
    end in
  if startsWithDigit s2
  then Some (if neg then - parseDigits 0 s2 else parseDigits 0 s2)
  else None.

Definition lowerChar (c : ascii) : ascii :=
  let n := nat_of_ascii c in
  if ((65 <=? n) && (n <=? 90))%nat then ascii_of_nat (n + 32) else c.

(** [String.prototype.toLowerCase] *)
Fixpoint toLowerCase (s : string) : string :=
  match s with
  | EmptyString => EmptyString
  | String c s' => String (lowerChar c) (toLowerCase s')
  end.

(** [hay.includes(needle)] on strings *)
Fixpoint includes (needle hay : string) : bool :=
  String.prefix needle hay ||
  match hay with
  | EmptyString => false
  | String _ hay' => includes needle hay'
  end.

(** [arr.includes(x)] on an array of strings; [None] stands for the
    [undefined] an optional chain yields, which no string equals. *)
Definition arrayIncludes (arr : list string) (x : option string) : bool :=
  match x with
  | Some s => existsb (String.eqb s) arr
  | None => false
  end.

(** [arr.includes(n)] on an array of numbers *)
Definition numbersInclude (arr : list Z) (n : Z) : bool := existsb (Z.eqb n) arr.

(** [arr.map(parseInt).filter(x => !isNaN(x))] *)
Fixpoint keepNumbers (l : list (option Z)) : list Z :=
  match l with
  | [] => []
  | Some n :: t => n :: keepNumbers t
  | None :: t => keepNumbers t
  end.

(** [String(n)] for an integer *)
Definition numberToString (n : Z) : string := NilZero.string_of_int (Z.to_int n).

(** *** The topic pattern [/\/t\/[^/]+\/(\d+)/] *)

Fixpoint skipNonSlash (s : string) : string :=
  match s with
  | String c s' => if isSlash c then s else skipNonSlash s'
  | EmptyString => EmptyString
  end.

Fixpoint takeDigits (s : string) : string :=
  match s with
  | String c s' => if isDigit c then String c (takeDigits s') else EmptyString
  | EmptyString => EmptyString
  end.

(** The pattern anchored at the head of [s]; the result is capture group 1.
    After "/t/" comes one character that is not a slash, then the longest run
    of such characters, then a slash, then at least one digit. *)
Definition matchTopicHere (s : string) : option string :=
  match s with
  | String a (String b (String c (String d r))) =>
      if isSlash a && Ascii.eqb b "t" && isSlash c && negb (isSlash d)
      then match skipNonSlash r with
           | String _ ds => if startsWithDigit ds then Some (takeDigits ds) else None
           | EmptyString => None
           end
      else None
  | _ => None
  end.

(** [url.match(/\/t\/[^/]+\/(\d+)/)]: the leftmost match, [None] for [null]. *)
Fixpoint matchTopic (url : string) : option string :=
  match matchTopicHere url with
  | Some ds => Some ds
  | None =>
      match url with
      | String _ url' => matchTopic url'
      | EmptyString => None
      end
  end.

End Js.

(** ** The host platform: records the drafts read and the effects they cause *)

(** Theme settings.  [auto_vote_categories] is [None] when the setting is
    absent ([undefined]); [auto_vote_on_visit] is read by [Part001] only. *)
Record Settings := mkSettings {
  auto_vote_enabled : bool;
  auto_vote_categories : option string;
  auto_vote_debug_mode : bool;
  auto_vote_on_visit : bool
}.

(** A parent category is read as [category.parentCategory.slug], without [?.]. *)
Record ParentCategory := mkParent { parent_slug : string }.

Record Category := mkCategory {
  cat_id : Z;
  slug : option string;
  name : option string;
  parentCategory : option ParentCategory
}.

(** [service:site]; [categories] may be missing. *)
Record Site := mkSite { categories : option (list Category) }.

Record Topic := mkTopic {
  topic_id : Z;
  user_id : Z;
  category_id : Z;
  can_vote : bool;
  user_voted : bool;
  vote_count : option Z
}.

Record User := mkUser {
  uid : Z;
  votes_exceeded : option bool;
  votes_left : option Z
}.

(** Body of a successful [POST /voting/vote]; every field is optional. *)
Record VoteResponse := mkResponse {
  resp_vote_count : option Z;
  resp_can_vote : option bool;
  resp_votes_left : option Z
}.

(** The rejection value of [ajax]: [error.jqXHR?.status]. *)
Record AjaxError := mkAjaxError { jqXHR_status : option Z }.

(** An element of the page: its class tokens, its own text, and the text of
    its first [span] descendant when it has one.  The page is the list of
    elements in document order; the elements the three selectors of
    [updateVoteUI] resolve to are taken not to contain one another's text. *)
Record Element := mkElement {
  classList : list string;
  text : string;
  span : option string
}.

Inductive Diag :=
| ConsoleLog (msg : string) (args : list Z)
| ConsoleError (msg : string) (args : list Z).

Inductive JsError :=
| TypeError
| Rejected (e : AjaxError).

(** Callbacks handed to [setTimeout]. *)
Inductive Timer :=
| VisitCheck
| ReflectOne
| DelayedCast (topicId : Z).

(** Promise continuations waiting for the host. *)
Inductive Pending :=
| CastVoteAwait (topicId : Z) (source : string)
| PreVoteAwait (topicId : Z)
| SaveThen.

Record World := mkWorld {
  autoVotedTopics : gset Z;
  preVotedTopics : gset Z;
  timers : list Timer;
  pending : list Pending;
  currentUser : User;
  topicModel : option Topic;
  document : list Element;
  posts : list Z;          (* topic_id of every POST /voting/vote the component issued *)
  console : list Diag;
  settled : list (Z * bool); (* value each castVote promise resolved to *)
  uncaught : list JsError    (* errors that escaped a handler or a promise *)
}.

Definition setAutoVoted (s : gset Z) (w : World) : World :=
  mkWorld s (preVotedTopics w) (timers w) (pending w) (currentUser w) (topicModel w)
          (document w) (posts w) (console w) (settled w) (uncaught w).
Definition setPreVoted (s : gset Z) (w : World) : World :=
  mkWorld (autoVotedTopics w) s (timers w) (pending w) (currentUser w) (topicModel w)
          (document w) (posts w) (console w) (settled w) (uncaught w).
Definition setTimers (l : list Timer) (w : World) : World :=
  mkWorld (autoVotedTopics w) (preVotedTopics w) l (pending w) (currentUser w) (topicModel w)
          (document w) (posts w) (console w) (settled w) (uncaught w).
Definition setPending (l : list Pending) (w : World) : World :=
  mkWorld (autoVotedTopics w) (preVotedTopics w) (timers w) l (currentUser w) (topicModel w)
          (document w) (posts w) (console w) (settled w) (uncaught w).
Definition setCurrentUser (u : User) (w : World) : World :=
  mkWorld (autoVotedTopics w) (preVotedTopics w) (timers w) (pending w) u (topicModel w)
          (document w) (posts w) (console w) (settled w) (uncaught w).
Definition setTopicModel (t : option Topic) (w : World) : World :=
  mkWorld (autoVotedTopics w) (preVotedTopics w) (timers w) (pending w) (currentUser w) t
          (document w) (posts w) (console w) (settled w) (uncaught w).
Definition setDocument (d : list Element) (w : World) : World :=
  mkWorld (autoVotedTopics w) (preVotedTopics w) (timers w) (pending w) (currentUser w)
          (topicModel w) d (posts w) (console w) (settled w) (uncaught w).
Definition setPosts (l : list Z) (w : World) : World :=
  mkWorld (autoVotedTopics w) (preVotedTopics w) (timers w) (pending w) (currentUser w)
          (topicModel w) (document w) l (console w) (settled w) (uncaught w).
Definition setConsole (l : list Diag) (w : World) : World :=
  mkWorld (autoVotedTopics w) (preVotedTopics w) (timers w) (pending w) (currentUser w)
          (topicModel w) (document w) (posts w) l (settled w) (uncaught w).
Definition setSettled (l : list (Z * bool)) (w : World) : World :=
  mkWorld (autoVotedTopics w) (preVotedTopics w) (timers w) (pending w) (currentUser w)
          (topicModel w) (document w) (posts w) (console w) l (uncaught w).
Definition setUncaught (l : list JsError) (w : World) : World :=
  mkWorld (autoVotedTopics w) (preVotedTopics w) (timers w) (pending w) (currentUser w)
          (topicModel w) (document w) (posts w) (console w) (settled w) l.

(** *** Effects: a state monad over [World] with JavaScript exceptions *)

Inductive Completion (A : Type) :=
| Normal (a : A)
| Abrupt (e : JsError).
Arguments Normal {A} a.
Arguments Abrupt {A} e.

Definition Eff (A : Type) : Type := World -> Completion A * World.

Definition ret {A} (a : A) : Eff A := fun w => (Normal a, w).
Definition throw {A} (e : JsError) : Eff A := fun w => (Abrupt e, w).
Definition bind {A B} (m : Eff A) (k : A -> Eff B) : Eff B :=
  fun w => match m w with
           | (Normal a, w') => k a w'
           | (Abrupt e, w') => (Abrupt e, w')
           end.
(** [try { m } catch (e) { h e }]; what [m] did before throwing stays done. *)
Definition tryCatch {A} (m : Eff A) (h : JsError -> Eff A) : Eff A :=
  fun w => match m w with
           | (Normal a, w') => (Normal a, w')
           | (Abrupt e, w') => h e w'
           end.

Declare Scope eff_scope.
Delimit Scope eff_scope with eff.
Notation "x <- m ;; k" := (bind m (fun x => k))
  (at level 100, m at next level, right associativity) : eff_scope.
Notation "m ;; k" := (bind m (fun _ => k))
  (at level 100, right associativity) : eff_scope.
Open Scope eff_scope.

Definition get {A} (f : World -> A) : Eff A := fun w => (Normal (f w), w).
Definition modify (f : World -> World) : Eff unit := fun w => (Normal tt, f w).

(** [if (c) { m }] *)
Definition when (c : bool) (m : Eff unit) : Eff unit := if c then m else ret tt.

(** [a && b] with a short-circuit on an effectful right operand *)
Definition andThen (a : bool) (b : Eff bool) : Eff bool := if a then b else ret false.

(** Reading a property of [o]: a [TypeError] when [o] is [null] or [undefined]. *)
Definition deref {A} (o : option A) : Eff A :=
  match o with Some a => ret a | None => throw TypeError end.

Definition isSome {A} (o : option A) : bool :=
  match o with Some _ => true | None => false end.

Definition consoleLog (msg : string) (args : list Z) : Eff unit :=
  modify (fun w => setConsole (console w ++ [ConsoleLog msg args]) w).
Definition consoleError (msg : string) (args : list Z) : Eff unit :=
  modify (fun w => setConsole (console w ++ [ConsoleError msg args]) w).

(** [ajax("/voting/vote", { type: "POST", data: { topic_id } })]: the request
    leaves at the call; [k] is what waits for the promise. *)
Definition ajaxVote (topicId : Z) (k : Pending) : Eff unit :=
  modify (fun w => setPending (pending w ++ [k]) (setPosts (posts w ++ [topicId]) w)).

Definition setTimeout (t : Timer) : Eff unit :=
  modify (fun w => setTimers (timers w ++ [t]) w).

(** [await p] once [p] has settled *)
Definition await {A} (r : AjaxError + A) : Eff A :=
  match r with inr a => ret a | inl e => throw (Rejected e) end.

(** [error.jqXHR?.status] of a caught value *)
Definition statusOf (e : JsError) : option Z :=
  match e with Rejected a => jqXHR_status a | TypeError => None end.

(** *** The page, as far as [updateVoteUI] touches it *)

Module Dom.

Definition hasClass (cls : string) (e : Element) : bool :=
  existsb (String.eqb cls) (classList e).

Fixpoint findIndex {A} (p : A -> bool) (l : list A) : option nat :=
  match l with
  | [] => None
  | x :: t => if p x then Some O else option_map S (findIndex p t)
  end.

(** [document.querySelector("." + cls)]: a handle on the first element that
    carries the class, [None] for [null]. *)
Definition querySelector (cls : string) : Eff (option nat) :=
  get (fun w => findIndex (hasClass cls) (document w)).

(** Any property access through a handle: [TypeError] on [null]. *)
Definition onElement (el : option nat) (f : Element -> Element) : Eff unit :=
  i <- deref el ;;
  modify (fun w => setDocument (alter f i (document w)) w).

(** [el.textContent = s] replaces every child of [el] by one text node. *)
Definition setTextContent (el : option nat) (s : string) : Eff unit :=
  onElement el (fun e => mkElement (classList e) s None).

(** [el.classList.remove(tok)] *)
Definition classListRemove (el : option nat) (tok : string) : Eff unit :=
  onElement el (fun e =>
    mkElement (List.filter (fun c => negb (String.eqb tok c)) (classList e)) (text e) (span e)).

(** [el.classList.add(tok)]: a token already present is not added again. *)
Definition classListAdd (el : option nat) (tok : string) : Eff unit :=
  onElement el (fun e =>
    mkElement (if existsb (String.eqb tok) (classList e) then classList e
               else classList e ++ [tok])
              (text e) (span e)).

(** [el.querySelector("span")]: the span is addressed through its owner. *)
Definition querySpan (el : option nat) : Eff (option nat) :=
  i <- deref el ;;
  get (fun w => match document w !! i with
                | Some e => if isSome (span e) then Some i else None
                | None => None
                end).

(** [sp.textContent] *)
Definition spanTextContent (sp : option nat) : Eff string :=
  i <- deref sp ;;
  d <- get document ;;
  deref (match d !! i with Some e => span e | None => None end).

(** [sp.textContent = s] *)
Definition setSpanTextContent (sp : option nat) (s : string) : Eff unit :=
  onElement sp (fun e => mkElement (classList e) (text e) (Some s)).

Section UpdateVoteUI.
  (** The draft's [log]; [Part001] has none. *)
  Variable log : string -> list Z -> Eff unit.

Definition updateVoteUI (voteCount : Z) : Eff unit :=
    log "Updating vote UI via DOM manipulation" [] ;;
    voteCountEl <- querySelector "vote-count-number" ;;
    when (isSome voteCountEl)
      (setTextContent voteCountEl (Js.numberToString voteCount) ;;
       log "Updated vote count to:" [voteCount]) ;;
    voteButton <- querySelector "vote-button" ;;
    when (isSome voteButton)
      (classListRemove voteButton "nonvote" ;;
       classListAdd voteButton "vote" ;;
       log "Updated vote button classes" [] ;;
       buttonSpan <- querySpan voteButton ;;
       hit <- (if isSome buttonSpan
               then t <- spanTextContent buttonSpan ;;
                    ret (Js.includes "vote" (Js.toLowerCase t))
               else ret false) ;;
       when hit (setSpanTextContent buttonSpan "Voted")) ;;
    votingWrapper <- querySelector "voting-wrapper" ;;
    when (isSome votingWrapper)
      (classListRemove votingWrapper "nonvote" ;;
       classListAdd votingWrapper "vote").
End UpdateVoteUI.

End Dom.

(** ** What the host delivers to the component *)

(** The payload of an app event: [data?.topic_id] and [data?.id]. *)
Record EventData := mkEventData { data_topic_id : option Z; data_id : option Z }.

Inductive Event :=
| PageChange (url : string)                              (* api.onPageChange *)
| TimerFire (k : nat)                                    (* k-th pending timer *)
| AjaxSettle (k : nat) (r : AjaxError + option VoteResponse)
| HostChange (topic : option Topic) (doc : list Element) (* the host rehydrates *)
| TopicCreated (data : option (Z * Z))                   (* topic:created: id, category_id *)
| ComposerSave (creatingTopic : bool) (categoryId : Z)   (* composer save(opts) *)
| SaveSettle (k : nat) (postTopicId : option Z)          (* the save promise *)
| AppEvent (eventName : string) (data : option EventData)
| ComposerAfterSave (creatingTopic : bool) (categoryId : Z) (postTopicId : option Z)
| AjaxDone (type : string) (url : option string) (post : option (Z * Z))
| SaveReject (k : nat) (e : AjaxError)                   (* the save promise, rejected *).

(** Running a handler: an error that escapes it is reported by the host and
    does not undo what the handler did. *)
Definition runHandler (m : Eff unit) (w : World) : World :=
  match m w with
  | (Normal _, w') => w'
  | (Abrupt e, w') => setUncaught (uncaught w' ++ [e]) w'
  end.

(** Calling an [async] function whose body ran up to its first [await]
    ([None]) or returned before it ([Some b]); the caller gets a promise and
    never an exception. *)
Definition callAsync (topicId : Z) (body : Eff (option bool)) : Eff unit :=
  fun w => match body w with
           | (Normal (Some b), w') => (Normal tt, setSettled (settled w' ++ [(topicId, b)]) w')
           | (Normal None, w') => (Normal tt, w')
           | (Abrupt e, w') => (Normal tt, setUncaught (uncaught w' ++ [e]) w')
           end.

(** Resuming it after the [await]. *)
Definition resumeAsync (topicId : Z) (rest : Eff bool) : Eff unit :=
  fun w => match rest w with
           | (Normal b, w') => (Normal tt, setSettled (settled w' ++ [(topicId, b)]) w')
           | (Abrupt e, w') => (Normal tt, setUncaught (uncaught w' ++ [e]) w')
           end.

Definition hostChange (topic : option Topic) (doc : list Element) (w : World) : World :=
  setDocument doc (setTopicModel topic w).

(** Taking the [k]-th waiting callback off a queue and running it. *)
Definition fire {T} (queue : World -> list T) (setQueue : list T -> World -> World)
           (k : nat) (body : T -> Eff unit) (w : World) : World :=
  match queue w !! k with
  | Some t => runHandler (body t) (setQueue (delete k (queue w)) w)
  | None => w
  end.

(** What the page holds before and besides the component. *)
Record Host := mkHost {
  loggedIn : option User;          (* api.getCurrentUser() *)
  hostTopic : option Topic;
  hostDocument : list Element;
  hostPosts : list Z;
  hostConsole : list Diag
}.

(** The component's closure, created once the initializer got past its
    log-in check: two empty sets, nothing scheduled. *)
Definition freshWorld (u : User) (h : Host) : World :=
  mkWorld ∅ ∅ [] [] u (hostTopic h) (hostDocument h) [] (hostConsole h) [] [].

(** What came of the initializer: handlers registered over a closure, or not. *)
Inductive Runtime :=
| Inactive (h : Host)
| Active (w : World).

(** With no handler registered only the host itself changes the page. *)
Definition hostOnly (h : Host) (ev : Event) : Host :=
  match ev with
  | HostChange topic doc => mkHost (loggedIn h) topic doc (hostPosts h) (hostConsole h)
  | _ => h
  end.

Definition deliver (step : World -> Event -> World) (r : Runtime) (ev : Event) : Runtime :=
  match r with
  | Inactive h => Inactive (hostOnly h ev)
  | Active w => Active (step w ev)
  end.

Definition hostLog (msg : string) (args : list Z) (h : Host) : Host :=
  mkHost (loggedIn h) (hostTopic h) (hostDocument h) (hostPosts h)
         (hostConsole h ++ [ConsoleLog msg args]).

(** ** The category policy, as the drafts parse [auto_vote_categories] *)

Module Policy.
Section Policy.
  Variable settings : Settings.
  (** [api.container.lookup("service:site")] *)
  Variable site : option Site.

  (** [!settings.auto_vote_categories || settings.auto_vote_categories.length === 0] *)
Definition noCategories : bool :=
    match auto_vote_categories settings with
    | None => true
    | Some raw => negb (Js.truthy raw) || (String.length raw =? 0)%nat
    end.

  (** [Part000] and the api-initializer:
      [.split("|").map((id) => parseInt(id.trim(), 10)).filter((id) => !isNaN(id))] *)
Definition allowedIds : list Z :=
    match auto_vote_categories settings with
    | None => []
    | Some raw => Js.keepNumbers (map (fun id => Js.parseInt (Js.trim id)) (Js.split "|" raw))
    end.

  (** [Part001] and [Part002]:
      [.split("|").map((s) => s.trim()).filter(Boolean)] *)
Definition categorySettings : list string :=
    match auto_vote_categories settings with
    | None => []
    | Some raw => List.filter Js.truthy (map Js.trim (Js.split "|" raw))
    end.

  (** [categorySettings.map((id) => parseInt(id, 10)).filter((id) => !isNaN(id))] *)
Definition numericIds : list Z := Js.keepNumbers (map Js.parseInt categorySettings).

  (** [categorySettings.map((s) => s.toLowerCase())] *)
Definition lowerSettings : list string := map Js.toLowerCase categorySettings.

  (** The body of [if (category) { ... }]. *)
Definition categoryMatches (category : Category) : bool :=
    if Js.arrayIncludes lowerSettings (option_map Js.toLowerCase (slug category))
       || Js.arrayIncludes lowerSettings (option_map Js.toLowerCase (name category))
    then true
    else match slug category with
         | Some s =>
             if Js.truthy s then
               let fullSlug :=
                 match parentCategory category with
                 | Some p => (parent_slug p ++ "/" ++ s)%string
                 | None => s
                 end in
               Js.arrayIncludes lowerSettings (Some (Js.toLowerCase fullSlug))
             else false
         | None => false
         end.

  (** [site.categories.find((c) => c.id === categoryId)] behind
      [site && site.categories] *)
Definition findCategory (categoryId : Z) : option Category :=
    match site with
    | Some s =>
        match categories s with
        | Some cats => List.find (fun c => cat_id c =? categoryId) cats
        | None => None
        end
    | None => None
    end.

  (** [isCategoryAllowed] of [Part001] and [Part002] from its "first try" on. *)
Definition matchByIdOrSlug (categoryId : Z) : bool :=
    if (0 <? length numericIds)%nat && Js.numbersInclude numericIds categoryId then true
    else match findCategory categoryId with
         | Some category => categoryMatches category
         | None => false
         end.
End Policy.
End Policy.

(** [(topic?.vote_count || 0)] *)
Definition voteCountOrZero (topic : option Topic) : Z :=
  match topic with
  | Some t => match vote_count t with Some v => v | None => 0 end
  | None => 0
  end.

(** [topic.vote_count = newVoteCount; topic.user_voted = true;] on the
    model object the topic controller holds. *)
Definition markVoted (t : Topic) (newVoteCount : Z) : Eff unit :=
  modify (setTopicModel
    (Some (mkTopic (topic_id t) (user_id t) (category_id t) (can_vote t)
                   true (Some newVoteCount)))).

(** [currentUser.votes_exceeded] and [currentUser.votes_left], each assigned
    when the response carries the field. *)
Definition updateCurrentUser (r : VoteResponse) : Eff unit :=
  match resp_can_vote r with
  | Some cv =>
      modify (fun w => setCurrentUser
        (mkUser (uid (currentUser w)) (Some (negb cv)) (votes_left (currentUser w))) w)
  | None => ret tt
  end ;;
  match resp_votes_left r with
  | Some vl =>
      modify (fun w => setCurrentUser
        (mkUser (uid (currentUser w)) (votes_exceeded (currentUser w)) (Some vl)) w)
  | None => ret tt
  end.

(** [error.jqXHR?.status === 422] *)
Definition is422 (error : JsError) : bool :=
  match statusOf error with Some s => s =? 422 | None => false end.

Definition statusArgs (error : JsError) : list Z :=
  match statusOf error with Some s => [s] | None => [] end.

(** ** [Part002]: v1.4, with direct DOM manipulation *)

Module Part002.
Section Component.
  Variable settings : Settings.
  Variable site : option Site.

Definition log (msg : string) (args : list Z) : Eff unit :=
    when (auto_vote_debug_mode settings) (consoleLog msg args).

Definition updateVoteUI : Z -> Eff unit := Dom.updateVoteUI log.

Definition isCategoryAllowed (categoryId : Z) : Eff bool :=
    if Policy.noCategories settings then
      log "No category restriction configured, allowing all categories" [] ;; ret true
    else if (length (Policy.categorySettings settings) =? 0)%nat then
      log "Empty category list after parsing, allowing all categories" [] ;; ret true
    else ret (Policy.matchByIdOrSlug settings site categoryId).

  (** [castVote] up to its [await]: [Some b] when it returned [b] before. *)
Definition castVoteSync (topicId : Z) (source : string) : Eff (option bool) :=
    if negb (auto_vote_enabled settings) then
      log "Auto-vote is disabled" [] ;; ret (Some false)
    else
      seen <- get autoVotedTopics ;;
      if bool_decide (topicId ∈ seen) then
        log "Already attempted auto-vote for topic:" [topicId] ;; ret (Some false)
      else
        modify (fun w => setAutoVoted ({[topicId]} ∪ autoVotedTopics w) w) ;;
        log "Casting vote for topic (source)" [topicId] ;;
        ajaxVote topicId (CastVoteAwait topicId source) ;;
        ret None.

  (** The inner [try] block of the success path. *)
Definition reflectSuccess (topicId : Z) (response : option VoteResponse) : Eff unit :=
    topic <- get topicModel ;;
    r <- deref response ;;
    let newVoteCount :=
      match resp_vote_count r with
      | Some n => n
      | None => voteCountOrZero topic + 1
      end in
    match topic with
    | Some t =>
        when (topic_id t =? topicId)
          (markVoted t newVoteCount ;;
           log "Updated topic model: vote_count, user_voted = true" [newVoteCount] ;;
           updateCurrentUser r)
    | None => ret tt
    end ;;
    updateVoteUI newVoteCount.

  (** [castVote] from its [await] on, given how the request settled. *)
Definition castVoteResume (topicId : Z) (source : string)
             (r : AjaxError + option VoteResponse) : Eff bool :=
    tryCatch
      (response <- await r ;;
       log "Vote cast successfully for topic:" [topicId] ;;
       tryCatch (reflectSuccess topicId response)
                (fun e => log "Error updating UI:" [] ;; updateVoteUI 1) ;;
       ret true)
      (fun error =>
         (if is422 error
          then log "Could not vote (already voted or voting not enabled):" [topicId]
          else log "Error casting vote:" (statusArgs error)) ;;
         ret false).

Definition castVote (topicId : Z) (source : string) : Eff unit :=
    callAsync topicId (castVoteSync topicId source).

  (** The condition of the [if] in the navigation callback. *)
Definition ownUnvotedAllowed (topic : Topic) : Eff bool :=
    me <- get currentUser ;;
    andThen ((user_id topic =? uid me) && can_vote topic && negb (user_voted topic))
            (isCategoryAllowed (category_id topic)).

  (** The callback given to [setTimeout(..., 500)]. *)
Definition visitCheck : Eff unit :=
    topic <- get topicModel ;;
    match topic with
    | None => ret tt
    | Some topic =>
        ok <- ownUnvotedAllowed topic ;;
        when ok
          (log "Found unvoted own topic on page load:" [topic_id topic] ;;
           castVote (topic_id topic) "onPageChange")
    end.

  (** [api.onPageChange((url) => ...)] *)
Definition onPageChange (url : string) : Eff unit :=
    match Js.matchTopic url with
    | None => ret tt
    | Some _ => setTimeout VisitCheck
    end.

Definition fireTimer (t : Timer) : Eff unit :=
    match t with
    | VisitCheck => visitCheck
    | _ => ret tt
    end.

Definition settle (r : AjaxError + option VoteResponse) (p : Pending) : Eff unit :=
    match p with
    | CastVoteAwait topicId source => resumeAsync topicId (castVoteResume topicId source r)
    | _ => ret tt
    end.

  (** One turn of the event loop. *)
Definition step (w : World) (ev : Event) : World :=
    match ev with
    | PageChange url => runHandler (onPageChange url) w
    | TimerFire k => fire timers setTimers k fireTimer w
    | AjaxSettle k r => fire pending setPending k (settle r) w
    | HostChange topic doc => hostChange topic doc w
    | _ => w
    end.

Definition run (w : World) (evs : list Event) : World := fold_left step evs w.

  (** [apiInitializer("1.0", (api) => { ... })] *)
Definition apiInitializer (h : Host) : Runtime :=
    match loggedIn h with
    | None => Inactive h
    | Some u =>
        Active (snd (log "Initializing auto-vote component for user:" [] (freshWorld u h)))
    end.

Definition session (h : Host) (evs : list Event) : Runtime :=
    fold_left (deliver step) evs (apiInitializer h).

End Component.
End Part002.

(** ** [Part001]: pre-vote from the composer's [save], optional vote on visit *)

Module Part001.
Section Component.
  Variable settings : Settings.
  Variable site : option Site.

Definition isCategoryAllowed (categoryId : Z) : bool :=
    if Policy.noCategories settings then true
    else if (length (Policy.categorySettings settings) =? 0)%nat then true
    else Policy.matchByIdOrSlug settings site categoryId.

  (** This draft has no [log]. *)
Definition updateVoteUI : Z -> Eff unit := Dom.updateVoteUI (fun _ _ => ret tt).

Definition castVoteSync (topicId : Z) : Eff (option bool) :=
    if negb (auto_vote_enabled settings) then ret (Some false)
    else
      seen <- get autoVotedTopics ;;
      if bool_decide (topicId ∈ seen) then ret (Some false)
      else
        modify (fun w => setAutoVoted ({[topicId]} ∪ autoVotedTopics w) w) ;;
        ajaxVote topicId (CastVoteAwait topicId "") ;;
        ret None.

Definition castVoteResume (topicId : Z) (r : AjaxError + option VoteResponse) : Eff bool :=
    tryCatch
      (response <- await r ;;
       topic <- get topicModel ;;
       rv <- deref response ;;
       let newVoteCount :=
         match resp_vote_count rv with
         | Some n => n
         | None => voteCountOrZero topic + 1
         end in
       match topic with
       | Some t =>
           when (topic_id t =? topicId) (markVoted t newVoteCount ;; updateCurrentUser rv)
       | None => ret tt
       end ;;
       updateVoteUI newVoteCount ;;
       ret true)
      (fun error => ret false).

Definition castVote (topicId : Z) : Eff unit :=
    callAsync topicId (castVoteSync topicId).

  (** [save(opts)] of the composer model: the [then] is attached when the
      three conditions hold at the time of the call. *)
Definition save (creatingTopic : bool) (categoryId : Z) : Eff unit :=
    when (creatingTopic && auto_vote_enabled settings && isCategoryAllowed categoryId)
         (modify (fun w => setPending (pending w ++ [SaveThen]) w)).

  (** The callback of [savePromise.then]; [postTopicId] is
      [result.responseJson.post.topic_id] when [result] has a post. *)
Definition saveThen (postTopicId : option Z) : Eff unit :=
    match postTopicId with
    | Some topicId =>
        modify (fun w => setPreVoted ({[topicId]} ∪ preVotedTopics w) w) ;;
        ajaxVote topicId (PreVoteAwait topicId)
    | None => ret tt
    end.

  (** [savePromise.then(...)] is given no rejection handler: when the save
      is rejected, so is the promise that [then] returned, and nothing
      handles it. *)
Definition saveRejected (e : AjaxError) : Eff unit := throw (Rejected e).

  (** [.catch(() => { preVotedTopics.delete(topicId); })] *)
Definition preVoteSettled (topicId : Z) (r : AjaxError + option VoteResponse) : Eff unit :=
    match r with
    | inl _ => modify (fun w => setPreVoted (preVotedTopics w ∖ {[topicId]}) w)
    | inr _ => ret tt
    end.

Definition visitCheck : Eff unit :=
    topic <- get topicModel ;;
    match topic with
    | None => ret tt
    | Some topic =>
        me <- get currentUser ;;
        when ((user_id topic =? uid me) && can_vote topic && negb (user_voted topic)
              && isCategoryAllowed (category_id topic))
             (castVote (topic_id topic))
    end.

Definition onPageChange (url : string) : Eff unit :=
    match Js.matchTopic url with
    | None => ret tt
    | Some digits =>
        pre <- get preVotedTopics ;;
        match Js.parseInt digits with
        | Some topicIdFromUrl =>
            if bool_decide (topicIdFromUrl ∈ pre) then
              modify (fun w => setPreVoted (preVotedTopics w ∖ {[topicIdFromUrl]}) w) ;;
              modify (fun w => setAutoVoted ({[topicIdFromUrl]} ∪ autoVotedTopics w) w) ;;
              setTimeout ReflectOne
            else when (auto_vote_on_visit settings) (setTimeout VisitCheck)
        | None => when (auto_vote_on_visit settings) (setTimeout VisitCheck)
        end
    end.

Definition fireTimer (t : Timer) : Eff unit :=
    match t with
    | VisitCheck => visitCheck
    | ReflectOne => updateVoteUI 1
    | DelayedCast _ => ret tt
    end.

Definition settle (r : AjaxError + option VoteResponse) (p : Pending) : Eff unit :=
    match p with
    | CastVoteAwait topicId _ => resumeAsync topicId (castVoteResume topicId r)
    | PreVoteAwait topicId => preVoteSettled topicId r
    | SaveThen => ret tt
    end.

  (** A settlement reaches a promise of its own kind only. *)
Definition step (w : World) (ev : Event) : World :=
    match ev with
    | PageChange url => runHandler (onPageChange url) w
    | TimerFire k => fire timers setTimers k fireTimer w
    | AjaxSettle k r =>
        match pending w !! k with
        | Some SaveThen => w
        | _ => fire pending setPending k (settle r) w
        end
    | SaveSettle k postTopicId =>
        match pending w !! k with
        | Some SaveThen => fire pending setPending k (fun _ => saveThen postTopicId) w
        | _ => w
        end
    | ComposerSave creatingTopic categoryId => runHandler (save creatingTopic categoryId) w
    | HostChange topic doc => hostChange topic doc w
    | SaveReject k e =>
        match pending w !! k with
        | Some SaveThen => fire pending setPending k (fun _ => saveRejected e) w
        | _ => w
        end
    | _ => w
    end.

Definition run (w : World) (evs : list Event) : World := fold_left step evs w.

Definition apiInitializer (h : Host) : Runtime :=
    match loggedIn h with
    | None => Inactive h
    | Some u => Active (freshWorld u h)
    end.

Definition session (h : Host) (evs : list Event) : Runtime :=
    fold_left (deliver step) evs (apiInitializer h).

End Component.
End Part001.

(** ** [Part000]: the [topic:created] event, with a fallback on navigation *)

Module Part000.
Section Component.
  Variable settings : Settings.

Definition log (msg : string) (args : list Z) : Eff unit :=
    when (auto_vote_debug_mode settings) (consoleLog msg args).

Definition isCategoryAllowed (categoryId : Z) : bool :=
    if Policy.noCategories settings then true
    else if (length (Policy.allowedIds settings) =? 0)%nat then true
    else Js.numbersInclude (Policy.allowedIds settings) categoryId.

Definition castVoteSync (topicId : Z) (source : string) : Eff (option bool) :=
    if negb (auto_vote_enabled settings) then
      log "Auto-vote is disabled" [] ;; ret (Some false)
    else
      seen <- get autoVotedTopics ;;
      if bool_decide (topicId ∈ seen) then
        log "Already attempted auto-vote for topic:" [topicId] ;; ret (Some false)
      else
        modify (fun w => setAutoVoted ({[topicId]} ∪ autoVotedTopics w) w) ;;
        log "Casting vote for topic (source)" [topicId] ;;
        ajaxVote topicId (CastVoteAwait topicId source) ;;
        ret None.

Definition castVoteResume (topicId : Z) (source : string)
             (r : AjaxError + option VoteResponse) : Eff bool :=
    tryCatch
      (_ <- await r ;;
       log "Vote cast successfully for topic:" [topicId] ;;
       ret true)
      (fun error =>
         (if is422 error
          then log "Could not vote (already voted or voting not enabled):" [topicId]
          else consoleError "[Auto Vote Own Topic] Error casting vote:" (statusArgs error)) ;;
         ret false).

Definition castVote (topicId : Z) (source : string) : Eff unit :=
    callAsync topicId (castVoteSync topicId source).

  (** [api.onAppEvent("topic:created", (data) => ...)]; [data?.id] is truthy
      for a non-zero id. *)
Definition onTopicCreated (data : option (Z * Z)) : Eff unit :=
    log "topic:created event fired:" [] ;;
    match data with
    | Some (topicId, categoryId) =>
        when (negb (topicId =? 0))
          (log "New topic created:" [topicId; categoryId] ;;
           if negb (isCategoryAllowed categoryId) then
             log "Category not in allowed list:" [categoryId]
           else castVote topicId "topic:created")
    | None => ret tt
    end.

Definition visitCheck : Eff unit :=
    topic <- get topicModel ;;
    match topic with
    | None => ret tt
    | Some topic =>
        me <- get currentUser ;;
        when ((user_id topic =? uid me) && can_vote topic && negb (user_voted topic)
              && isCategoryAllowed (category_id topic))
             (log "Found unvoted own topic on page load:" [topic_id topic] ;;
              castVote (topic_id topic) "onPageChange")
    end.

Definition onPageChange (url : string) : Eff unit :=
    match Js.matchTopic url with
    | None => ret tt
    | Some _ => setTimeout VisitCheck
    end.

Definition fireTimer (t : Timer) : Eff unit :=
    match t with
    | VisitCheck => visitCheck
    | _ => ret tt
    end.

Definition settle (r : AjaxError + option VoteResponse) (p : Pending) : Eff unit :=
    match p with
    | CastVoteAwait topicId source => resumeAsync topicId (castVoteResume topicId source r)
    | _ => ret tt
    end.

Definition step (w : World) (ev : Event) : World :=
    match ev with
    | PageChange url => runHandler (onPageChange url) w
    | TopicCreated data => runHandler (onTopicCreated data) w
    | TimerFire k => fire timers setTimers k fireTimer w
    | AjaxSettle k r => fire pending setPending k (settle r) w
    | HostChange topic doc => hostChange topic doc w
    | _ => w
    end.

Definition run (w : World) (evs : list Event) : World := fold_left step evs w.

Definition apiInitializer (h : Host) : Runtime :=
    match loggedIn h with
    | None => Inactive h
    | Some u =>
        Active (snd (log "Initializing auto-vote component for user:" [] (freshWorld u h)))
    end.

Definition session (h : Host) (evs : list Event) : Runtime :=
    fold_left (deliver step) evs (apiInitializer h).

End Component.
End Part000.

(** ** [AutoVoteOwnTopic]: the api-initializer with [checkAndVote] and four
    ways of noticing a new topic *)

Module AutoVoteOwnTopic.
Section Component.
  Variable settings : Settings.

  (** [const DEBUG = true;] *)
Definition DEBUG : bool := true.

Definition log (msg : string) (args : list Z) : Eff unit :=
    when (DEBUG || auto_vote_debug_mode settings) (consoleLog msg args).

Definition isCategoryAllowed (categoryId : Z) : Eff bool :=
    if Policy.noCategories settings then
      log "No category restrictions - allowing all" [] ;; ret true
    else if (length (Policy.allowedIds settings) =? 0)%nat then
      log "No valid category IDs parsed - allowing all" [] ;; ret true
    else
      let allowed := Js.numbersInclude (Policy.allowedIds settings) categoryId in
      log "Category check:" [categoryId] ;; ret allowed.

Definition castVoteSync (topicId : Z) (source : string) : Eff (option bool) :=
    log "castVote called from (source) for topic:" [topicId] ;;
    seen <- get autoVotedTopics ;;
    if bool_decide (topicId ∈ seen) then
      log "Already attempted auto-vote for topic:" [topicId] ;; ret (Some false)
    else
      modify (fun w => setAutoVoted ({[topicId]} ∪ autoVotedTopics w) w) ;;
      log "Making API call to /voting/vote with topic_id:" [topicId] ;;
      ajaxVote topicId (CastVoteAwait topicId source) ;;
      ret None.

Definition castVoteResume (topicId : Z) (source : string)
             (r : AjaxError + option VoteResponse) : Eff bool :=
    tryCatch
      (_ <- await r ;;
       log "Vote API response:" [] ;;
       log "SUCCESS! Vote cast for topic:" [topicId] ;;
       ret true)
      (fun error =>
         log "Vote API error:" (statusArgs error) ;;
         (if is422 error
          then log "Could not vote (may already be voted or not allowed)" []
          else consoleError "[Auto Vote Own Topic] Error casting vote:" (statusArgs error)) ;;
         ret false).

Definition castVote (topicId : Z) (source : string) : Eff unit :=
    callAsync topicId (castVoteSync topicId source).

Definition checkAndVote (topic : option Topic) (source : string) : Eff unit :=
    log "checkAndVote called from (source)" [] ;;
    if negb (auto_vote_enabled settings) then log "Auto-vote is disabled in settings" []
    else match topic with
    | None => log "No topic model available" []
    | Some topic =>
        let topicId := topic_id topic in
        seen <- get autoVotedTopics ;;
        if bool_decide (topicId ∈ seen) then
          log "Already attempted auto-vote for topic:" [topicId]
        else
          me <- get currentUser ;;
          log "Topic data:" [topicId; user_id topic; uid me; category_id topic] ;;
          if negb (user_id topic =? uid me) then
            log "SKIP: User is not the topic creator" []
          else if negb (can_vote topic) then
            log "SKIP: Voting not enabled for this topic (can_vote=false)" []
          else if user_voted topic then
            log "SKIP: User has already voted on this topic" []
          else
            allowed <- isCategoryAllowed (category_id topic) ;;
            if negb allowed then log "SKIP: Category not in allowed list" []
            else
              log "All checks passed! Casting vote..." [] ;;
              castVote topicId source
    end.

  (** METHOD 1 *)
Definition onPageChange (url : string) : Eff unit :=
    log "onPageChange fired:" [] ;;
    match Js.matchTopic url with
    | None => ret tt
    | Some _ =>
        log "On topic page, topic ID from URL:" [] ;;
        setTimeout VisitCheck
    end.

Definition visitCheck : Eff unit :=
    topic <- get topicModel ;;
    log "Topic controller model:" [] ;;
    match topic with
    | Some t => checkAndVote (Some t) "onPageChange"
    | None => ret tt
    end.

  (** METHOD 2 *)
Definition eventsToWatch : list string :=
    ["composer:created-post"; "composer:saved"; "composer:closed";
     "topic:created"; "post:created"; "page:topic-loaded"].

  (** A number read in a boolean position. *)
Definition truthyId (o : option Z) : option Z :=
    match o with
    | Some n => if n =? 0 then None else Some n
    | None => None
    end.

  (** [data?.topic_id || data?.id] *)
Definition eventTopicId (data : option EventData) : option Z :=
    match data with
    | Some d =>
        match truthyId (data_topic_id d) with
        | Some t => Some t
        | None => truthyId (data_id d)
        end
    | None => None
    end.

Definition onAppEvent (eventName : string) (data : option EventData) : Eff unit :=
    log "AppEvent fired:" [] ;;
    match eventTopicId data with
    | Some topicId =>
        log "Event has topic ID, attempting vote..." [topicId] ;;
        when (auto_vote_enabled settings) (castVote topicId ("appEvent:" ++ eventName)%string)
    | None => ret tt
    end.

  (** METHOD 3: [afterSave(result)] of the composer model *)
Definition afterSave (creatingTopic : bool) (categoryId : Z) (postTopicId : option Z) : Eff unit :=
    log "=== COMPOSER afterSave CALLED ===" [] ;;
    log "this.creatingTopic:" [] ;;
    log "result:" [] ;;
    log "result?.responseJson:" [] ;;
    log "result?.responseJson?.post:" [] ;;
    if creatingTopic then
      log "This IS a new topic creation" [] ;;
      log "Extracted data:" [categoryId] ;;
      match truthyId postTopicId with
      | None => log "ERROR: Could not extract topic_id from result" []
      | Some topicId =>
          if negb (auto_vote_enabled settings) then log "Auto-vote is disabled" []
          else
            allowed <- isCategoryAllowed categoryId ;;
            if negb allowed then log "Category not allowed" []
            else
              log "Calling castVote from composer afterSave..." [] ;;
              castVote topicId "composer:afterSave"
      end
    else log "This is NOT a new topic (probably a reply)" [].

  (** METHOD 4: the [then] attached to every [$.ajax]; [post] is
      [response.post]'s [topic_id] and [post_number].  The callback runs
      when the request succeeds; when it fails the promise [then] returned
      is a rejected jQuery promise, which reports nothing. *)
Definition onAjaxDone (type : string) (url : option string) (post : option (Z * Z)) : Eff unit :=
    let url := match url with Some u => u | None => "" end in
    when (String.eqb type "POST" && Js.includes "/posts" url)
      (log "=== AJAX POST to /posts detected ===" [] ;;
       log "Response:" [] ;;
       match post with
       | Some (postTopicId, postNumber) =>
           when (negb (postTopicId =? 0) && (postNumber =? 1))
             (log "New topic detected from AJAX! Topic ID:" [postTopicId] ;;
              when (auto_vote_enabled settings) (setTimeout (DelayedCast postTopicId)))
       | None => ret tt
       end).

Definition fireTimer (t : Timer) : Eff unit :=
    match t with
    | VisitCheck => visitCheck
    | DelayedCast topicId => castVote topicId "ajax:interceptor"
    | ReflectOne => ret tt
    end.

Definition settle (r : AjaxError + option VoteResponse) (p : Pending) : Eff unit :=
    match p with
    | CastVoteAwait topicId source => resumeAsync topicId (castVoteResume topicId source r)
    | _ => ret tt
    end.

Definition step (w : World) (ev : Event) : World :=
    match ev with
    | PageChange url => runHandler (onPageChange url) w
    | AppEvent eventName data =>
        if existsb (String.eqb eventName) eventsToWatch
        then runHandler (onAppEvent eventName data) w
        else w
    | ComposerAfterSave creatingTopic categoryId postTopicId =>
        runHandler (afterSave creatingTopic categoryId postTopicId) w
    | AjaxDone type url post => runHandler (onAjaxDone type url post) w
    | TimerFire k => fire timers setTimers k fireTimer w
    | AjaxSettle k r => fire pending setPending k (settle r) w
    | HostChange topic doc => hostChange topic doc w
    | _ => w
    end.

Definition run (w : World) (evs : list Event) : World := fold_left step evs w.

  (** The lines before the log-in check are logged whoever looks at the page. *)
Definition preamble (h : Host) : Host :=
    let say msg h := if DEBUG || auto_vote_debug_mode settings then hostLog msg [] h else h in
    say "Current user:" (say "Settings:" (say "=== INITIALIZING AUTO VOTE COMPONENT ===" h)).

Definition apiInitializer (h : Host) : Runtime :=
    let h := preamble h in
    match loggedIn h with
    | None =>
        Inactive (if DEBUG || auto_vote_debug_mode settings
                  then hostLog "Exiting - no user logged in" [] h else h)
    | Some u =>
        Active (snd ((log "Setting up composer model modification..." [] ;;
                      log "Setting up AJAX interceptor..." [] ;;
                      log "=== AUTO VOTE COMPONENT FULLY INITIALIZED ===" [])
                       (freshWorld u h)))
    end.

Definition session (h : Host) (evs : list Event) : Runtime :=
    fold_left (deliver step) evs (apiInitializer h).

End Component.
End AutoVoteOwnTopic.
(** * Sanity checks of the primitives *)

Example split_ex : Js.split "|" "5| 9 |" = ["5"; " 9 "; ""]. Proof. reflexivity. Qed.
Example trim_ex : Js.trim "  a b  " = "a b". Proof. reflexivity. Qed.
Example parseInt_ex1 : Js.parseInt "42abc" = Some 42. Proof. reflexivity. Qed.
Example parseInt_ex2 : Js.parseInt "support" = None. Proof. reflexivity. Qed.
Example parseInt_ex3 : Js.parseInt "-7" = Some (-7). Proof. reflexivity. Qed.
Example lower_ex : Js.toLowerCase "SupPort/X1" = "support/x1". Proof. reflexivity. Qed.
Example includes_ex : Js.includes "vote" "unvote" = true. Proof. reflexivity. Qed.
Example match_ex1 : Js.matchTopic "https://x.org/t/some-slug/1234?u=a" = Some "1234". Proof. reflexivity. Qed.
Example match_ex2 : Js.matchTopic "/t/1234" = None. Proof. reflexivity. Qed.
Example match_ex3 : Js.matchTopic "/t//12/t/a/7b" = Some "7". Proof. reflexivity. Qed.
Example toString_ex : Js.numberToString 15 = "15". Proof. reflexivity. Qed.

(** * Reasoning about effects *)

(** ** Frame rules: a computation that leaves a view of the world alone *)

Section Keeps.
  Context {V : Type} (view : World -> V).

Definition keeps {A} (m : Eff A) : Prop := forall w, view (snd (m w)) = view w.

Lemma keeps_ret {A} (a : A) : keeps (ret a).
  Proof. intros w; reflexivity. Qed.

Lemma keeps_throw {A} (e : JsError) : keeps (@throw A e).
  Proof. intros w; reflexivity. Qed.

Lemma keeps_get {A} (f : World -> A) : keeps (get f).
  Proof. intros w; reflexivity. Qed.

Lemma keeps_deref {A} (o : option A) : keeps (deref o).
  Proof. destruct o; intros w; reflexivity. Qed.

Lemma keeps_await {A} (r : AjaxError + A) : keeps (await r).
  Proof. destruct r; intros w; reflexivity. Qed.

Lemma keeps_modify (f : World -> World) :
    (forall w, view (f w) = view w) -> keeps (modify f).
  Proof. intros H w; apply H. Qed.

Lemma keeps_bind {A B} (m : Eff A) (k : A -> Eff B) :
    keeps m -> (forall a, keeps (k a)) -> keeps (bind m k).
  Proof.
    intros Hm Hk w. unfold bind. specialize (Hm w).
    destruct (m w) as [[a|e] w']; simpl in *.
    - rewrite Hk. exact Hm.
    - exact Hm.
  Qed.

Lemma keeps_tryCatch {A} (m : Eff A) (h : JsError -> Eff A) :
    keeps m -> (forall e, keeps (h e)) -> keeps (tryCatch m h).
  Proof.
    intros Hm Hh w. unfold tryCatch. specialize (Hm w).
    destruct (m w) as [[a|e] w']; simpl in *.
    - exact Hm.
    - rewrite Hh. exact Hm.
  Qed.

Lemma keeps_when (c : bool) (m : Eff unit) : keeps m -> keeps (when c m).
  Proof. destruct c; simpl; auto using keeps_ret. Qed.

Lemma keeps_andThen (a : bool) (m : Eff bool) : keeps m -> keeps (andThen a m).
  Proof. destruct a; simpl; auto using keeps_ret. Qed.

Lemma keeps_if {A} (c : bool) (m1 m2 : Eff A) :
    keeps m1 -> keeps m2 -> keeps (if c then m1 else m2).
  Proof. destruct c; auto. Qed.

Lemma keeps_runHandler (m : Eff unit) :
    (forall l w, view (setUncaught l w) = view w) ->
    keeps m -> forall w, view (runHandler m w) = view w.
  Proof.
    intros Hu Hm w. unfold runHandler. specialize (Hm w).
    destruct (m w) as [[a|e] w']; simpl in *; [|rewrite Hu]; exact Hm.
  Qed.
End Keeps.

(** Splits a computation along its binds and branches. *)
Ltac keeps_step :=
  first
    [ apply keeps_ret | apply keeps_throw | apply keeps_get | apply keeps_deref
    | apply keeps_await
    | apply keeps_bind; [| intros ?]
    | apply keeps_tryCatch; [| intros ?]
    | apply keeps_when
    | apply keeps_andThen
    | apply keeps_modify; intros ?; reflexivity
    | apply keeps_if
    | match goal with
      | |- keeps _ (match ?x with _ => _ end) => destruct x
      end ].
Ltac keeps_auto := repeat keeps_step.

(** Views that the cosmetic and diagnostic code must not touch. *)
Definition registryView (w : World) :=
  (autoVotedTopics w, preVotedTopics w, timers w, pending w, posts w).

Definition outcomeView (w : World) := (settled w, uncaught w).

Lemma keeps_consoleLog {V} (view : World -> V) msg args :
  (forall l w, view (setConsole l w) = view w) -> keeps view (consoleLog msg args).
Proof. intros H w. apply H. Qed.

Lemma keeps_consoleError {V} (view : World -> V) msg args :
  (forall l w, view (setConsole l w) = view w) -> keeps view (consoleError msg args).
Proof. intros H w. apply H. Qed.

Module DomFacts.
Import Dom.

Section Frame.
  Context {V : Type} (view : World -> V).
  Hypothesis view_document : forall d w, view (setDocument d w) = view w.
  Variable log : string -> list Z -> Eff unit.
  Hypothesis keeps_log : forall msg args, keeps view (log msg args).

Lemma keeps_onElement el f : keeps view (onElement el f).
  Proof.
    unfold onElement. apply keeps_bind; [apply keeps_deref|].
    intros i. apply keeps_modify. intros w. apply view_document.
  Qed.

Lemma keeps_updateVoteUI n : keeps view (updateVoteUI log n).
  Proof.
    unfold updateVoteUI, querySelector, setTextContent, classListRemove, classListAdd,
      querySpan, spanTextContent, setSpanTextContent.
    repeat first [ apply keeps_log | apply keeps_onElement | keeps_step ].
  Qed.
End Frame.
End DomFacts.

(** ** Invariants: a property of the world that a computation maintains *)

Section Preserves.
  Variable P : World -> Prop.

Definition preserves {A} (m : Eff A) : Prop := forall w, P w -> P (snd (m w)).

Lemma preserves_ret {A} (a : A) : preserves (ret a).
  Proof. intros w H; exact H. Qed.

Lemma preserves_bind {A B} (m : Eff A) (k : A -> Eff B) :
    preserves m -> (forall a, preserves (k a)) -> preserves (bind m k).
  Proof.
    intros Hm Hk w H. unfold bind. specialize (Hm w H).
    destruct (m w) as [[a|e] w']; simpl in *; [apply Hk|]; exact Hm.
  Qed.

Lemma preserves_when (c : bool) (m : Eff unit) : preserves m -> preserves (when c m).
  Proof. destruct c; simpl; auto using preserves_ret. Qed.

Lemma preserves_if {A} (c : bool) (m1 m2 : Eff A) :
    preserves m1 -> preserves m2 -> preserves (if c then m1 else m2).
  Proof. destruct c; auto. Qed.

Lemma preserves_modify (f : World -> World) :
    (forall w, P w -> P (f w)) -> preserves (modify f).
  Proof. intros H w Hw; apply H, Hw. Qed.

  (** A property that reads the world through [view] only survives whatever
      keeps [view]. *)
Lemma keeps_preserves {V A} (view : World -> V) (m : Eff A) :
    (forall w w', view w = view w' -> P w -> P w') -> keeps view m -> preserves m.
  Proof. intros Hv Hk w H. apply (Hv w); [symmetry; apply Hk | exact H]. Qed.

  Hypothesis P_settled : forall l w, P w -> P (setSettled l w).
  Hypothesis P_uncaught : forall l w, P w -> P (setUncaught l w).

Lemma preserves_callAsync t (body : Eff (option bool)) :
    preserves body -> preserves (callAsync t body).
  Proof.
    intros Hb w H. unfold callAsync. specialize (Hb w H).
    destruct (body w) as [[[b|]|e] w']; simpl in *; auto.
  Qed.

Lemma preserves_resumeAsync t (rest : Eff bool) :
    preserves rest -> preserves (resumeAsync t rest).
  Proof.
    intros Hb w H. unfold resumeAsync. specialize (Hb w H).
    destruct (rest w) as [[b|e] w']; simpl in *; auto.
  Qed.

Lemma preserves_runHandler (m : Eff unit) w :
    preserves m -> P w -> P (runHandler m w).
  Proof.
    intros Hm H. unfold runHandler. specialize (Hm w H).
    destruct (m w) as [[a|e] w']; simpl in *; auto.
  Qed.

Lemma preserves_fire {T} (queue : World -> list T) setQueue k (body : T -> Eff unit) w :
    (forall l w, P (setQueue l w) -> P (setQueue (delete k l) w)) ->
    (forall w, setQueue (queue w) w = w) ->
    (forall t, preserves (body t)) -> P w -> P (fire queue setQueue k body w).
  Proof.
    intros Hdel Hid Hb H. unfold fire.
    destruct (queue w !! k) as [t|]; [|exact H].
    apply preserves_runHandler; [apply Hb|].
    apply Hdel. rewrite Hid. exact H.
  Qed.
End Preserves.

(** The three views line up: what only touches console, page and models
    leaves registry, queues and request log alone. *)
Lemma registryView_console l w : registryView (setConsole l w) = registryView w.
Proof. reflexivity. Qed.

Lemma registryView_document d w : registryView (setDocument d w) = registryView w.
Proof. reflexivity. Qed.

(** ** The registry discipline shared by every [castVote] *)

(** Every request for a topic was preceded by the topic's entry in the
    registry; no topic was requested twice; a waiting [castVote] has its
    topic registered. *)
Record Disciplined (w : World) : Prop := {
  posts_once : NoDup (posts w);
  posts_registered : forall t, In t (posts w) -> t ∈ autoVotedTopics w;
  pending_registered :
    forall t src, In (CastVoteAwait t src) (pending w) -> t ∈ autoVotedTopics w;
  pending_posted :
    forall t src, In (CastVoteAwait t src) (pending w) -> In t (posts w)
}.

Lemma Disciplined_view w w' :
  registryView w = registryView w' -> Disciplined w -> Disciplined w'.
Proof.
  unfold registryView. intros Hv [H1 H2 H3 H4].
  injection Hv as Ha _ _ Hp Hq.
  constructor; rewrite <- ?Ha, <- ?Hp, <- ?Hq; assumption.
Qed.

Lemma Disciplined_keeps {A} (m : Eff A) :
  keeps registryView m -> preserves Disciplined m.
Proof. apply keeps_preserves. apply Disciplined_view. Qed.

Lemma Disciplined_fresh u h : Disciplined (freshWorld u h).
Proof.
  constructor; simpl.
  - constructor.
  - intros t [].
  - intros t src [].
  - intros t src [].
Qed.

Lemma Disciplined_setTimers l w : Disciplined w -> Disciplined (setTimers l w).
Proof. intros [H1 H2 H3 H4]. constructor; simpl; assumption. Qed.

Lemma In_delete {T} (x : T) k (l : list T) : In x (delete k l) -> In x l.
Proof.
  revert k. induction l as [|y l IH]; intros k H; simpl in *.
  - destruct k; exact H.
  - destruct k; simpl in H; [right; exact H|].
    destruct H as [H|H]; [left; exact H | right; eapply IH; exact H].
Qed.

Lemma Disciplined_dropPending k l w :
  Disciplined (setPending l w) -> Disciplined (setPending (delete k l) w).
Proof.
  intros [H1 H2 H3 H4]. constructor; simpl in *; auto.
  - intros t src Hin. apply (H3 t src). eapply In_delete; exact Hin.
  - intros t src Hin. apply (H4 t src). eapply In_delete; exact Hin.
Qed.

(** The check-then-insert at the head of every [castVote]: whatever logging
    surrounds it, the request leaves only for a topic not yet registered. *)
Lemma Disciplined_reserve (t : Z) (src : string) (dup fresh : Eff unit) :
  keeps registryView dup -> keeps registryView fresh ->
  preserves Disciplined
    (seen <- get autoVotedTopics ;;
     if bool_decide (t ∈ seen) then dup ;; ret (Some false)
     else
       modify (fun w => setAutoVoted ({[t]} ∪ autoVotedTopics w) w) ;;
       fresh ;;
       ajaxVote t (CastVoteAwait t src) ;;
       ret None).
Proof.
  intros Hdup Hfresh w Hw. unfold bind at 1. simpl.
  destruct (bool_decide (t ∈ autoVotedTopics w)) eqn:Hin.
  - apply (Disciplined_keeps (dup ;; ret (Some false))); [|exact Hw].
    apply keeps_bind; [exact Hdup | intros; apply keeps_ret].
  - apply bool_decide_eq_false in Hin.
    unfold bind, modify. simpl.
    pose proof (Hfresh (setAutoVoted ({[t]} ∪ autoVotedTopics w) w)) as Hk.
    destruct (fresh (setAutoVoted ({[t]} ∪ autoVotedTopics w) w)) as [[[]|e] w1];
      simpl in *; unfold registryView in Hk; simpl in Hk;
      injection Hk as Ha _ _ Hp Hq; destruct Hw as [H1 H2 H3 H4].
    + unfold ajaxVote, modify; simpl.
      constructor; simpl; rewrite ?Ha, ?Hp, ?Hq.
      * apply NoDup_app; repeat split; auto.
        -- intros x Hx Hx'. apply list_elem_of_In in Hx, Hx'.
           destruct Hx' as [->|[]]. apply Hin, H2, Hx.
        -- apply NoDup_singleton.
      * intros x Hx. apply in_app_or in Hx. destruct Hx as [Hx|[<-|[]]].
        -- apply elem_of_union_r, H2, Hx.
        -- apply elem_of_union_l, elem_of_singleton; reflexivity.
      * intros x s Hx. apply in_app_or in Hx. destruct Hx as [Hx|[Hx|[]]].
        -- apply elem_of_union_r. eapply H3, Hx.
        -- injection Hx as <- _. apply elem_of_union_l, elem_of_singleton; reflexivity.
      * intros x s Hx. apply in_or_app. apply in_app_or in Hx.
        destruct Hx as [Hx|[Hx|[]]].
        -- left. eapply H4, Hx.
        -- injection Hx as <- _. right; left; reflexivity.
    + constructor; simpl; rewrite ?Ha, ?Hp, ?Hq; auto.
      * intros x Hx. apply elem_of_union_r, H2, Hx.
      * intros x s Hx. apply elem_of_union_r. eapply H3, Hx.
Qed.

Lemma setTimers_id w : setTimers (timers w) w = w.
Proof. destruct w; reflexivity. Qed.

Lemma setPending_id w : setPending (pending w) w = w.
Proof. destruct w; reflexivity. Qed.

Lemma Disciplined_hostChange topic doc w : Disciplined w -> Disciplined (hostChange topic doc w).
Proof. apply Disciplined_view. reflexivity. Qed.

Lemma Disciplined_fireTimer k (body : Timer -> Eff unit) w :
  (forall t, preserves Disciplined (body t)) ->
  Disciplined w -> Disciplined (fire timers setTimers k body w).
Proof.
  intros Hb. apply preserves_fire; auto.
  - intros l w0 [H1 H2 H3 H4]. constructor; simpl in *; assumption.
  - intros l w0 [H1 H2 H3 H4]. constructor; simpl in *; assumption.
  - apply setTimers_id.
Qed.

Lemma Disciplined_firePending k (body : Pending -> Eff unit) w :
  (forall p, preserves Disciplined (body p)) ->
  Disciplined w -> Disciplined (fire pending setPending k body w).
Proof.
  intros Hb. apply preserves_fire; auto.
  - intros l w0 [H1 H2 H3 H4]. constructor; simpl in *; assumption.
  - intros l w0. apply Disciplined_dropPending.
  - apply setPending_id.
Qed.

Lemma Disciplined_settled l w : Disciplined w -> Disciplined (setSettled l w).
Proof. apply Disciplined_view; reflexivity. Qed.

Lemma Disciplined_uncaught l w : Disciplined w -> Disciplined (setUncaught l w).
Proof. apply Disciplined_view; reflexivity. Qed.

Lemma Disciplined_setTimeout t : preserves Disciplined (setTimeout t).
Proof. intros w. apply Disciplined_setTimers. Qed.

#[local] Hint Resolve Disciplined_settled Disciplined_uncaught : core.

(** * [Part002] *)

Module Part002Facts.
Import Part002.

Section Facts.
  Variable settings : Settings.
  Variable site : option Site.

  Section Frame.
    Context {V : Type} (view : World -> V).
    Hypothesis view_console : forall l w, view (setConsole l w) = view w.

Lemma keeps_log_002 msg args : keeps view (log settings msg args).
    Proof. apply keeps_when, keeps_consoleLog, view_console. Qed.

Lemma keeps_isCategoryAllowed_002 c : keeps view (isCategoryAllowed settings site c).
    Proof. unfold isCategoryAllowed. repeat first [apply keeps_log_002 | keeps_step]. Qed.

    Hypothesis view_document : forall d w, view (setDocument d w) = view w.

Lemma keeps_updateVoteUI_002 n : keeps view (updateVoteUI settings n).
    Proof. apply DomFacts.keeps_updateVoteUI; [exact view_document | apply keeps_log_002]. Qed.

    Hypothesis view_topicModel : forall t w, view (setTopicModel t w) = view w.
    Hypothesis view_currentUser : forall u w, view (setCurrentUser u w) = view w.

Lemma keeps_reflectSuccess t r : keeps view (reflectSuccess settings t r).
    Proof.
      unfold reflectSuccess, markVoted, updateCurrentUser.
      repeat first [ apply keeps_log_002 | apply keeps_updateVoteUI_002
                   | apply keeps_modify; intros ?; first [apply view_topicModel | apply view_currentUser]
                   | keeps_step ].
    Qed.

Lemma keeps_castVoteResume_002 t src r : keeps view (castVoteResume settings t src r).
    Proof.
      unfold castVoteResume.
      repeat first [ apply keeps_log_002 | apply keeps_updateVoteUI_002 | apply keeps_reflectSuccess
                   | keeps_step ].
    Qed.
  End Frame.

  (** What it takes for a property of registry, queues and request log to
      hold throughout a session. *)
  Section Invariant.
    Variable P : World -> Prop.
    Hypothesis P_view : forall w w', registryView w = registryView w' -> P w -> P w'.
    Hypothesis P_timers : forall l w, P w -> P (setTimers l w).
    Hypothesis P_dropPending : forall k l w, P (setPending l w) -> P (setPending (delete k l) w).
    Hypothesis P_castVoteSync : forall t src, preserves P (castVoteSync settings t src).

Lemma invariant_keeps_002 {A} (m : Eff A) : keeps registryView m -> preserves P m.
    Proof. apply keeps_preserves, P_view. Qed.

Lemma invariant_castVote_002 t src : preserves P (castVote settings t src).
    Proof.
      apply preserves_callAsync; auto; intros l w; apply P_view; reflexivity.
    Qed.

Lemma invariant_visitCheck_002 : preserves P (visitCheck settings site).
    Proof.
      unfold visitCheck. apply preserves_bind.
      - apply invariant_keeps_002, keeps_get.
      - intros [topic|]; [|apply preserves_ret].
        apply preserves_bind.
        + apply invariant_keeps_002. unfold ownUnvotedAllowed.
          repeat first [apply keeps_isCategoryAllowed_002; reflexivity | keeps_step].
        + intros ok. apply preserves_when, preserves_bind.
          * apply invariant_keeps_002, keeps_log_002; reflexivity.
          * intros _. apply invariant_castVote_002.
    Qed.

Lemma invariant_step_002 w ev : P w -> P (step settings site w ev).
    Proof.
      assert (Hs : forall l w, P w -> P (setSettled l w))
        by (intros l w0; apply P_view; reflexivity).
      assert (Hu : forall l w, P w -> P (setUncaught l w))
        by (intros l w0; apply P_view; reflexivity).
      intros H. destruct ev; simpl; try exact H.
      - apply preserves_runHandler; auto. unfold onPageChange.
        destruct (Js.matchTopic url); [|apply preserves_ret].
        intros w0. apply P_timers.
      - apply preserves_fire; [| | apply setTimers_id | | exact H]; auto.
        + intros l w0 Hw. apply P_timers with (l := l) in Hw.
          apply P_timers with (l := delete k l) in Hw. exact Hw.
        + intros [| |t]; simpl; first [apply invariant_visitCheck_002 | apply preserves_ret].
      - apply preserves_fire; [| | apply setPending_id | | exact H]; auto.
        intros [t src|t|]; simpl; try apply preserves_ret.
        apply preserves_resumeAsync; auto.
        apply invariant_keeps_002, keeps_castVoteResume_002; reflexivity.
      - revert H. apply P_view. reflexivity.
    Qed.

Lemma invariant_run_002 evs w : P w -> P (run settings site w evs).
    Proof.
      unfold run. revert w. induction evs as [|ev evs IH]; intros w H; simpl; [exact H|].
      apply IH, invariant_step_002, H.
    Qed.
  End Invariant.

Lemma Disciplined_castVoteSync_002 t src :
    preserves Disciplined (castVoteSync settings t src).
  Proof.
    unfold castVoteSync. apply preserves_if.
    - apply Disciplined_keeps. keeps_step; [apply keeps_log_002; reflexivity | keeps_step].
    - apply Disciplined_reserve; apply keeps_log_002; reflexivity.
  Qed.

Lemma Disciplined_run_002 evs w : Disciplined w -> Disciplined (run settings site w evs).
  Proof.
    apply invariant_run_002.
    - apply Disciplined_view.
    - apply Disciplined_setTimers.
    - apply Disciplined_dropPending.
    - apply Disciplined_castVoteSync_002.
  Qed.

End Facts.
End Part002Facts.

(** * [Part000] *)

Module Part000Facts.
Import Part000.

Section Facts.
  Variable settings : Settings.

Lemma keeps_log_000 {V} (view : World -> V) msg args :
    (forall l w, view (setConsole l w) = view w) -> keeps view (log settings msg args).
  Proof. intros H. apply keeps_when, keeps_consoleLog, H. Qed.

Lemma keeps_castVoteResume_000 {V} (view : World -> V) t src r :
    (forall l w, view (setConsole l w) = view w) ->
    keeps view (castVoteResume settings t src r).
  Proof.
    intros H. unfold castVoteResume.
    repeat first [ apply keeps_log_000; exact H | apply keeps_consoleError; exact H | keeps_step ].
  Qed.

  Section Invariant.
    Variable P : World -> Prop.
    Hypothesis P_view : forall w w', registryView w = registryView w' -> P w -> P w'.
    Hypothesis P_timers : forall l w, P w -> P (setTimers l w).
    Hypothesis P_dropPending : forall k l w, P (setPending l w) -> P (setPending (delete k l) w).
    Hypothesis P_castVoteSync : forall t src, preserves P (castVoteSync settings t src).

Lemma invariant_keeps_000 {A} (m : Eff A) : keeps registryView m -> preserves P m.
    Proof. apply keeps_preserves, P_view. Qed.

Lemma invariant_castVote_000 t src : preserves P (castVote settings t src).
    Proof.
      apply preserves_callAsync; auto; intros l w; apply P_view; reflexivity.
    Qed.

Lemma invariant_visitCheck_000 : preserves P (visitCheck settings).
    Proof.
      unfold visitCheck. apply preserves_bind.
      - apply invariant_keeps_000, keeps_get.
      - intros [topic|]; [|apply preserves_ret].
        apply preserves_bind; [apply invariant_keeps_000, keeps_get|].
        intros me. apply preserves_when, preserves_bind.
        + apply invariant_keeps_000, keeps_log_000; reflexivity.
        + intros _. apply invariant_castVote_000.
    Qed.

Lemma invariant_onTopicCreated data : preserves P (onTopicCreated settings data).
    Proof.
      unfold onTopicCreated. apply preserves_bind.
      - apply invariant_keeps_000, keeps_log_000; reflexivity.
      - intros _. destruct data as [[t c]|]; [|apply preserves_ret].
        apply preserves_when, preserves_bind.
        + apply invariant_keeps_000, keeps_log_000; reflexivity.
        + intros _. apply preserves_if.
          * apply invariant_keeps_000, keeps_log_000; reflexivity.
          * apply invariant_castVote_000.
    Qed.

Lemma invariant_step_000 w ev : P w -> P (step settings w ev).
    Proof.
      assert (Hs : forall l w, P w -> P (setSettled l w))
        by (intros l w0; apply P_view; reflexivity).
      assert (Hu : forall l w, P w -> P (setUncaught l w))
        by (intros l w0; apply P_view; reflexivity).
      intros H. destruct ev; simpl; try exact H.
      - apply preserves_runHandler; auto. unfold onPageChange.
        destruct (Js.matchTopic url); [|apply preserves_ret].
        intros w0. apply P_timers.
      - apply preserves_fire; [| | apply setTimers_id | | exact H]; auto.
        + intros l w0 Hw. apply P_timers with (l := l) in Hw.
          apply P_timers with (l := delete k l) in Hw. exact Hw.
        + intros [| |t]; simpl; first [apply invariant_visitCheck_000 | apply preserves_ret].
      - apply preserves_fire; [| | apply setPending_id | | exact H]; auto.
        intros [t src|t|]; simpl; try apply preserves_ret.
        apply preserves_resumeAsync; auto.
        apply invariant_keeps_000, keeps_castVoteResume_000; reflexivity.
      - revert H. apply P_view. reflexivity.
      - apply preserves_runHandler; auto. apply invariant_onTopicCreated.
    Qed.

Lemma invariant_run_000 evs w : P w -> P (run settings w evs).
    Proof.
      unfold run. revert w. induction evs as [|ev evs IH]; intros w H; simpl; [exact H|].
      apply IH, invariant_step_000, H.
    Qed.
  End Invariant.

Lemma Disciplined_castVoteSync_000 t src :
    preserves Disciplined (castVoteSync settings t src).
  Proof.
    unfold castVoteSync. apply preserves_if.
    - apply Disciplined_keeps. keeps_step; [apply keeps_log_000; reflexivity | keeps_step].
    - apply Disciplined_reserve; apply keeps_log_000; reflexivity.
  Qed.

Lemma Disciplined_run_000 evs w : Disciplined w -> Disciplined (run settings w evs).
  Proof.
    apply invariant_run_000.
    - apply Disciplined_view.
    - apply Disciplined_setTimers.
    - apply Disciplined_dropPending.
    - apply Disciplined_castVoteSync_000.
  Qed.

End Facts.
End Part000Facts.

(** * [AutoVoteOwnTopic] *)

Module AutoVoteOwnTopicFacts.
Import AutoVoteOwnTopic.

Section Facts.
  Variable settings : Settings.

Lemma keeps_log_main {V} (view : World -> V) msg args :
    (forall l w, view (setConsole l w) = view w) -> keeps view (log settings msg args).
  Proof. intros H. apply keeps_when, keeps_consoleLog, H. Qed.

Lemma keeps_isCategoryAllowed_main {V} (view : World -> V) c :
    (forall l w, view (setConsole l w) = view w) ->
    keeps view (isCategoryAllowed settings c).
  Proof.
    intros H. unfold isCategoryAllowed.
    repeat first [apply keeps_log_main; exact H | keeps_step].
  Qed.

Lemma keeps_castVoteResume_main {V} (view : World -> V) t src r :
    (forall l w, view (setConsole l w) = view w) ->
    keeps view (castVoteResume settings t src r).
  Proof.
    intros H. unfold castVoteResume.
    repeat first [ apply keeps_log_main; exact H | apply keeps_consoleError; exact H | keeps_step ].
  Qed.

  Section Invariant.
    Variable P : World -> Prop.
    Hypothesis P_view : forall w w', registryView w = registryView w' -> P w -> P w'.
    Hypothesis P_timers : forall l w, P w -> P (setTimers l w).
    Hypothesis P_dropPending : forall k l w, P (setPending l w) -> P (setPending (delete k l) w).
    Hypothesis P_castVoteSync : forall t src, preserves P (castVoteSync settings t src).

Lemma invariant_keeps_main {A} (m : Eff A) : keeps registryView m -> preserves P m.
    Proof. apply keeps_preserves, P_view. Qed.

Lemma invariant_log msg args : preserves P (log settings msg args).
    Proof. apply invariant_keeps_main, keeps_log_main; reflexivity. Qed.

Lemma invariant_castVote_main t src : preserves P (castVote settings t src).
    Proof.
      apply preserves_callAsync; auto; intros l w; apply P_view; reflexivity.
    Qed.

Lemma invariant_checkAndVote topic src : preserves P (checkAndVote settings topic src).
    Proof.
      unfold checkAndVote.
      apply preserves_bind; [apply invariant_log | intros _].
      apply preserves_if; [apply invariant_log|].
      destruct topic as [topic|]; [|apply invariant_log].
      apply preserves_bind; [apply invariant_keeps_main, keeps_get | intros seen].
      apply preserves_if; [apply invariant_log|].
      apply preserves_bind; [apply invariant_keeps_main, keeps_get | intros me].
      apply preserves_bind; [apply invariant_log | intros _].
      repeat (apply preserves_if; [apply invariant_log|]).
      apply preserves_bind;
        [apply invariant_keeps_main, keeps_isCategoryAllowed_main; reflexivity | intros ok].
      apply preserves_if; [apply invariant_log|].
      apply preserves_bind; [apply invariant_log | intros _].
      apply invariant_castVote_main.
    Qed.

Lemma invariant_visitCheck_main : preserves P (visitCheck settings).
    Proof.
      unfold visitCheck.
      apply preserves_bind; [apply invariant_keeps_main, keeps_get | intros topic].
      apply preserves_bind; [apply invariant_log | intros _].
      destruct topic; [apply invariant_checkAndVote | apply preserves_ret].
    Qed.

Lemma invariant_onAppEvent n data : preserves P (onAppEvent settings n data).
    Proof.
      unfold onAppEvent.
      apply preserves_bind; [apply invariant_log | intros _].
      destruct (eventTopicId data); [|apply preserves_ret].
      apply preserves_bind; [apply invariant_log | intros _].
      apply preserves_when, invariant_castVote_main.
    Qed.

Lemma invariant_afterSave c cat p : preserves P (afterSave settings c cat p).
    Proof.
      unfold afterSave.
      repeat (apply preserves_bind; [apply invariant_log | intros _]).
      apply preserves_if; [|apply invariant_log].
      repeat (apply preserves_bind; [apply invariant_log | intros _]).
      destruct (truthyId p); [|apply invariant_log].
      apply preserves_if; [apply invariant_log|].
      apply preserves_bind;
        [apply invariant_keeps_main, keeps_isCategoryAllowed_main; reflexivity | intros ok].
      apply preserves_if; [apply invariant_log|].
      apply preserves_bind; [apply invariant_log | intros _].
      apply invariant_castVote_main.
    Qed.

Lemma invariant_onAjaxDone ty url post : preserves P (onAjaxDone settings ty url post).
    Proof.
      unfold onAjaxDone. apply preserves_when.
      repeat (apply preserves_bind; [apply invariant_log | intros _]).
      destruct post as [[t n]|]; [|apply preserves_ret].
      apply preserves_when.
      apply preserves_bind; [apply invariant_log | intros _].
      apply preserves_when. intros w. apply P_timers.
    Qed.

Lemma invariant_step_main w ev : P w -> P (step settings w ev).
    Proof.
      assert (Hs : forall l w, P w -> P (setSettled l w))
        by (intros l w0; apply P_view; reflexivity).
      assert (Hu : forall l w, P w -> P (setUncaught l w))
        by (intros l w0; apply P_view; reflexivity).
      intros H. destruct ev; simpl; try exact H.
      - apply preserves_runHandler; auto. unfold onPageChange.
        apply preserves_bind; [apply invariant_log | intros _].
        destruct (Js.matchTopic url); [|apply preserves_ret].
        apply preserves_bind; [apply invariant_log | intros _].
        intros w0. apply P_timers.
      - apply preserves_fire; [| | apply setTimers_id | | exact H]; auto.
        + intros l w0 Hw. apply P_timers with (l := l) in Hw.
          apply P_timers with (l := delete k l) in Hw. exact Hw.
        + intros [| |t]; simpl;
            first [apply invariant_visitCheck_main | apply invariant_castVote_main | apply preserves_ret].
      - apply preserves_fire; [| | apply setPending_id | | exact H]; auto.
        intros [t src|t|]; simpl; try apply preserves_ret.
        apply preserves_resumeAsync; auto.
        apply invariant_keeps_main, keeps_castVoteResume_main; reflexivity.
      - revert H. apply P_view. reflexivity.
      - match goal with |- P (if ?c then _ else _) => destruct c end; [|exact H].
        apply preserves_runHandler; auto. apply invariant_onAppEvent.
      - apply preserves_runHandler; auto. apply invariant_afterSave.
      - apply preserves_runHandler; auto. apply invariant_onAjaxDone.
    Qed.

Lemma invariant_run_main evs w : P w -> P (run settings w evs).
    Proof.
      unfold run. revert w. induction evs as [|ev evs IH]; intros w H; simpl; [exact H|].
      apply IH, invariant_step_main, H.
    Qed.
  End Invariant.

Lemma Disciplined_castVoteSync_main t src :
    preserves Disciplined (castVoteSync settings t src).
  Proof.
    unfold castVoteSync. apply preserves_bind.
    - apply Disciplined_keeps, keeps_log_main; reflexivity.
    - intros _. apply Disciplined_reserve; apply keeps_log_main; reflexivity.
  Qed.

Lemma Disciplined_run_main evs w : Disciplined w -> Disciplined (run settings w evs).
  Proof.
    apply invariant_run_main.
    - apply Disciplined_view.
    - apply Disciplined_setTimers.
    - apply Disciplined_dropPending.
    - apply Disciplined_castVoteSync_main.
  Qed.

End Facts.
End AutoVoteOwnTopicFacts.

(** ** Monotone facts: an attempt, once made, stays on record *)

Definition Attempted (t : Z) (w : World) : Prop :=
  t ∈ autoVotedTopics w /\ In t (posts w).

Lemma Attempted_view t w w' : registryView w = registryView w' -> Attempted t w -> Attempted t w'.
Proof.
  unfold registryView, Attempted. intros Hv [H1 H2].
  injection Hv as Ha _ _ _ Hq. rewrite <- Ha, <- Hq. auto.
Qed.

Lemma Attempted_reserve (t' t : Z) (src : string) (dup fresh : Eff unit) :
  keeps registryView dup -> keeps registryView fresh ->
  preserves (Attempted t')
    (seen <- get autoVotedTopics ;;
     if bool_decide (t ∈ seen) then dup ;; ret (Some false)
     else
       modify (fun w => setAutoVoted ({[t]} ∪ autoVotedTopics w) w) ;;
       fresh ;;
       ajaxVote t (CastVoteAwait t src) ;;
       ret None).
Proof.
  intros Hdup Hfresh w Hw. unfold bind at 1. simpl.
  destruct (bool_decide (t ∈ autoVotedTopics w)).
  - apply (keeps_preserves (Attempted t') registryView (dup ;; ret (Some false)));
      [apply Attempted_view | | exact Hw].
    apply keeps_bind; [exact Hdup | intros; apply keeps_ret].
  - unfold bind, modify. simpl.
    pose proof (Hfresh (setAutoVoted ({[t]} ∪ autoVotedTopics w) w)) as Hk.
    destruct (fresh (setAutoVoted ({[t]} ∪ autoVotedTopics w) w)) as [[[]|e] w1];
      simpl in *; unfold registryView in Hk; simpl in Hk;
      injection Hk as Ha _ _ Hp Hq; destruct Hw as [H1 H2];
      unfold Attempted; simpl; rewrite ?Ha, ?Hq; split;
      try (apply elem_of_union_r, H1); try (apply in_or_app; left); exact H2.
Qed.

Lemma Attempted_timers t l w : Attempted t w -> Attempted t (setTimers l w).
Proof. intros H; exact H. Qed.

Lemma Attempted_dropPending t k l w :
  Attempted t (setPending l w) -> Attempted t (setPending (delete k l) w).
Proof. intros H; exact H. Qed.

Lemma Disciplined_at_most_once w t :
  Disciplined w -> (count_occ Z.eq_dec (posts w) t <= 1)%nat.
Proof. intros [H _ _ _]. apply NoDup_count_occ, NoDup_ListNoDup. exact H. Qed.

Lemma Disciplined_exactly_once w t :
  Disciplined w -> In t (posts w) -> count_occ Z.eq_dec (posts w) t = 1%nat.
Proof.
  intros Hd Hin. pose proof (Disciplined_at_most_once w t Hd).
  apply (count_occ_In Z.eq_dec) in Hin. lia.
Qed.

(** ** Two runs that differ in console output only *)

Definition eraseConsole (w : World) : World := setConsole [] w.

Definition sameButConsole (w1 w2 : World) : Prop := eraseConsole w1 = eraseConsole w2.

Lemma sameButConsole_refl w : sameButConsole w w.
Proof. reflexivity. Qed.

Lemma sameButConsole_sym w1 w2 : sameButConsole w1 w2 -> sameButConsole w2 w1.
Proof. unfold sameButConsole; auto. Qed.

Lemma sameButConsole_trans w1 w2 w3 :
  sameButConsole w1 w2 -> sameButConsole w2 w3 -> sameButConsole w1 w3.
Proof. unfold sameButConsole; congruence. Qed.

Lemma sameButConsole_setConsole l w : sameButConsole (setConsole l w) w.
Proof. reflexivity. Qed.

(** What a console-blind reader sees is the same in both. *)
Lemma sameButConsole_read {A} (f : World -> A) w1 w2 :
  (forall w, f (eraseConsole w) = f w) -> sameButConsole w1 w2 -> f w1 = f w2.
Proof. intros Hf H. rewrite <- (Hf w1), <- (Hf w2), H. reflexivity. Qed.

(** [sim m1 m2]: started in worlds that agree but for the console, [m1] and
    [m2] complete alike and end in worlds that agree but for the console. *)
Definition sim {A} (m1 m2 : Eff A) : Prop :=
  forall w1 w2, sameButConsole w1 w2 ->
    fst (m1 w1) = fst (m2 w2) /\ sameButConsole (snd (m1 w1)) (snd (m2 w2)).

Lemma sim_ret {A} (a : A) : sim (ret a) (ret a).
Proof. intros w1 w2 H; split; [reflexivity | exact H]. Qed.

Lemma sim_throw {A} (e : JsError) : sim (@throw A e) (throw e).
Proof. intros w1 w2 H; split; [reflexivity | exact H]. Qed.

Lemma sim_deref {A} (o : option A) : sim (deref o) (deref o).
Proof. destruct o; [apply sim_ret | apply sim_throw]. Qed.

Lemma sim_await {A} (r : AjaxError + A) : sim (await r) (await r).
Proof. destruct r; [apply sim_throw | apply sim_ret]. Qed.

Lemma sim_get {A} (f : World -> A) :
  (forall w, f (eraseConsole w) = f w) -> sim (get f) (get f).
Proof.
  intros Hf w1 w2 H. split; [|exact H]. simpl. f_equal.
  apply sameButConsole_read; assumption.
Qed.

Lemma sim_modify (g : World -> World) :
  (forall w, eraseConsole (g w) = eraseConsole (g (eraseConsole w))) -> sim (modify g) (modify g).
Proof.
  intros Hg w1 w2 H. split; [reflexivity|]. simpl. unfold sameButConsole in *.
  rewrite (Hg w1), (Hg w2), H. reflexivity.
Qed.

Lemma sim_bind {A B} (m1 m2 : Eff A) (k1 k2 : A -> Eff B) :
  sim m1 m2 -> (forall a, sim (k1 a) (k2 a)) -> sim (bind m1 k1) (bind m2 k2).
Proof.
  intros Hm Hk w1 w2 H. unfold bind. destruct (Hm w1 w2 H) as [Hr Hw].
  destruct (m1 w1) as [[a1|e1] w1'], (m2 w2) as [[a2|e2] w2']; simpl in *;
    try discriminate.
  - injection Hr as ->. apply Hk, Hw.
  - injection Hr as ->. split; [reflexivity | exact Hw].
Qed.

Lemma sim_tryCatch {A} (m1 m2 : Eff A) (h1 h2 : JsError -> Eff A) :
  sim m1 m2 -> (forall e, sim (h1 e) (h2 e)) -> sim (tryCatch m1 h1) (tryCatch m2 h2).
Proof.
  intros Hm Hh w1 w2 H. unfold tryCatch. destruct (Hm w1 w2 H) as [Hr Hw].
  destruct (m1 w1) as [[a1|e1] w1'], (m2 w2) as [[a2|e2] w2']; simpl in *;
    try discriminate.
  - split; assumption.
  - injection Hr as ->. apply Hh, Hw.
Qed.

Lemma sim_when (c : bool) (m1 m2 : Eff unit) : sim m1 m2 -> sim (when c m1) (when c m2).
Proof. destruct c; simpl; auto using sim_ret. Qed.

Lemma sim_andThen (a : bool) (m1 m2 : Eff bool) :
  sim m1 m2 -> sim (andThen a m1) (andThen a m2).
Proof. destruct a; simpl; auto using sim_ret. Qed.

Lemma sim_if {A} (c : bool) (m1 m2 n1 n2 : Eff A) :
  sim m1 m2 -> sim n1 n2 -> sim (if c then m1 else n1) (if c then m2 else n2).
Proof. destruct c; auto. Qed.

(** A computation that completes with [tt] and writes to the console at most. *)
Definition silent (m : Eff unit) : Prop :=
  forall w, fst (m w) = Normal tt /\ sameButConsole (snd (m w)) w.

Lemma silent_ret : silent (ret tt).
Proof. intros w; split; reflexivity. Qed.

Lemma silent_consoleLog msg args : silent (consoleLog msg args).
Proof. intros w; split; reflexivity. Qed.

Lemma silent_consoleError msg args : silent (consoleError msg args).
Proof. intros w; split; reflexivity. Qed.

Lemma silent_when c m : silent m -> silent (when c m).
Proof. destruct c; simpl; auto using silent_ret. Qed.

Lemma silent_sim m1 m2 : silent m1 -> silent m2 -> sim m1 m2.
Proof.
  intros H1 H2 w1 w2 H. destruct (H1 w1) as [Hr1 Hw1], (H2 w2) as [Hr2 Hw2].
  split; [congruence|].
  eapply sameButConsole_trans; [exact Hw1|].
  eapply sameButConsole_trans; [exact H|]. apply sameButConsole_sym, Hw2.
Qed.

Lemma sim_callAsync t (b1 b2 : Eff (option bool)) :
  sim b1 b2 -> sim (callAsync t b1) (callAsync t b2).
Proof.
  intros Hb w1 w2 H. unfold callAsync. destruct (Hb w1 w2 H) as [Hr Hw].
  destruct (b1 w1) as [[[x1|]|e1] w1'], (b2 w2) as [[[x2|]|e2] w2']; simpl in *;
    try discriminate; split; try reflexivity; try exact Hw.
  - injection Hr as ->. unfold sameButConsole in *.
    change (setSettled (settled (eraseConsole w1') ++ [(t, x2)]) (eraseConsole w1')
            = setSettled (settled (eraseConsole w2') ++ [(t, x2)]) (eraseConsole w2')).
    rewrite Hw. reflexivity.
  - injection Hr as ->. unfold sameButConsole in *.
    change (setUncaught (uncaught (eraseConsole w1') ++ [e2]) (eraseConsole w1')
            = setUncaught (uncaught (eraseConsole w2') ++ [e2]) (eraseConsole w2')).
    rewrite Hw. reflexivity.
Qed.

Lemma sim_resumeAsync t (b1 b2 : Eff bool) :
  sim b1 b2 -> sim (resumeAsync t b1) (resumeAsync t b2).
Proof.
  intros Hb w1 w2 H. unfold resumeAsync. destruct (Hb w1 w2 H) as [Hr Hw].
  destruct (b1 w1) as [[x1|e1] w1'], (b2 w2) as [[x2|e2] w2']; simpl in *;
    try discriminate; split; try reflexivity.
  - injection Hr as ->. unfold sameButConsole in *.
    change (setSettled (settled (eraseConsole w1') ++ [(t, x2)]) (eraseConsole w1')
            = setSettled (settled (eraseConsole w2') ++ [(t, x2)]) (eraseConsole w2')).
    rewrite Hw. reflexivity.
  - injection Hr as ->. unfold sameButConsole in *.
    change (setUncaught (uncaught (eraseConsole w1') ++ [e2]) (eraseConsole w1')
            = setUncaught (uncaught (eraseConsole w2') ++ [e2]) (eraseConsole w2')).
    rewrite Hw. reflexivity.
Qed.

Lemma sim_runHandler (m1 m2 : Eff unit) w1 w2 :
  sim m1 m2 -> sameButConsole w1 w2 -> sameButConsole (runHandler m1 w1) (runHandler m2 w2).
Proof.
  intros Hm H. unfold runHandler. destruct (Hm w1 w2 H) as [Hr Hw].
  destruct (m1 w1) as [[x1|e1] w1'], (m2 w2) as [[x2|e2] w2']; simpl in *;
    try discriminate; [exact Hw|].
  injection Hr as ->. unfold sameButConsole in *.
  change (setUncaught (uncaught (eraseConsole w1') ++ [e2]) (eraseConsole w1')
          = setUncaught (uncaught (eraseConsole w2') ++ [e2]) (eraseConsole w2')).
  rewrite Hw. reflexivity.
Qed.

Lemma sim_fireTimer k (b1 b2 : Timer -> Eff unit) w1 w2 :
  (forall t, sim (b1 t) (b2 t)) -> sameButConsole w1 w2 ->
  sameButConsole (fire timers setTimers k b1 w1) (fire timers setTimers k b2 w2).
Proof.
  intros Hb H. unfold fire.
  rewrite (sameButConsole_read timers w1 w2) by (auto; reflexivity).
  destruct (timers w2 !! k) as [t|]; [|exact H].
  apply sim_runHandler; [apply Hb|]. unfold sameButConsole in *.
  change (setTimers (delete k (timers w2)) (eraseConsole w1)
          = setTimers (delete k (timers w2)) (eraseConsole w2)).
  rewrite H. reflexivity.
Qed.

Lemma sim_firePending k (b1 b2 : Pending -> Eff unit) w1 w2 :
  (forall p, sim (b1 p) (b2 p)) -> sameButConsole w1 w2 ->
  sameButConsole (fire pending setPending k b1 w1) (fire pending setPending k b2 w2).
Proof.
  intros Hb H. unfold fire.
  rewrite (sameButConsole_read pending w1 w2) by (auto; reflexivity).
  destruct (pending w2 !! k) as [t|]; [|exact H].
  apply sim_runHandler; [apply Hb|]. unfold sameButConsole in *.
  change (setPending (delete k (pending w2)) (eraseConsole w1)
          = setPending (delete k (pending w2)) (eraseConsole w2)).
  rewrite H. reflexivity.
Qed.

Lemma sim_hostChange topic doc w1 w2 :
  sameButConsole w1 w2 -> sameButConsole (hostChange topic doc w1) (hostChange topic doc w2).
Proof.
  unfold sameButConsole. intros H.
  change (hostChange topic doc (eraseConsole w1) = hostChange topic doc (eraseConsole w2)).
  rewrite H. reflexivity.
Qed.

Ltac sim_step :=
  first
    [ apply sim_ret | apply sim_throw | apply sim_deref | apply sim_await
    | apply sim_get; intros ?; reflexivity
    | apply sim_modify; intros ?; reflexivity
    | apply sim_bind; [| intros ?]
    | apply sim_tryCatch; [| intros ?]
    | apply sim_when
    | apply sim_andThen
    | apply sim_if
    | apply sim_callAsync
    | apply sim_resumeAsync
    | match goal with
      | |- sim (match ?x with _ => _ end) (match ?x with _ => _ end) => destruct x
      end ].

(** ** [updateVoteUI] as a function on the page *)

Module UpdateVoteUIFacts.
Import Dom.

(** [classList.remove("nonvote")] then [classList.add("vote")] *)
Definition votedClasses (cl : list string) : list string :=
  let kept := List.filter (fun c => negb (String.eqb "nonvote" c)) cl in
  if existsb (String.eqb "vote") kept then kept else kept ++ ["vote"].

Definition markedSpan (sp : option string) : option string :=
  match sp with
  | Some t => if Js.includes "vote" (Js.toLowerCase t) then Some "Voted" else Some t
  | None => None
  end.

Definition reflectCount (n : Z) (e : Element) : Element :=
  mkElement (classList e) (Js.numberToString n) None.

Definition reflectButton (e : Element) : Element :=
  mkElement (votedClasses (classList e)) (text e) (markedSpan (span e)).

Definition reflectWrapper (e : Element) : Element :=
  mkElement (votedClasses (classList e)) (text e) (span e).

Definition applyAt (o : option nat) (f : Element -> Element) (d : list Element) : list Element :=
  match o with
  | Some i => alter f i d
  | None => d
  end.

(** The page after [updateVoteUI(n)]: each selector is resolved on the page
    as the previous step left it. *)
Definition updateDoc (n : Z) (d : list Element) : list Element :=
  let d1 := applyAt (findIndex (hasClass "vote-count-number") d) (reflectCount n) d in
  let d2 := applyAt (findIndex (hasClass "vote-button") d1) reflectButton d1 in
  applyAt (findIndex (hasClass "voting-wrapper") d2) reflectWrapper d2.

Lemma findIndex_lookup {A} (p : A -> bool) (l : list A) i :
  findIndex p l = Some i -> exists x, l !! i = Some x /\ p x = true.
Proof.
  revert i. induction l as [|y l IH]; intros i H; simpl in H; [discriminate|].
  destruct (p y) eqn:Hp.
  - injection H as <-. exists y. auto.
  - destruct (findIndex p l) as [j|]; [|discriminate]. injection H as <-.
    apply IH. reflexivity.
Qed.

Lemma alter_alter (f g : Element -> Element) i (d : list Element) :
  alter f i (alter g i d) = alter (fun e => f (g e)) i d.
Proof.
  revert i. induction d as [|x d IH]; intros [|i]; simpl; try reflexivity.
  f_equal. apply IH.
Qed.

Lemma alter_ext_at (f g : Element -> Element) i (d : list Element) :
  (forall x, d !! i = Some x -> f x = g x) -> alter f i d = alter g i d.
Proof.
  revert i. induction d as [|x d IH]; intros [|i] H; simpl; try reflexivity.
  - f_equal. apply H. reflexivity.
  - f_equal. apply IH. intros y Hy. apply H. exact Hy.
Qed.

Lemma setDocument_setDocument d d' w : setDocument d (setDocument d' w) = setDocument d w.
Proof. reflexivity. Qed.

Lemma setDocument_id w : setDocument (document w) w = w.
Proof. destruct w; reflexivity. Qed.

(** The button step, on a page whose [j]-th element is the button. *)
Lemma button_step j e w :
  document w !! j = Some e ->
  (classListRemove (Some j) "nonvote" ;;
   classListAdd (Some j) "vote" ;;
   ret tt ;;
   buttonSpan <- querySpan (Some j) ;;
   hit <- (if isSome buttonSpan
           then t <- spanTextContent buttonSpan ;;
                ret (Js.includes "vote" (Js.toLowerCase t))
           else ret false) ;;
   when hit (setSpanTextContent buttonSpan "Voted")) w
  = (Normal tt, setDocument (alter reflectButton j (document w)) w).
Proof.
  intros He.
  unfold classListRemove, classListAdd, querySpan, spanTextContent, setSpanTextContent,
    onElement, when, bind, get, modify, deref, ret, throw.
  cbn [document setDocument fst snd].
  rewrite !alter_alter, list_lookup_alter_eq, He. cbn [fmap option_fmap option_map span isSome].
  destruct (span e) as [t|] eqn:Hs; cbn [isSome].
  - cbn [document setDocument]. rewrite list_lookup_alter_eq, He.
    cbn [fmap option_fmap option_map span]. rewrite Hs.
    destruct (Js.includes "vote" (Js.toLowerCase t)) eqn:Hi.
    + cbn [document setDocument]. rewrite alter_alter, !setDocument_setDocument.
      f_equal. f_equal.
      apply alter_ext_at. intros x Hx. rewrite He in Hx. injection Hx as <-.
      unfold reflectButton, votedClasses, markedSpan. cbn [classList text span].
      rewrite Hs, Hi. reflexivity.
    + rewrite !setDocument_setDocument. f_equal. f_equal.
      apply alter_ext_at. intros x Hx. rewrite He in Hx. injection Hx as <-.
      unfold reflectButton, votedClasses, markedSpan. cbn [classList text span].
      rewrite Hs, Hi. reflexivity.
  - rewrite !setDocument_setDocument. f_equal. f_equal.
    apply alter_ext_at. intros x Hx. rewrite He in Hx. injection Hx as <-.
    unfold reflectButton, votedClasses, markedSpan. cbn [classList text span].
    rewrite Hs. reflexivity.
Qed.

Lemma wrapper_step k w :
  (classListRemove (Some k) "nonvote" ;; classListAdd (Some k) "vote") w
  = (Normal tt, setDocument (alter reflectWrapper k (document w)) w).
Proof.
  unfold classListRemove, classListAdd, onElement, bind, modify, deref, ret.
  cbn [document setDocument fst snd]. rewrite alter_alter. reflexivity.
Qed.

(** Without logging the three steps are exactly [updateDoc]. *)
Lemma updateVoteUI_quiet n w :
  updateVoteUI (fun _ _ => ret tt) n w = (Normal tt, setDocument (updateDoc n (document w)) w).
Proof.
  unfold updateVoteUI, updateDoc, querySelector.
  unfold bind at 1. unfold ret at 1.
  unfold bind at 1. unfold get at 1.
  unfold bind at 1.
  set (d1 := applyAt (findIndex (hasClass "vote-count-number") (document w))
                     (reflectCount n) (document w)).
  assert (H1 : when (isSome (findIndex (hasClass "vote-count-number") (document w)))
                 (setTextContent (findIndex (hasClass "vote-count-number") (document w))
                    (Js.numberToString n) ;; ret tt) w
               = (Normal tt, setDocument d1 w)).
  { unfold d1. destruct (findIndex (hasClass "vote-count-number") (document w)) as [i|].
    - reflexivity.
    - simpl. rewrite setDocument_id. reflexivity. }
  rewrite H1. clear H1.
  unfold bind at 1. unfold get at 1. cbn [document setDocument].
  unfold bind at 1.
  set (d2 := applyAt (findIndex (hasClass "vote-button") d1) reflectButton d1).
  match goal with
  | |- (let (c, w') := when _ ?body ?w0 in _) = _ =>
      assert (H2 : when (isSome (findIndex (hasClass "vote-button") d1)) body w0
                   = (Normal tt, setDocument d2 w))
  end.
  { unfold d2. destruct (findIndex (hasClass "vote-button") d1) as [j|] eqn:E2.
    - destruct (findIndex_lookup _ _ _ E2) as (e & He & _).
      cbn [isSome when]. rewrite (button_step j e) by exact He. reflexivity.
    - reflexivity. }
  rewrite H2. clear H2.
  unfold bind at 1. unfold get at 1. cbn [document setDocument].
  destruct (findIndex (hasClass "voting-wrapper") d2) as [k|].
  - cbn [isSome when]. rewrite wrapper_step. reflexivity.
  - reflexivity.
Qed.

(** *** The class tokens *)

Lemma filter_idem {A} (q : A -> bool) (l : list A) :
  List.filter q (List.filter q l) = List.filter q l.
Proof.
  induction l as [|c l IH]; cbn [List.filter]; [reflexivity|].
  destruct (q c) eqn:Hc; cbn [List.filter]; rewrite ?Hc, IH; reflexivity.
Qed.

Lemma filter_nonvote_idem (cl : list string) :
  List.filter (fun c => negb (String.eqb "nonvote" c))
              (List.filter (fun c => negb (String.eqb "nonvote" c)) cl)
  = List.filter (fun c => negb (String.eqb "nonvote" c)) cl.
Proof. apply filter_idem. Qed.

Lemma existsb_filter_out {A} (p q : A -> bool) (l : list A) :
  (forall c, q c = false -> p c = false) ->
  existsb p (List.filter q l) = existsb p l.
Proof.
  intros H. induction l as [|c l IH]; cbn [List.filter existsb]; [reflexivity|].
  destruct (q c) eqn:Hc; cbn [existsb]; rewrite IH; [reflexivity|].
  rewrite (H c Hc). reflexivity.
Qed.

Lemma existsb_filter_none {A} (p q : A -> bool) (l : list A) :
  (forall c, p c = true -> q c = false) ->
  existsb p (List.filter q l) = false.
Proof.
  intros H. induction l as [|c l IH]; cbn [List.filter existsb]; [reflexivity|].
  destruct (q c) eqn:Hc; cbn [existsb]; [|exact IH].
  destruct (p c) eqn:Hp; [|exact IH]. rewrite (H c Hp) in Hc. discriminate.
Qed.

Lemma votedClasses_idem cl : votedClasses (votedClasses cl) = votedClasses cl.
Proof.
  pose proof (filter_nonvote_idem cl) as Hf.
  unfold votedClasses at 2 3.
  remember (List.filter (fun c => negb (String.eqb "nonvote" c)) cl) as kept.
  destruct (existsb (String.eqb "vote") kept) eqn:Hv; unfold votedClasses.
  - rewrite Hf, Hv. reflexivity.
  - rewrite List.filter_app, Hf.
    change (List.filter (fun c => negb (String.eqb "nonvote" c)) ["vote"]) with ["vote"].
    rewrite existsb_app.
    change (existsb (String.eqb "vote") ["vote"]) with true.
    rewrite orb_true_r. reflexivity.
Qed.

Lemma votedClasses_has_vote cl : existsb (String.eqb "vote") (votedClasses cl) = true.
Proof.
  unfold votedClasses.
  destruct (existsb (String.eqb "vote")
              (List.filter (fun c => negb (String.eqb "nonvote" c)) cl)) eqn:Hv;
    [exact Hv|].
  rewrite existsb_app. apply orb_true_r.
Qed.

Lemma votedClasses_no_nonvote cl : existsb (String.eqb "nonvote") (votedClasses cl) = false.
Proof.
  assert (Hk : existsb (String.eqb "nonvote")
                 (List.filter (fun c => negb (String.eqb "nonvote" c)) cl) = false).
  { apply existsb_filter_none. intros c Hc. rewrite Hc. reflexivity. }
  unfold votedClasses.
  destruct (existsb (String.eqb "vote")
              (List.filter (fun c => negb (String.eqb "nonvote" c)) cl)); [exact Hk|].
  rewrite existsb_app, Hk. reflexivity.
Qed.

(** A token other than the two that are toggled is there after iff before. *)
Lemma votedClasses_other cls cl :
  String.eqb cls "vote" = false -> String.eqb cls "nonvote" = false ->
  existsb (String.eqb cls) (votedClasses cl) = existsb (String.eqb cls) cl.
Proof.
  intros Hv Hn.
  assert (Hk : existsb (String.eqb cls)
                 (List.filter (fun c => negb (String.eqb "nonvote" c)) cl)
               = existsb (String.eqb cls) cl).
  { apply existsb_filter_out. intros c Hc.
    apply negb_false_iff, String.eqb_eq in Hc. subst c. exact Hn. }
  unfold votedClasses.
  destruct (existsb (String.eqb "vote")
              (List.filter (fun c => negb (String.eqb "nonvote" c)) cl)); [exact Hk|].
  rewrite existsb_app, Hk. cbn [existsb]. rewrite Hv. cbn [orb]. apply orb_false_r.
Qed.

Lemma markedSpan_idem sp : markedSpan (markedSpan sp) = markedSpan sp.
Proof.
  destruct sp as [t|]; simpl; [|reflexivity].
  destruct (Js.includes "vote" (Js.toLowerCase t)) eqn:Hi; simpl.
  - reflexivity.
  - rewrite Hi. reflexivity.
Qed.

(** *** The selectors keep resolving to the same elements *)

Definition keepsClass (cls : string) (f : Element -> Element) : Prop :=
  forall e, hasClass cls (f e) = hasClass cls e.

Lemma keepsClass_reflectCount cls n : keepsClass cls (reflectCount n).
Proof. intros e; reflexivity. Qed.

Lemma keepsClass_reflectButton cls :
  String.eqb cls "vote" = false -> String.eqb cls "nonvote" = false ->
  keepsClass cls reflectButton.
Proof. intros Hv Hn e. apply votedClasses_other; assumption. Qed.

Lemma keepsClass_reflectWrapper cls :
  String.eqb cls "vote" = false -> String.eqb cls "nonvote" = false ->
  keepsClass cls reflectWrapper.
Proof. intros Hv Hn e. apply votedClasses_other; assumption. Qed.

Lemma findIndex_alter (p : Element -> bool) (f : Element -> Element) i d :
  (forall e, p (f e) = p e) -> findIndex p (alter f i d) = findIndex p d.
Proof.
  intros Hp. revert i. induction d as [|x d IH]; intros [|i]; try reflexivity.
  - change (alter f 0%nat (x :: d)) with (f x :: d). cbn [findIndex].
    rewrite Hp. reflexivity.
  - change (alter f (S i) (x :: d)) with (x :: alter f i d). cbn [findIndex].
    rewrite IH. reflexivity.
Qed.

Lemma findIndex_applyAt cls o f d :
  keepsClass cls f -> findIndex (hasClass cls) (applyAt o f d) = findIndex (hasClass cls) d.
Proof. intros H. destruct o; [apply findIndex_alter, H | reflexivity]. Qed.

(** The three steps with the selectors resolved once, on the page as found. *)
Definition updateAt (i j k : option nat) (n : Z) (d : list Element) : list Element :=
  applyAt k reflectWrapper (applyAt j reflectButton (applyAt i (reflectCount n) d)).

Lemma updateDoc_updateAt n d :
  updateDoc n d
  = updateAt (findIndex (hasClass "vote-count-number") d)
             (findIndex (hasClass "vote-button") d)
             (findIndex (hasClass "voting-wrapper") d) n d.
Proof.
  unfold updateDoc, updateAt.
  rewrite !findIndex_applyAt;
    auto using keepsClass_reflectCount, keepsClass_reflectButton.
Qed.

Lemma findIndex_updateAt cls i j k n d :
  String.eqb cls "vote" = false -> String.eqb cls "nonvote" = false ->
  findIndex (hasClass cls) (updateAt i j k n d) = findIndex (hasClass cls) d.
Proof.
  intros Hv Hn. unfold updateAt.
  rewrite !findIndex_applyAt;
    auto using keepsClass_reflectCount, keepsClass_reflectButton, keepsClass_reflectWrapper.
Qed.

Lemma lookup_applyAt o f (d : list Element) x :
  applyAt o f d !! x = (if decide (o = Some x) then f else fun e => e) <$> d !! x.
Proof.
  destruct o as [i|]; simpl.
  - destruct (decide (Some i = Some x)) as [Heq|Hne].
    + injection Heq as ->. apply list_lookup_alter_eq.
    + rewrite list_lookup_alter_ne by congruence. destruct (d !! x); reflexivity.
  - destruct (decide (None = Some x)); [discriminate|]. destruct (d !! x); reflexivity.
Qed.

Lemma updateAt_idem i j k n d : updateAt i j k n (updateAt i j k n d) = updateAt i j k n d.
Proof.
  apply list_eq. intros x. unfold updateAt. rewrite !lookup_applyAt.
  destruct (d !! x) as [[cl tx sp]|]; [|reflexivity]. simpl. f_equal.
  destruct (decide (i = Some x)), (decide (j = Some x)), (decide (k = Some x));
    unfold reflectWrapper, reflectButton, reflectCount; simpl;
    rewrite ?votedClasses_idem, ?markedSpan_idem; reflexivity.
Qed.

(** [updateVoteUI(n)] twice leaves the page as [updateVoteUI(n)] once. *)
Lemma updateDoc_idem n d : updateDoc n (updateDoc n d) = updateDoc n d.
Proof.
  rewrite (updateDoc_updateAt n (updateDoc n d)).
  rewrite (updateDoc_updateAt n d).
  rewrite !findIndex_updateAt by reflexivity.
  apply updateAt_idem.
Qed.

(** Nothing to reflect into: the page is left as it is. *)
Lemma updateDoc_absent n d :
  findIndex (hasClass "vote-count-number") d = None ->
  findIndex (hasClass "vote-button") d = None ->
  findIndex (hasClass "voting-wrapper") d = None ->
  updateDoc n d = d.
Proof. intros H1 H2 H3. unfold updateDoc. rewrite H1. simpl. rewrite H2. simpl. rewrite H3. reflexivity. Qed.

(** *** With logging *)

Section TwoLogs.
  Variables log1 log2 : string -> list Z -> Eff unit.
  Hypothesis log1_silent : forall msg args, silent (log1 msg args).
  Hypothesis log2_silent : forall msg args, silent (log2 msg args).

Lemma sim_onElement el f : sim (onElement el f) (onElement el f).
  Proof. unfold onElement. repeat sim_step. Qed.

  (** Two drafts of [updateVoteUI] that differ in their [log] do the same to
      the page. *)
Lemma sim_updateVoteUI_logs n : sim (updateVoteUI log1 n) (updateVoteUI log2 n).
  Proof.
    unfold updateVoteUI, querySelector, setTextContent, classListRemove, classListAdd,
      querySpan, spanTextContent, setSpanTextContent.
    repeat first [ apply silent_sim; [apply log1_silent | apply log2_silent]
                 | apply sim_onElement | sim_step ].
  Qed.
End TwoLogs.

Section Logged.
  Variable log : string -> list Z -> Eff unit.
  Hypothesis log_silent : forall msg args, silent (log msg args).

Lemma sim_updateVoteUI n :
    sim (updateVoteUI log n) (updateVoteUI (fun _ _ => ret tt) n).
  Proof.
    apply sim_updateVoteUI_logs; [exact log_silent | intros; apply silent_ret].
  Qed.

  (** [updateVoteUI] completes normally on every page, and changes the page
      by [updateDoc] and, through [log], the console; nothing else. *)
Lemma updateVoteUI_run n w :
    fst (updateVoteUI log n w) = Normal tt
    /\ sameButConsole (snd (updateVoteUI log n w))
                      (setDocument (updateDoc n (document w)) w).
  Proof.
    destruct (sim_updateVoteUI n w w (sameButConsole_refl w)) as [Hr Hw].
    rewrite updateVoteUI_quiet in Hr, Hw. split; assumption.
  Qed.

Lemma updateVoteUI_document n w :
    document (snd (updateVoteUI log n w)) = updateDoc n (document w).
  Proof.
    destruct (updateVoteUI_run n w) as [_ H].
    apply (f_equal document) in H. exact H.
  Qed.
End Logged.

End UpdateVoteUIFacts.

(** ** What one call of [castVote] does, step by step *)

Lemma setConsole_id w : setConsole (console w) w = w.
Proof. destruct w; reflexivity. Qed.

Module Part002Run.
Import Part002 Part002Facts.

Section Run.
  Variable settings : Settings.
  Variable site : option Site.

  (** The console lines a [log] call adds. *)
Definition said (msg : string) (args : list Z) : list Diag :=
    if auto_vote_debug_mode settings then [ConsoleLog msg args] else [].

Lemma log_run_002 msg args w :
    log settings msg args w = (Normal tt, setConsole (console w ++ said msg args) w).
  Proof.
    unfold log, said, when, consoleLog, modify, ret.
    destruct (auto_vote_debug_mode settings); [reflexivity|].
    rewrite app_nil_r, setConsole_id. reflexivity.
  Qed.

Lemma castVoteSync_disabled_002 t src w :
    auto_vote_enabled settings = false ->
    castVoteSync settings t src w
    = (Normal (Some false), setConsole (console w ++ said "Auto-vote is disabled" []) w).
  Proof.
    intros He. unfold castVoteSync. rewrite He. simpl.
    unfold bind. rewrite log_run_002. reflexivity.
  Qed.

Lemma castVoteSync_duplicate_002 t src w :
    auto_vote_enabled settings = true ->
    t ∈ autoVotedTopics w ->
    castVoteSync settings t src w
    = (Normal (Some false),
       setConsole (console w ++ said "Already attempted auto-vote for topic:" [t]) w).
  Proof.
    intros He Hin. unfold castVoteSync. rewrite He. simpl.
    unfold bind at 1. simpl. rewrite bool_decide_eq_true_2 by exact Hin.
    unfold bind. rewrite log_run_002. reflexivity.
  Qed.

Lemma castVoteSync_fresh_002 t src w :
    auto_vote_enabled settings = true ->
    t ∉ autoVotedTopics w ->
    castVoteSync settings t src w
    = (Normal None,
       setPending (pending w ++ [CastVoteAwait t src])
         (setPosts (posts w ++ [t])
            (setConsole (console w ++ said "Casting vote for topic (source)" [t])
               (setAutoVoted ({[t]} ∪ autoVotedTopics w) w)))).
  Proof.
    intros He Hin. unfold castVoteSync. rewrite He. simpl.
    unfold bind at 1. simpl. rewrite bool_decide_eq_false_2 by exact Hin.
    unfold bind, modify. simpl. rewrite log_run_002. reflexivity.
  Qed.

  (** A rejected request: the [catch] block, and nothing but console output. *)
Lemma castVoteResume_rejected_002 t src e w :
    castVoteResume settings t src (inl e) w
    = (Normal false,
       setConsole
         (console w ++
            (if is422 (Rejected e)
             then said "Could not vote (already voted or voting not enabled):" [t]
             else said "Error casting vote:" (statusArgs (Rejected e)))) w).
  Proof.
    unfold castVoteResume, tryCatch, bind, await, throw. simpl.
    destruct (is422 (Rejected e)); rewrite log_run_002; reflexivity.
  Qed.

Lemma step_settle_rejected_002 w k t src e :
    pending w !! k = Some (CastVoteAwait t src) ->
    step settings site w (AjaxSettle k (inl e))
    = setSettled (settled w ++ [(t, false)])
        (setConsole
           (console w ++
              (if is422 (Rejected e)
               then said "Could not vote (already voted or voting not enabled):" [t]
               else said "Error casting vote:" (statusArgs (Rejected e))))
           (setPending (delete k (pending w)) w)).
  Proof.
    intros Hp. simpl. unfold fire. rewrite Hp. simpl.
    unfold runHandler, resumeAsync. rewrite castVoteResume_rejected_002. reflexivity.
  Qed.

  (** Whoever waits or is registered got there past the enabled check. *)
Definition EnabledIfActive (w : World) : Prop :=
    (pending w <> [] \/ autoVotedTopics w <> ∅) -> auto_vote_enabled settings = true.

Lemma EnabledIfActive_run u h evs :
    EnabledIfActive (run settings site (freshWorld u h) evs).
  Proof.
    unfold EnabledIfActive.
    destruct (auto_vote_enabled settings) eqn:He.
    - intros _. reflexivity.
    - assert (H : pending (run settings site (freshWorld u h) evs) = []
                  /\ autoVotedTopics (run settings site (freshWorld u h) evs) = ∅).
      { apply (invariant_run_002 settings site
                 (fun w => pending w = [] /\ autoVotedTopics w = ∅)).
        - unfold registryView. intros w w' Hv [H1 H2].
          injection Hv as Ha _ _ Hp _. rewrite <- Ha, <- Hp. auto.
        - intros l w H; exact H.
        - intros k l w [H1 H2]. simpl in *. subst l. split; [|exact H2].
          destruct k; reflexivity.
        - intros t src w [H1 H2]. rewrite castVoteSync_disabled_002 by exact He.
          simpl. auto.
        - split; reflexivity. }
      intros [Hp|Ha]; [destruct Hp | destruct Ha]; apply H.
  Qed.

End Run.
End Part002Run.

Module Part002Session.
Import Part002 Part002Facts Part002Run.

Section Session.
  Variable settings : Settings.
  Variable site : option Site.

Lemma Attempted_castVoteSync t' t src :
    preserves (Attempted t') (castVoteSync settings t src).
  Proof.
    unfold castVoteSync. apply preserves_if.
    - apply (keeps_preserves _ registryView); [apply Attempted_view|].
      keeps_step; [apply keeps_log_002; reflexivity | keeps_step].
    - apply Attempted_reserve; apply keeps_log_002; reflexivity.
  Qed.

Lemma Attempted_run t evs w : Attempted t w -> Attempted t (run settings site w evs).
  Proof.
    apply invariant_run_002.
    - apply Attempted_view.
    - apply Attempted_timers.
    - apply Attempted_dropPending.
    - apply Attempted_castVoteSync.
  Qed.

Lemma run_app w evs1 evs2 :
    run settings site w (evs1 ++ evs2) = run settings site (run settings site w evs1) evs2.
  Proof. unfold run. apply fold_left_app. Qed.

Lemma run_snoc w evs ev :
    run settings site w (evs ++ [ev]) = step settings site (run settings site w evs) ev.
  Proof. rewrite run_app. reflexivity. Qed.

End Session.
End Part002Session.

Module AutoVoteOwnTopicRun.
Import AutoVoteOwnTopic AutoVoteOwnTopicFacts.

Section Run.
  Variable settings : Settings.

  (** [DEBUG] is [true]: every [log] call prints. *)
Lemma log_run_main msg args w :
    log settings msg args w = (Normal tt, setConsole (console w ++ [ConsoleLog msg args]) w).
  Proof. reflexivity. Qed.

Lemma castVoteSync_duplicate_main t src w :
    t ∈ autoVotedTopics w ->
    castVoteSync settings t src w
    = (Normal (Some false),
       setConsole (console w ++ [ConsoleLog "castVote called from (source) for topic:" [t];
                                 ConsoleLog "Already attempted auto-vote for topic:" [t]]) w).
  Proof.
    intros Hin. unfold castVoteSync. unfold bind at 1. rewrite log_run_main.
    unfold bind at 1. simpl. rewrite bool_decide_eq_true_2 by exact Hin.
    unfold bind. rewrite log_run_main. simpl. rewrite <- app_assoc. reflexivity.
  Qed.

Lemma castVoteSync_fresh_main t src w :
    t ∉ autoVotedTopics w ->
    castVoteSync settings t src w
    = (Normal None,
       setPending (pending w ++ [CastVoteAwait t src])
         (setPosts (posts w ++ [t])
            (setConsole
               (console w ++ [ConsoleLog "castVote called from (source) for topic:" [t];
                              ConsoleLog "Making API call to /voting/vote with topic_id:" [t]])
               (setAutoVoted ({[t]} ∪ autoVotedTopics w) w)))).
  Proof.
    intros Hin. unfold castVoteSync. unfold bind at 1. rewrite log_run_main.
    unfold bind at 1. simpl. rewrite bool_decide_eq_false_2 by exact Hin.
    unfold bind, modify. simpl. rewrite <- app_assoc. reflexivity.
  Qed.

Lemma castVoteResume_rejected_main t src e w :
    castVoteResume settings t src (inl e) w
    = (Normal false,
       setConsole
         (console w ++
            [ConsoleLog "Vote API error:" (statusArgs (Rejected e));
             if is422 (Rejected e)
             then ConsoleLog "Could not vote (may already be voted or not allowed)" []
             else ConsoleError "[Auto Vote Own Topic] Error casting vote:"
                               (statusArgs (Rejected e))]) w).
  Proof.
    unfold castVoteResume, tryCatch, bind, await, throw. simpl.
    destruct (is422 (Rejected e)); simpl; rewrite <- app_assoc; reflexivity.
  Qed.

Lemma step_settle_rejected_main w k t src e :
    pending w !! k = Some (CastVoteAwait t src) ->
    step settings w (AjaxSettle k (inl e))
    = setSettled (settled w ++ [(t, false)])
        (setConsole
           (console w ++
              [ConsoleLog "Vote API error:" (statusArgs (Rejected e));
               if is422 (Rejected e)
               then ConsoleLog "Could not vote (may already be voted or not allowed)" []
               else ConsoleError "[Auto Vote Own Topic] Error casting vote:"
                                 (statusArgs (Rejected e))])
           (setPending (delete k (pending w)) w)).
  Proof.
    intros Hp. simpl. unfold fire. rewrite Hp. simpl.
    unfold runHandler, resumeAsync. rewrite castVoteResume_rejected_main. reflexivity.
  Qed.

End Run.
End AutoVoteOwnTopicRun.

(** ** The debug flag *)

(** Two settings that differ, if at all, in [auto_vote_debug_mode]. *)
Definition sameButDebug (s1 s2 : Settings) : Prop :=
  auto_vote_enabled s1 = auto_vote_enabled s2
  /\ auto_vote_categories s1 = auto_vote_categories s2
  /\ auto_vote_on_visit s1 = auto_vote_on_visit s2.

Module PolicyFacts.
Section TwoSettings.
  Variables s1 s2 : Settings.
  Hypothesis Hcat : auto_vote_categories s1 = auto_vote_categories s2.
  Variable site : option Site.

Lemma noCategories_eq : Policy.noCategories s1 = Policy.noCategories s2.
  Proof. unfold Policy.noCategories. rewrite Hcat. reflexivity. Qed.

Lemma categorySettings_eq : Policy.categorySettings s1 = Policy.categorySettings s2.
  Proof. unfold Policy.categorySettings. rewrite Hcat. reflexivity. Qed.

Lemma allowedIds_eq : Policy.allowedIds s1 = Policy.allowedIds s2.
  Proof. unfold Policy.allowedIds. rewrite Hcat. reflexivity. Qed.

Lemma matchByIdOrSlug_eq c :
    Policy.matchByIdOrSlug s1 site c = Policy.matchByIdOrSlug s2 site c.
  Proof.
    unfold Policy.matchByIdOrSlug, Policy.categoryMatches, Policy.lowerSettings,
      Policy.numericIds.
    rewrite categorySettings_eq. reflexivity.
  Qed.
End TwoSettings.
End PolicyFacts.

Module Part002Debug.
Import Part002.

Lemma silent_log s msg args : silent (log s msg args).
Proof. apply silent_when, silent_consoleLog. Qed.

Section TwoSettings.
  Variables s1 s2 : Settings.
  Hypothesis Hsame : sameButDebug s1 s2.
  Variable site : option Site.

Ltac logs := apply silent_sim; apply silent_log.

Lemma sim_log msg1 args1 msg2 args2 : sim (log s1 msg1 args1) (log s2 msg2 args2).
  Proof. logs. Qed.

Lemma sim_updateVoteUI_002 n : sim (updateVoteUI s1 n) (updateVoteUI s2 n).
  Proof. apply UpdateVoteUIFacts.sim_updateVoteUI_logs; intros; apply silent_log. Qed.

Lemma sim_isCategoryAllowed c : sim (isCategoryAllowed s1 site c) (isCategoryAllowed s2 site c).
  Proof.
    destruct Hsame as (He & Hc & Hv). unfold isCategoryAllowed.
    rewrite (PolicyFacts.noCategories_eq s1 s2 Hc),
            (PolicyFacts.categorySettings_eq s1 s2 Hc),
            (PolicyFacts.matchByIdOrSlug_eq s1 s2 Hc).
    repeat first [logs | sim_step].
  Qed.

Lemma sim_castVoteSync t src : sim (castVoteSync s1 t src) (castVoteSync s2 t src).
  Proof.
    destruct Hsame as (He & Hc & Hv). unfold castVoteSync, ajaxVote. rewrite He.
    repeat first [logs | sim_step].
  Qed.

Lemma sim_reflectSuccess t r : sim (reflectSuccess s1 t r) (reflectSuccess s2 t r).
  Proof.
    unfold reflectSuccess, markVoted, updateCurrentUser.
    repeat first [logs | apply sim_updateVoteUI_002 | sim_step].
  Qed.

Lemma sim_castVoteResume t src r : sim (castVoteResume s1 t src r) (castVoteResume s2 t src r).
  Proof.
    unfold castVoteResume.
    repeat first [logs | apply sim_updateVoteUI_002 | apply sim_reflectSuccess | sim_step].
  Qed.

Lemma sim_visitCheck : sim (visitCheck s1 site) (visitCheck s2 site).
  Proof.
    unfold visitCheck, ownUnvotedAllowed, castVote.
    repeat first [logs | apply sim_isCategoryAllowed | apply sim_castVoteSync | sim_step].
  Qed.

Lemma sim_step_event w1 w2 ev :
    sameButConsole w1 w2 -> sameButConsole (step s1 site w1 ev) (step s2 site w2 ev).
  Proof.
    intros H. destruct ev; simpl; try exact H.
    - apply sim_runHandler; [|exact H]. unfold onPageChange, setTimeout.
      repeat sim_step.
    - apply sim_fireTimer; [|exact H]. intros [| |t]; simpl;
        first [apply sim_visitCheck | apply sim_ret].
    - apply sim_firePending; [|exact H]. intros [t src|t|]; simpl; try apply sim_ret.
      apply sim_resumeAsync, sim_castVoteResume.
    - apply sim_hostChange, H.
  Qed.

Lemma sim_run evs w1 w2 :
    sameButConsole w1 w2 -> sameButConsole (run s1 site w1 evs) (run s2 site w2 evs).
  Proof.
    unfold run. revert w1 w2. induction evs as [|ev evs IH]; intros w1 w2 H; simpl; [exact H|].
    apply IH, sim_step_event, H.
  Qed.
End TwoSettings.
End Part002Debug.

Module AutoVoteOwnTopicDebug.
Import AutoVoteOwnTopic.

(** With [DEBUG] forced on, the flag is not even read: the runs are equal,
    console included. *)
Lemma step_debug_irrelevant s1 s2 w ev :
  sameButDebug s1 s2 -> step s1 w ev = step s2 w ev.
Proof.
  destruct s1 as [e1 c1 d1 v1], s2 as [e2 c2 d2 v2].
  unfold sameButDebug. simpl. intros (-> & -> & ->). reflexivity.
Qed.

Lemma run_debug_irrelevant s1 s2 evs w :
  sameButDebug s1 s2 -> run s1 w evs = run s2 w evs.
Proof.
  intros H. unfold run. revert w. induction evs as [|ev evs IH]; intros w; simpl; [reflexivity|].
  rewrite (step_debug_irrelevant s1 s2 w ev H). apply IH.
Qed.
Lemma session_debug_irrelevant s1 s2 h evs :
  sameButDebug s1 s2 -> session s1 h evs = session s2 h evs.
Proof.
  intros H. unfold session.
  assert (Hinit : apiInitializer s1 h = apiInitializer s2 h) by reflexivity.
  rewrite Hinit. generalize (apiInitializer s2 h). intros r.
  revert r. induction evs as [|ev evs IH]; intros r; simpl; [reflexivity|].
  rewrite <- IH. f_equal. destruct r; simpl; [reflexivity|].
  rewrite (step_debug_irrelevant s1 s2 w ev H). reflexivity.
Qed.
End AutoVoteOwnTopicDebug.

(** Whole sessions, initializer included. *)
Definition sameRuntimeButConsole (r1 r2 : Runtime) : Prop :=
  match r1, r2 with
  | Inactive h1, Inactive h2 => h1 = h2
  | Active w1, Active w2 => sameButConsole w1 w2
  | _, _ => False
  end.

Lemma deliver_active (step : World -> Event -> World) evs w :
  fold_left (deliver step) evs (Active w) = Active (fold_left step evs w).
Proof.
  revert w. induction evs as [|ev evs IH]; intros w; simpl; [reflexivity|]. apply IH.
Qed.

Lemma deliver_inactive_any (step : World -> Event -> World) evs h :
  fold_left (deliver step) evs (Inactive h) = Inactive (fold_left hostOnly evs h).
Proof.
  revert h. induction evs as [|ev evs IH]; intros h; simpl; [reflexivity|]. apply IH.
Qed.

Lemma session_debug_002 s1 s2 site h evs :
  sameButDebug s1 s2 ->
  sameRuntimeButConsole (Part002.session s1 site h evs) (Part002.session s2 site h evs).
Proof.
  intros Hsame. unfold Part002.session, Part002.apiInitializer.
  destruct (loggedIn h) as [u|].
  - rewrite !deliver_active. simpl.
    apply (Part002Debug.sim_run s1 s2 Hsame site).
    apply (Part002Debug.sim_log s1 s2). apply sameButConsole_refl.
  - rewrite !deliver_inactive_any. reflexivity.
Qed.

(** ** The checks in front of a vote *)

Module Part002Checks.
Import Part002 Part002Run.

Section Checks.
  Variable settings : Settings.
  Variable site : option Site.

  (** What [isCategoryAllowed] returns; its two allow-all exits log a line. *)
Definition categoryAllowed (c : Z) : bool :=
    if Policy.noCategories settings then true
    else if (length (Policy.categorySettings settings) =? 0)%nat then true
    else Policy.matchByIdOrSlug settings site c.

Definition categoryLog : list Diag :=
    if Policy.noCategories settings
    then said settings "No category restriction configured, allowing all categories" []
    else if (length (Policy.categorySettings settings) =? 0)%nat
    then said settings "Empty category list after parsing, allowing all categories" []
    else [].

Lemma isCategoryAllowed_run_002 c w :
    isCategoryAllowed settings site c w
    = (Normal (categoryAllowed c), setConsole (console w ++ categoryLog) w).
  Proof.
    unfold isCategoryAllowed, categoryAllowed, categoryLog.
    destruct (Policy.noCategories settings).
    - unfold bind. rewrite log_run_002. reflexivity.
    - destruct (length (Policy.categorySettings settings) =? 0)%nat.
      + unfold bind. rewrite log_run_002. reflexivity.
      + unfold ret. rewrite app_nil_r, setConsole_id. reflexivity.
  Qed.

  (** The three field tests of the navigation callback. *)
Definition ownUnvoted (me : Z) (topic : Topic) : bool :=
    (user_id topic =? me) && can_vote topic && negb (user_voted topic).

Lemma ownUnvotedAllowed_run topic w :
    ownUnvotedAllowed settings site topic w
    = (Normal (ownUnvoted (uid (currentUser w)) topic && categoryAllowed (category_id topic)),
       setConsole (console w ++
         (if ownUnvoted (uid (currentUser w)) topic then categoryLog else [])) w).
  Proof.
    unfold ownUnvotedAllowed, ownUnvoted. unfold bind, get. simpl.
    destruct ((user_id topic =? uid (currentUser w)) && can_vote topic && negb (user_voted topic)).
    - simpl. apply isCategoryAllowed_run_002.
    - simpl. unfold ret. rewrite app_nil_r, setConsole_id. reflexivity.
  Qed.

Lemma visitCheck_no_topic w : topicModel w = None -> visitCheck settings site w = (Normal tt, w).
  Proof. intros H. unfold visitCheck, bind, get. simpl. rewrite H. reflexivity. Qed.

Lemma visitCheck_skips topic w :
    topicModel w = Some topic ->
    ownUnvoted (uid (currentUser w)) topic && categoryAllowed (category_id topic) = false ->
    visitCheck settings site w
    = (Normal tt,
       setConsole (console w ++
         (if ownUnvoted (uid (currentUser w)) topic then categoryLog else [])) w).
  Proof.
    intros Ht Hg. unfold visitCheck. unfold bind at 1. unfold get. simpl. rewrite Ht.
    unfold bind. rewrite ownUnvotedAllowed_run, Hg. reflexivity.
  Qed.

  (** All checks passed: the callback is one call of [castVote], after the
      lines it logs on the way. *)
Lemma visitCheck_calls_castVote topic w :
    topicModel w = Some topic ->
    ownUnvoted (uid (currentUser w)) topic && categoryAllowed (category_id topic) = true ->
    visitCheck settings site w
    = castVote settings (topic_id topic) "onPageChange"
        (setConsole (console w ++ categoryLog ++
           said settings "Found unvoted own topic on page load:" [topic_id topic]) w).
  Proof.
    intros Ht Hg. unfold visitCheck. unfold bind at 1. unfold get. simpl. rewrite Ht.
    unfold bind at 1. rewrite ownUnvotedAllowed_run, Hg.
    apply andb_true_iff in Hg. destruct Hg as [Ho _]. rewrite Ho.
    simpl. unfold bind. rewrite log_run_002. simpl. rewrite <- app_assoc. reflexivity.
  Qed.

Lemma castVote_fresh t src w :
    auto_vote_enabled settings = true -> t ∉ autoVotedTopics w ->
    castVote settings t src w
    = (Normal tt,
       setPending (pending w ++ [CastVoteAwait t src])
         (setPosts (posts w ++ [t])
            (setConsole (console w ++ said settings "Casting vote for topic (source)" [t])
               (setAutoVoted ({[t]} ∪ autoVotedTopics w) w)))).
  Proof.
    intros He Hn. unfold castVote, callAsync. rewrite castVoteSync_fresh_002 by assumption.
    reflexivity.
  Qed.

Lemma castVote_disabled t src w :
    auto_vote_enabled settings = false ->
    castVote settings t src w
    = (Normal tt,
       setSettled (settled w ++ [(t, false)])
         (setConsole (console w ++ said settings "Auto-vote is disabled" []) w)).
  Proof.
    intros He. unfold castVote, callAsync. rewrite castVoteSync_disabled_002 by assumption.
    reflexivity.
  Qed.

Lemma castVote_duplicate t src w :
    auto_vote_enabled settings = true -> t ∈ autoVotedTopics w ->
    castVote settings t src w
    = (Normal tt,
       setSettled (settled w ++ [(t, false)])
         (setConsole (console w ++
            said settings "Already attempted auto-vote for topic:" [t]) w)).
  Proof.
    intros He Hn. unfold castVote, callAsync. rewrite castVoteSync_duplicate_002 by assumption.
    reflexivity.
  Qed.

End Checks.
End Part002Checks.

Module AutoVoteOwnTopicChecks.
Import AutoVoteOwnTopic AutoVoteOwnTopicRun.

Section Checks.
  Variable settings : Settings.

Definition categoryAllowed (c : Z) : bool :=
    if Policy.noCategories settings then true
    else if (length (Policy.allowedIds settings) =? 0)%nat then true
    else Js.numbersInclude (Policy.allowedIds settings) c.

Definition categoryLog (c : Z) : Diag :=
    if Policy.noCategories settings
    then ConsoleLog "No category restrictions - allowing all" []
    else if (length (Policy.allowedIds settings) =? 0)%nat
    then ConsoleLog "No valid category IDs parsed - allowing all" []
    else ConsoleLog "Category check:" [c].

Lemma isCategoryAllowed_run_main c w :
    isCategoryAllowed settings c w
    = (Normal (categoryAllowed c), setConsole (console w ++ [categoryLog c]) w).
  Proof.
    unfold isCategoryAllowed, categoryAllowed, categoryLog.
    destruct (Policy.noCategories settings); [reflexivity|].
    destruct (length (Policy.allowedIds settings) =? 0)%nat; reflexivity.
  Qed.

  (** The tests of [checkAndVote] behind its registry check. *)
Definition passes (me : Z) (topic : Topic) : bool :=
    auto_vote_enabled settings
    && (user_id topic =? me) && can_vote topic && negb (user_voted topic)
    && categoryAllowed (category_id topic).

Lemma checkAndVote_effect topic src w :
    topic_id topic ∉ autoVotedTopics w ->
    let w' := runHandler (checkAndVote settings (Some topic) src) w in
    registryView w'
    = (if passes (uid (currentUser w)) topic
       then ({[topic_id topic]} ∪ autoVotedTopics w, preVotedTopics w, timers w,
             pending w ++ [CastVoteAwait (topic_id topic) src],
             posts w ++ [topic_id topic])
       else registryView w)
    /\ uncaught w' = uncaught w
    /\ settled w' = settled w.
  Proof.
    intros Hn. unfold passes, runHandler, checkAndVote.
    destruct (auto_vote_enabled settings) eqn:H1;
    destruct (user_id topic =? uid (currentUser w)) eqn:H2;
    destruct (can_vote topic) eqn:H3;
    destruct (user_voted topic) eqn:H4;
    destruct (categoryAllowed (category_id topic)) eqn:H5;
    cbn [negb andb];
    repeat first
      [ rewrite log_run_main
      | rewrite isCategoryAllowed_run_main
      | rewrite castVoteSync_fresh_main by exact Hn
      | rewrite bool_decide_eq_false_2 by exact Hn
      | rewrite H2 | rewrite H5
      | progress cbn [get autoVotedTopics currentUser setConsole negb andb fst snd]
      | progress unfold castVote, callAsync
      | unfold bind at 1 ];
    repeat split.
  Qed.

End Checks.
End AutoVoteOwnTopicChecks.

Lemma app_singleton_neq {A} (l : list A) (x : A) : l ++ [x] <> l.
Proof.
  intros H. apply (f_equal (@length A)) in H. rewrite length_app in H. simpl in H. lia.
Qed.

(** ** The category policy, declaratively *)

Definition equalsIgnoringCase (a b : string) : Prop := Js.toLowerCase a = Js.toLowerCase b.

(** The claim's words: a category record "whose slug, name, or
    parentSlug/slug compound path case-insensitively equals some policy
    string". *)
Definition matchesSomePolicyString (policy : list string) (cat : Category) : Prop :=
  exists p, In p policy /\
    ((exists s, slug cat = Some s /\ equalsIgnoringCase s p)
     \/ (exists n, name cat = Some n /\ equalsIgnoringCase n p)
     \/ (exists s par, slug cat = Some s /\ parentCategory cat = Some par
                       /\ equalsIgnoringCase (parent_slug par ++ "/" ++ s) p)).

(** The same, with the compound path read off only a slug that is not empty,
    as [if (category.slug)] has it. *)
Definition matchesPolicyString (policy : list string) (cat : Category) : Prop :=
  exists p, In p policy /\
    ((exists s, slug cat = Some s /\ equalsIgnoringCase s p)
     \/ (exists n, name cat = Some n /\ equalsIgnoringCase n p)
     \/ (exists s par, slug cat = Some s /\ s <> "" /\ parentCategory cat = Some par
                       /\ equalsIgnoringCase (parent_slug par ++ "/" ++ s) p)).

Module PolicyMatch.
Section Match.
  Variable settings : Settings.
  Variable site : option Site.

Lemma arrayIncludes_lower (policy : list string) (x : string) :
    Js.arrayIncludes (map Js.toLowerCase policy) (Some (Js.toLowerCase x)) = true
    <-> exists p, In p policy /\ equalsIgnoringCase x p.
  Proof.
    unfold Js.arrayIncludes, equalsIgnoringCase. rewrite existsb_exists. split.
    - intros (y & Hy & He). apply in_map_iff in Hy. destruct Hy as (p & <- & Hp).
      apply String.eqb_eq in He. eauto.
    - intros (p & Hp & He). exists (Js.toLowerCase p). split.
      + apply in_map. exact Hp.
      + apply String.eqb_eq. exact He.
  Qed.

Lemma truthy_nonempty s : Js.truthy s = true <-> s <> "".
  Proof. destruct s; simpl; split; congruence. Qed.

Lemma categoryMatches_iff cat :
    Policy.categoryMatches settings cat = true
    <-> matchesPolicyString (Policy.categorySettings settings) cat.
  Proof.
    unfold Policy.categoryMatches, Policy.lowerSettings, matchesPolicyString.
    set (policy := Policy.categorySettings settings).
    destruct cat as [cid sl nm par]. cbn [slug name parentCategory].
    assert (Hslug : Js.arrayIncludes (map Js.toLowerCase policy) (option_map Js.toLowerCase sl) = true
                    <-> exists p, In p policy /\ exists s, sl = Some s /\ equalsIgnoringCase s p).
    { destruct sl as [s|]; cbn [option_map].
      - rewrite arrayIncludes_lower. split.
        + intros (p & Hp & He). eauto.
        + intros (p & Hp & s' & [= <-] & He). eauto.
      - split; [discriminate | intros (p & _ & s' & [=] & _)]. }
    assert (Hname : Js.arrayIncludes (map Js.toLowerCase policy) (option_map Js.toLowerCase nm) = true
                    <-> exists p, In p policy /\ exists n, nm = Some n /\ equalsIgnoringCase n p).
    { destruct nm as [n|]; cbn [option_map].
      - rewrite arrayIncludes_lower. split.
        + intros (p & Hp & He). eauto.
        + intros (p & Hp & n' & [= <-] & He). eauto.
      - split; [discriminate | intros (p & _ & n' & [=] & _)]. }
    destruct (Js.arrayIncludes (map Js.toLowerCase policy) (option_map Js.toLowerCase sl)) eqn:E1.
    { cbn [orb]. split; [intros _ | reflexivity].
      destruct Hslug as [Hslug _]. destruct (Hslug eq_refl) as (p & Hp & H). eauto. }
    destruct (Js.arrayIncludes (map Js.toLowerCase policy) (option_map Js.toLowerCase nm)) eqn:E2.
    { cbn [orb]. split; [intros _ | reflexivity].
      destruct Hname as [Hname _]. destruct (Hname eq_refl) as (p & Hp & H). eauto. }
    cbn [orb].
    assert (Hno1 : ~ exists p, In p policy /\ exists s, sl = Some s /\ equalsIgnoringCase s p)
      by (intros H; apply Hslug in H; discriminate).
    assert (Hno2 : ~ exists p, In p policy /\ exists n, nm = Some n /\ equalsIgnoringCase n p)
      by (intros H; apply Hname in H; discriminate).
    destruct sl as [s|].
    - destruct (Js.truthy s) eqn:Ht.
      + apply truthy_nonempty in Ht. destruct par as [q|].
        * rewrite arrayIncludes_lower. split.
          -- intros (p & Hp & He). exists p. split; [exact Hp|].
             right; right. exists s, q. auto.
          -- intros (p & Hp & [H|[H|(s' & q' & [= <-] & _ & [= <-] & He)]]).
             ++ exfalso. apply Hno1. eauto.
             ++ exfalso. apply Hno2. eauto.
             ++ eauto.
        * split.
          -- intros H. cbn [option_map] in E1. rewrite H in E1. discriminate.
          -- intros (p & Hp & [H|[H|(s' & q' & _ & _ & [=] & _)]]).
             ++ exfalso. apply Hno1. eauto.
             ++ exfalso. apply Hno2. eauto.
      + split; [discriminate|].
        intros (p & Hp & [H|[H|(s' & q' & [= <-] & Hne & _)]]).
        * exfalso. apply Hno1. eauto.
        * exfalso. apply Hno2. eauto.
        * destruct s; [congruence | discriminate].
    - split; [discriminate|].
      intros (p & Hp & [H|[H|(s' & q' & [=] & _)]]).
      + exfalso. apply Hno1. eauto.
      + exfalso. apply Hno2. eauto.
  Qed.

  (** A policy with at least one token is a setting that is neither absent
      nor empty. *)
Lemma categorySettings_nonempty :
    Policy.categorySettings settings <> [] ->
    Policy.noCategories settings = false
    /\ (length (Policy.categorySettings settings) =? 0)%nat = false.
  Proof.
    intros H. split.
    - unfold Policy.categorySettings, Policy.noCategories in *.
      destruct (auto_vote_categories settings) as [raw|]; [|congruence].
      destruct raw; [exfalso; apply H; reflexivity | reflexivity].
    - destruct (Policy.categorySettings settings); [congruence | reflexivity].
  Qed.

Lemma matchByIdOrSlug_iff c :
    Js.numbersInclude (Policy.numericIds settings) c = false ->
    (Policy.matchByIdOrSlug settings site c = true
     <-> exists cat, Policy.findCategory site c = Some cat
                     /\ matchesPolicyString (Policy.categorySettings settings) cat).
  Proof.
    intros Hnum. unfold Policy.matchByIdOrSlug. rewrite Hnum, andb_false_r.
    destruct (Policy.findCategory site c) as [cat|].
    - rewrite categoryMatches_iff. split; [eauto | intros (cat' & [= <-] & H); exact H].
    - split; [discriminate | intros (cat' & [=] & _)].
  Qed.
End Match.
End PolicyMatch.

(** The two ways of parsing the numeric ids agree: an entry that is empty
    once trimmed is dropped by [filter(Boolean)] in one and, being [NaN], by
    [filter((id) => !isNaN(id))] in the other. *)
Lemma allowedIds_numericIds settings : Policy.allowedIds settings = Policy.numericIds settings.
Proof.
  unfold Policy.allowedIds, Policy.numericIds, Policy.categorySettings.
  destruct (auto_vote_categories settings) as [raw|]; [|reflexivity].
  induction (Js.split "|" raw) as [|x l IH]; [reflexivity|].
  cbn [map List.filter]. destruct (Js.trim x) as [|a s] eqn:E; cbn [Js.truthy].
  - exact IH.
  - cbn [map]. destruct (Js.parseInt (String a s)); cbn [Js.keepNumbers]; [f_equal|]; exact IH.
Qed.

(** [isCategoryAllowed] of [Part000] and of the api-initializer under a
    policy that is not empty: the numeric ids decide alone. *)
Lemma numericOnly_allowed settings c :
  Policy.noCategories settings = false ->
  AutoVoteOwnTopicChecks.categoryAllowed settings c
  = match Policy.numericIds settings with
    | [] => true
    | _ :: _ => Js.numbersInclude (Policy.numericIds settings) c
    end
  /\ Part000.isCategoryAllowed settings c = AutoVoteOwnTopicChecks.categoryAllowed settings c.
Proof.
  intros Hno. unfold AutoVoteOwnTopicChecks.categoryAllowed, Part000.isCategoryAllowed.
  rewrite Hno, allowedIds_numericIds.
  destruct (Policy.numericIds settings); split; reflexivity.
Qed.

(** ** The topic pattern, declaratively *)

Fixpoint slashFree (s : string) : bool :=
  match s with
  | EmptyString => true
  | String c s' => negb (Js.isSlash c) && slashFree s'
  end.

(** A path with, somewhere in it, "/t/", a non-empty segment without a
    slash, a slash, and a digit: a numeric id segment after a slug segment. *)
Definition TopicPath (url : string) : Prop :=
  exists pre slug d rest,
    url = (pre ++ "/t/" ++ slug ++ "/" ++ String d rest)%string
    /\ slug <> "" /\ slashFree slug = true /\ Js.isDigit d = true.

Lemma append_cons c (s1 s2 : string) :
  (String c s1 ++ s2)%string = String c (s1 ++ s2)%string.
Proof. reflexivity. Qed.

Lemma isSlash_eq c : Js.isSlash c = true -> c = "/"%char.
Proof. unfold Js.isSlash. apply Ascii.eqb_eq. Qed.

Lemma skipNonSlash_split r :
  exists r1, r = (r1 ++ Js.skipNonSlash r)%string /\ slashFree r1 = true
             /\ (Js.skipNonSlash r = "" \/ exists r2, Js.skipNonSlash r = String "/" r2).
Proof.
  induction r as [|c r IH]; simpl.
  - exists "". auto.
  - destruct (Js.isSlash c) eqn:Hc.
    + exists "". split; [reflexivity|]. split; [reflexivity|].
      right. exists r. apply isSlash_eq in Hc. subst c. reflexivity.
    + destruct IH as (r1 & Hr & Hf & Hs). exists (String c r1).
      split; [rewrite append_cons; f_equal; exact Hr|]. split; [|exact Hs].
      cbn [slashFree]. rewrite Hc, Hf. reflexivity.
Qed.

Lemma skipNonSlash_app r1 r2 :
  slashFree r1 = true -> Js.skipNonSlash (r1 ++ String "/" r2) = String "/" r2.
Proof.
  induction r1 as [|c r1 IH]; intros H; [reflexivity|].
  cbn [slashFree] in H. apply andb_true_iff in H. destruct H as [Hc Hf].
  apply negb_true_iff in Hc. rewrite append_cons. cbn [Js.skipNonSlash].
  rewrite Hc. apply IH, Hf.
Qed.

Lemma matchTopicHere_Some s ds :
  Js.matchTopicHere s = Some ds ->
  exists slug d rest,
    s = ("/t/" ++ slug ++ "/" ++ String d rest)%string
    /\ slug <> "" /\ slashFree slug = true /\ Js.isDigit d = true.
Proof.
  unfold Js.matchTopicHere.
  destruct s as [|a [|b [|c [|d r]]]]; try discriminate.
  destruct (Js.isSlash a && Ascii.eqb b "t" && Js.isSlash c && negb (Js.isSlash d)) eqn:Hh;
    [|discriminate].
  apply andb_true_iff in Hh. destruct Hh as [Hh Hd].
  apply andb_true_iff in Hh. destruct Hh as [Hh Hc].
  apply andb_true_iff in Hh. destruct Hh as [Ha Hb].
  apply isSlash_eq in Ha, Hc. apply Ascii.eqb_eq in Hb. subst a b c.
  destruct (skipNonSlash_split r) as (r1 & Hr & Hf & Hs).
  destruct (Js.skipNonSlash r) as [|x tail] eqn:Hskip; [discriminate|].
  destruct Hs as [Hs|(r2 & Hs)]; [discriminate|]. injection Hs as -> ->.
  destruct r2 as [|d0 rest]; [discriminate|]. simpl.
  destruct (Js.isDigit d0) eqn:Hdig; [|discriminate]. intros _.
  exists (String d r1), d0, rest.
  split; [rewrite Hr; reflexivity|].
  split; [discriminate|]. split; [|exact Hdig].
  cbn [slashFree]. rewrite Hd, Hf. reflexivity.
Qed.

Lemma matchTopicHere_complete slug d rest :
  slug <> "" -> slashFree slug = true -> Js.isDigit d = true ->
  exists ds, Js.matchTopicHere ("/t/" ++ slug ++ "/" ++ String d rest) = Some ds.
Proof.
  intros Hne Hf Hd. destruct slug as [|c slug']; [congruence|].
  simpl in Hf. apply andb_true_iff in Hf. destruct Hf as [Hc Hf].
  change (("/t/" ++ String c slug' ++ "/" ++ String d rest)%string)
    with (String "/" (String "t" (String "/" (String c (slug' ++ String "/" (String d rest)))))).
  unfold Js.matchTopicHere.
  change (Js.isSlash "/") with true. change (Ascii.eqb "t" "t") with true.
  rewrite Hc. cbn [andb].
  rewrite skipNonSlash_app by exact Hf. cbn [Js.startsWithDigit]. rewrite Hd. eauto.
Qed.

(** [url.match] finds something exactly on the paths of the pattern. *)
Lemma matchTopic_iff_TopicPath url :
  (exists ds, Js.matchTopic url = Some ds) <-> TopicPath url.
Proof.
  split.
  - induction url as [|a u IH]; intros (ds & H).
    + discriminate.
    + cbn [Js.matchTopic] in H.
      destruct (Js.matchTopicHere (String a u)) as [ds'|] eqn:Hh.
      * destruct (matchTopicHere_Some _ _ Hh) as (slug & d & rest & Hs & H1 & H2 & H3).
        exists "", slug, d, rest. auto.
      * destruct (IH (ex_intro _ ds H)) as (pre & slug & d & rest & Hs & H1 & H2 & H3).
        exists (String a pre), slug, d, rest. split; [|auto].
        rewrite append_cons, <- Hs. reflexivity.
  - intros (pre & slug & d & rest & -> & H1 & H2 & H3).
    induction pre as [|a pre IH].
    + destruct (matchTopicHere_complete slug d rest H1 H2 H3) as (ds & Hds).
      exists ds. change (("" ++ "/t/" ++ slug ++ "/" ++ String d rest)%string)
        with (("/t/" ++ slug ++ "/" ++ String d rest)%string).
      destruct slug as [|c slug']; [congruence|].
      change (("/t/" ++ String c slug' ++ "/" ++ String d rest)%string)
        with (String "/" (String "t" (String "/" (String c (slug' ++ String "/" (String d rest))))))
        in *.
      cbn [Js.matchTopic]. rewrite Hds. reflexivity.
    + destruct IH as (ds & Hds).
      change ((String a pre ++ "/t/" ++ slug ++ "/" ++ String d rest)%string)
        with (String a (pre ++ "/t/" ++ slug ++ "/" ++ String d rest)).
      cbn [Js.matchTopic].
      destruct (Js.matchTopicHere (String a (pre ++ "/t/" ++ slug ++ "/" ++ String d rest)));
        eauto.
Qed.

Lemma matchTopic_None_iff url : Js.matchTopic url = None <-> ~ TopicPath url.
Proof.
  rewrite <- matchTopic_iff_TopicPath. destruct (Js.matchTopic url) as [ds|].
  - split; [discriminate | intros H; exfalso; apply H; eauto].
  - split; [intros _ (ds & H); discriminate | reflexivity].
Qed.

(** ** Navigation *)

Module Part002Navigation.
Import Part002 Part002Run Part002Checks.

Section Navigation.
  Variable settings : Settings.
  Variable site : option Site.

Lemma pageChange_no_match_002 url w :
    Js.matchTopic url = None -> step settings site w (PageChange url) = w.
  Proof. intros H. simpl. unfold runHandler, onPageChange. rewrite H. reflexivity. Qed.

Lemma pageChange_match_002 url ds w :
    Js.matchTopic url = Some ds ->
    step settings site w (PageChange url) = setTimers (timers w ++ [VisitCheck]) w.
  Proof. intros H. simpl. unfold runHandler, onPageChange. rewrite H. reflexivity. Qed.

Lemma timer_no_topic_002 k w :
    timers w !! k = Some VisitCheck -> topicModel w = None ->
    step settings site w (TimerFire k) = setTimers (delete k (timers w)) w.
  Proof.
    intros Hk Ht. simpl. unfold fire. rewrite Hk. simpl. unfold runHandler.
    rewrite visitCheck_no_topic by exact Ht. reflexivity.
  Qed.

Lemma timer_calls_castVote k topic w :
    timers w !! k = Some VisitCheck -> topicModel w = Some topic ->
    ownUnvoted (uid (currentUser w)) topic
      && categoryAllowed settings site (category_id topic) = true ->
    step settings site w (TimerFire k)
    = runHandler (castVote settings (topic_id topic) "onPageChange")
        (setConsole (console w ++ categoryLog settings ++
           said settings "Found unvoted own topic on page load:" [topic_id topic])
           (setTimers (delete k (timers w)) w)).
  Proof.
    intros Hk Ht Hg. simpl. unfold fire. rewrite Hk. simpl. unfold runHandler.
    rewrite (visitCheck_calls_castVote settings site topic) by assumption.
    reflexivity.
  Qed.
End Navigation.
End Part002Navigation.

Module AutoVoteOwnTopicNavigation.
Import AutoVoteOwnTopic AutoVoteOwnTopicRun AutoVoteOwnTopicChecks.

Section Navigation.
  Variable settings : Settings.

Lemma pageChange_no_match_main url w :
    Js.matchTopic url = None ->
    step settings w (PageChange url)
    = setConsole (console w ++ [ConsoleLog "onPageChange fired:" []]) w.
  Proof. intros H. simpl. unfold runHandler, onPageChange, bind. rewrite log_run_main, H. reflexivity. Qed.

Lemma pageChange_match_main url ds w :
    Js.matchTopic url = Some ds ->
    step settings w (PageChange url)
    = setTimers (timers w ++ [VisitCheck])
        (setConsole (console w ++ [ConsoleLog "onPageChange fired:" [];
                                   ConsoleLog "On topic page, topic ID from URL:" []]) w).
  Proof.
    intros H. simpl. unfold runHandler, onPageChange, bind. rewrite log_run_main, H, log_run_main.
    simpl. rewrite <- app_assoc. reflexivity.
  Qed.

Lemma timer_no_topic_main k w :
    timers w !! k = Some VisitCheck -> topicModel w = None ->
    step settings w (TimerFire k)
    = setConsole (console w ++ [ConsoleLog "Topic controller model:" []])
        (setTimers (delete k (timers w)) w).
  Proof.
    intros Hk Ht. simpl. unfold fire. rewrite Hk. simpl.
    unfold runHandler, visitCheck, bind, get. simpl. rewrite Ht. reflexivity.
  Qed.

Lemma timer_calls_checkAndVote k topic w :
    timers w !! k = Some VisitCheck -> topicModel w = Some topic ->
    step settings w (TimerFire k)
    = runHandler (checkAndVote settings (Some topic) "onPageChange")
        (setConsole (console w ++ [ConsoleLog "Topic controller model:" []])
           (setTimers (delete k (timers w)) w)).
  Proof.
    intros Hk Ht. simpl. unfold fire. rewrite Hk. simpl.
    unfold runHandler, visitCheck. unfold bind at 1. unfold get. simpl.
    unfold bind at 1. rewrite log_run_main. simpl. rewrite Ht. reflexivity.
  Qed.
End Navigation.
End AutoVoteOwnTopicNavigation.

(** * [Part001] *)

Module Part001Facts.
Import Part001.

Section Facts.
  Variable settings : Settings.
  Variable site : option Site.

Lemma keeps_updateVoteUI_001 n : keeps registryView (updateVoteUI n).
  Proof.
    apply DomFacts.keeps_updateVoteUI; [reflexivity | intros; apply keeps_ret].
  Qed.

Lemma keeps_castVoteResume_001 t r : keeps registryView (castVoteResume t r).
  Proof.
    unfold castVoteResume, markVoted, updateCurrentUser.
    repeat first [ apply keeps_updateVoteUI_001 | keeps_step ].
  Qed.

  (** Without logging the duplicate return leaves the world as it was. *)
Lemma castVoteSync_duplicate_001 t w :
    t ∈ autoVotedTopics w -> castVoteSync settings t w = (Normal (Some false), w).
  Proof.
    intros Hin. unfold castVoteSync.
    destruct (auto_vote_enabled settings); [|reflexivity]. simpl.
    unfold bind, get. simpl. rewrite bool_decide_eq_true_2 by exact Hin. reflexivity.
  Qed.

Lemma castVoteSync_disabled_001 t w :
    auto_vote_enabled settings = false -> castVoteSync settings t w = (Normal (Some false), w).
  Proof. intros He. unfold castVoteSync. rewrite He. reflexivity. Qed.

Lemma castVoteSync_fresh_001 t w :
    auto_vote_enabled settings = true -> t ∉ autoVotedTopics w ->
    castVoteSync settings t w
    = (Normal None,
       setPending (pending w ++ [CastVoteAwait t ""])
         (setPosts (posts w ++ [t]) (setAutoVoted ({[t]} ∪ autoVotedTopics w) w))).
  Proof.
    intros He Hn. unfold castVoteSync. rewrite He. simpl.
    unfold bind, get. simpl. rewrite bool_decide_eq_false_2 by exact Hn. reflexivity.
  Qed.

Lemma Disciplined_castVoteSync_001 t : preserves Disciplined (castVoteSync settings t).
  Proof.
    intros w Hw. destruct (auto_vote_enabled settings) eqn:He.
    - destruct (decide (t ∈ autoVotedTopics w)) as [Hin|Hn].
      + rewrite castVoteSync_duplicate_001 by exact Hin. exact Hw.
      + pose proof (Disciplined_reserve t "" (ret tt) (ret tt)
                      (keeps_ret _ tt) (keeps_ret _ tt) w Hw) as H.
        unfold bind at 1 in H. simpl in H.
        rewrite bool_decide_eq_false_2 in H by exact Hn.
        rewrite castVoteSync_fresh_001 by assumption. exact H.
    - rewrite castVoteSync_disabled_001 by exact He. exact Hw.
  Qed.

  (** Sessions in which the composer never pre-voted. *)
Record NavigationOnly (w : World) : Prop := {
    nav_disciplined : Disciplined w;
    nav_no_prevote : preVotedTopics w = ∅;
    nav_pending : forall p, In p (pending w) -> exists t src, p = CastVoteAwait t src
  }.

Lemma NavigationOnly_view w w' :
    registryView w = registryView w' -> NavigationOnly w -> NavigationOnly w'.
  Proof.
    intros Hv [H1 H2 H3]. constructor.
    - eapply Disciplined_view; eassumption.
    - unfold registryView in Hv. injection Hv as _ Hp _ _ _. rewrite <- Hp. exact H2.
    - unfold registryView in Hv. injection Hv as _ _ _ Hp _. rewrite <- Hp. exact H3.
  Qed.

Lemma NavigationOnly_castVoteSync t : preserves NavigationOnly (castVoteSync settings t).
  Proof.
    intros w [H1 H2 H3]. constructor.
    - apply Disciplined_castVoteSync_001, H1.
    - destruct (auto_vote_enabled settings) eqn:He;
        [destruct (decide (t ∈ autoVotedTopics w)) as [Hin|Hn]|].
      + rewrite castVoteSync_duplicate_001 by exact Hin. exact H2.
      + rewrite castVoteSync_fresh_001 by assumption. exact H2.
      + rewrite castVoteSync_disabled_001 by exact He. exact H2.
    - destruct (auto_vote_enabled settings) eqn:He;
        [destruct (decide (t ∈ autoVotedTopics w)) as [Hin|Hn]|].
      + rewrite castVoteSync_duplicate_001 by exact Hin. exact H3.
      + rewrite castVoteSync_fresh_001 by assumption. simpl.
        intros p Hp. apply in_app_or in Hp. destruct Hp as [Hp|[<-|[]]]; eauto.
      + rewrite castVoteSync_disabled_001 by exact He. exact H3.
  Qed.

Lemma NavigationOnly_keeps {A} (m : Eff A) :
    keeps registryView m -> preserves NavigationOnly m.
  Proof. apply keeps_preserves, NavigationOnly_view. Qed.

Lemma NavigationOnly_castVote t : preserves NavigationOnly (castVote settings t).
  Proof.
    apply preserves_callAsync.
    - intros l w. apply NavigationOnly_view. reflexivity.
    - intros l w. apply NavigationOnly_view. reflexivity.
    - apply NavigationOnly_castVoteSync.
  Qed.

Lemma NavigationOnly_visitCheck : preserves NavigationOnly (visitCheck settings site).
  Proof.
    unfold visitCheck.
    apply preserves_bind; [apply NavigationOnly_keeps, keeps_get | intros topic].
    destruct topic as [topic|]; [|apply preserves_ret].
    apply preserves_bind; [apply NavigationOnly_keeps, keeps_get | intros me].
    apply preserves_when, NavigationOnly_castVote.
  Qed.

Lemma NavigationOnly_onPageChange url : preserves NavigationOnly (onPageChange settings url).
  Proof.
    intros w Hw. unfold onPageChange.
    destruct (Js.matchTopic url) as [ds|]; [|exact Hw].
    unfold bind at 1. unfold get. simpl.
    assert (Ht : forall t, NavigationOnly (snd (when (auto_vote_on_visit settings)
                                                  (setTimeout t) w))).
    { intros t. destruct (auto_vote_on_visit settings); simpl; [|exact Hw].
      destruct Hw as [[D1 D2 D3 D4] H2 H3]. repeat constructor; assumption. }
    destruct (Js.parseInt ds) as [n|]; [|apply Ht].
    rewrite (nav_no_prevote w Hw).
    rewrite bool_decide_eq_false_2 by apply not_elem_of_empty.
    apply Ht.
  Qed.

  (** Every event but a composer save. *)
Definition notComposerSave (ev : Event) : Prop :=
    match ev with ComposerSave _ _ => False | _ => True end.

Lemma NavigationOnly_step w ev :
    notComposerSave ev -> NavigationOnly w -> NavigationOnly (step settings site w ev).
  Proof.
    assert (Hs : forall l w, NavigationOnly w -> NavigationOnly (setSettled l w))
      by (intros l w0; apply NavigationOnly_view; reflexivity).
    assert (Hu : forall l w, NavigationOnly w -> NavigationOnly (setUncaught l w))
      by (intros l w0; apply NavigationOnly_view; reflexivity).
    assert (Hdrop : forall k l w0, NavigationOnly (setPending l w0) ->
                                   NavigationOnly (setPending (delete k l) w0)).
    { intros k l w0 [H1 H2 H3]. constructor.
      - apply Disciplined_dropPending, H1.
      - exact H2.
      - intros p Hp. apply H3. simpl in *. eapply In_delete; exact Hp. }
    intros Hev H. destruct ev; simpl; try exact H; try (destruct Hev).
    - apply preserves_runHandler; auto. apply NavigationOnly_onPageChange.
    - apply preserves_fire; [exact Hu | | apply setTimers_id | | exact H].
      + intros l w0 [[D1 D2 D3 D4] H2 H3]. repeat constructor; assumption.
      + intros [| |t]; simpl.
        * apply NavigationOnly_visitCheck.
        * apply NavigationOnly_keeps, keeps_updateVoteUI_001.
        * apply preserves_ret.
    - destruct (pending w !! k) as [p|] eqn:Hp; [|unfold fire; rewrite Hp; exact H].
      destruct p as [t src|t|]; try exact H.
      + apply preserves_fire; [exact Hu | apply Hdrop | apply setPending_id | | exact H].
        intros [t' src'|t'|]; simpl; try apply preserves_ret.
        * apply preserves_resumeAsync; auto.
          apply NavigationOnly_keeps, keeps_castVoteResume_001.
        * intros w0 Hw0. unfold preVoteSettled. destruct r; simpl; [|exact Hw0].
          destruct Hw0 as [[D1 D2 D3 D4] H2 H3]. repeat constructor; try assumption.
          simpl. rewrite H2. apply empty_difference_L.
      + exfalso. apply list_elem_of_lookup_2, list_elem_of_In in Hp.
        destruct (nav_pending w H _ Hp) as (t' & src' & [=]).
    - apply NavigationOnly_view with (w := w); [reflexivity | exact H].
    - destruct (pending w !! k) as [p|] eqn:Hp; [|exact H].
      destruct p as [t src|t|]; try exact H.
      exfalso. apply list_elem_of_lookup_2, list_elem_of_In in Hp.
      destruct (nav_pending w H _ Hp) as (t' & src' & [=]).
    - destruct (pending w !! k) as [p|] eqn:Hp; [|exact H].
      destruct p as [t src|t|]; try exact H.
      exfalso. apply list_elem_of_lookup_2, list_elem_of_In in Hp.
      destruct (nav_pending w H _ Hp) as (t' & src' & [=]).
  Qed.

Lemma NavigationOnly_run evs w :
    Forall notComposerSave evs -> NavigationOnly w -> NavigationOnly (run settings site w evs).
  Proof.
    unfold run. revert w. induction evs as [|ev evs IH]; intros w Hf H; simpl; [exact H|].
    inversion Hf; subst. apply IH; [assumption|]. apply NavigationOnly_step; assumption.
  Qed.

Lemma NavigationOnly_fresh u h : NavigationOnly (freshWorld u h).
  Proof.
    constructor; [apply Disciplined_fresh | reflexivity | intros p []].
  Qed.

End Facts.
End Part001Facts.

Module Part001Session.
Import Part001 Part001Facts.

Section Session.
Variable settings : Settings.
Variable site : option Site.

(** A rejected request: [catch (error) { return false; }]. *)
Lemma castVoteResume_rejected_001 t e w :
  castVoteResume t (inl e) w = (Normal false, w).
Proof. reflexivity. Qed.

Lemma step_settle_rejected_001 w k t src e :
  pending w !! k = Some (CastVoteAwait t src) ->
  step settings site w (AjaxSettle k (inl e))
  = setSettled (settled w ++ [(t, false)]) (setPending (delete k (pending w)) w).
Proof.
  intros Hp. cbn [step]. rewrite Hp. unfold fire. rewrite Hp. reflexivity.
Qed.

(** The registry of [Part001] only grows. *)
Definition Registered (t : Z) (w : World) : Prop := t ∈ autoVotedTopics w.

Lemma Registered_view t w w' :
  registryView w = registryView w' -> Registered t w -> Registered t w'.
Proof.
  unfold registryView, Registered. intros Hv H. injection Hv as Ha _ _ _ _.
  rewrite <- Ha. exact H.
Qed.

Lemma Registered_keeps t {A} (m : Eff A) :
  keeps registryView m -> preserves (Registered t) m.
Proof. apply keeps_preserves, Registered_view. Qed.

Lemma Registered_castVoteSync t t' : preserves (Registered t) (castVoteSync settings t').
Proof.
  intros w H. destruct (auto_vote_enabled settings) eqn:He.
  - destruct (decide (t' ∈ autoVotedTopics w)) as [Hin|Hn].
    + rewrite castVoteSync_duplicate_001 by exact Hin. exact H.
    + rewrite castVoteSync_fresh_001 by assumption.
      unfold Registered in *. cbn [snd autoVotedTopics setPending setPosts setAutoVoted].
      apply elem_of_union_r. exact H.
  - rewrite castVoteSync_disabled_001 by exact He. exact H.
Qed.

Lemma Registered_castVote t t' : preserves (Registered t) (castVote settings t').
Proof.
  apply preserves_callAsync; try (intros l w H; exact H). apply Registered_castVoteSync.
Qed.

Lemma Registered_visitCheck t : preserves (Registered t) (visitCheck settings site).
Proof.
  unfold visitCheck.
  apply preserves_bind; [apply Registered_keeps, keeps_get | intros topic].
  destruct topic as [topic|]; [|apply preserves_ret].
  apply preserves_bind; [apply Registered_keeps, keeps_get | intros me].
  apply preserves_when, Registered_castVote.
Qed.

Lemma Registered_onPageChange t url : preserves (Registered t) (onPageChange settings url).
Proof.
  unfold onPageChange. destruct (Js.matchTopic url) as [ds|]; [|apply preserves_ret].
  apply preserves_bind; [apply Registered_keeps, keeps_get | intros pre].
  assert (Hv : preserves (Registered t) (when (auto_vote_on_visit settings) (setTimeout VisitCheck)))
    by (apply preserves_when; intros w H; exact H).
  destruct (Js.parseInt ds) as [n|]; [|exact Hv].
  apply preserves_if; [|exact Hv].
  apply preserves_bind; [intros w H; exact H | intros _].
  apply preserves_bind; [|intros _; intros w H; exact H].
  intros w H. unfold Registered in *. cbn [snd modify autoVotedTopics setAutoVoted].
  apply elem_of_union_r. exact H.
Qed.

Lemma Registered_step t w ev :
  Registered t w -> Registered t (step settings site w ev).
Proof.
  assert (Hu : forall l w, Registered t w -> Registered t (setUncaught l w))
    by (intros l w0 H; exact H).
  assert (Hs : forall l w, Registered t w -> Registered t (setSettled l w))
    by (intros l w0 H; exact H).
  intros H. destruct ev; cbn [step]; try exact H.
  - apply preserves_runHandler; auto. apply Registered_onPageChange.
  - apply preserves_fire; [exact Hu | | apply setTimers_id | | exact H].
    + intros l w0 H0; exact H0.
    + intros [| |t0]; cbn [fireTimer].
      * apply Registered_visitCheck.
      * apply Registered_keeps, keeps_updateVoteUI_001.
      * apply preserves_ret.
  - destruct (pending w !! k) as [[t0 src|t0|]|] eqn:Hp; try exact H;
      try (unfold fire; rewrite Hp; exact H).
    + apply preserves_fire; [exact Hu | | apply setPending_id | | exact H].
      * intros l w0 H0; exact H0.
      * intros [t1 src1|t1|]; cbn [settle]; try apply preserves_ret.
        -- apply preserves_resumeAsync; auto.
           apply Registered_keeps, keeps_castVoteResume_001.
        -- unfold preVoteSettled. destruct r; [intros w0 H0; exact H0 | apply preserves_ret].
    + apply preserves_fire; [exact Hu | | apply setPending_id | | exact H].
      * intros l w0 H0; exact H0.
      * intros [t1 src1|t1|]; cbn [settle]; try apply preserves_ret.
        -- apply preserves_resumeAsync; auto.
           apply Registered_keeps, keeps_castVoteResume_001.
        -- unfold preVoteSettled. destruct r; [intros w0 H0; exact H0 | apply preserves_ret].
  - apply preserves_runHandler; auto. unfold save. apply preserves_when.
    intros w0 H0; exact H0.
  - destruct (pending w !! k) as [[t0 src|t0|]|] eqn:Hp; try exact H.
    apply preserves_fire; [exact Hu | | apply setPending_id | | exact H].
    + intros l w0 H0; exact H0.
    + intros _. unfold saveThen. destruct postTopicId; [|apply preserves_ret].
      apply preserves_bind; intros; intros w0 H0; exact H0.
  - destruct (pending w !! k) as [[t0 src|t0|]|] eqn:Hp; try exact H.
    unfold fire. rewrite Hp. exact H.
Qed.

Lemma Registered_run t evs w :
  Registered t w -> Registered t (run settings site w evs).
Proof.
  unfold run. revert w. induction evs as [|ev evs IH]; intros w H; simpl; [exact H|].
  apply IH, Registered_step, H.
Qed.

End Session.
End Part001Session.

(** A [castVote] of [Part001] that waits for its answer has registered its
    topic, in any session, composer saves included. *)
Module Part001Waiting.
Import Part001 Part001Facts.

Section Waiting.
Variable settings : Settings.
Variable site : option Site.

Definition WaitingRegistered (w : World) : Prop :=
  forall t src, In (CastVoteAwait t src) (pending w) -> t ∈ autoVotedTopics w.

Lemma WaitingRegistered_view w w' :
  registryView w = registryView w' -> WaitingRegistered w -> WaitingRegistered w'.
Proof.
  unfold registryView, WaitingRegistered. intros Hv H. injection Hv as Ha _ _ Hp _.
  rewrite <- Ha, <- Hp. exact H.
Qed.

Lemma WaitingRegistered_keeps {A} (m : Eff A) :
  keeps registryView m -> preserves WaitingRegistered m.
Proof. apply keeps_preserves, WaitingRegistered_view. Qed.

Lemma WaitingRegistered_grow s w :
  WaitingRegistered w -> WaitingRegistered (setAutoVoted (s ∪ autoVotedTopics w) w).
Proof. intros H t src Hin. cbn. apply elem_of_union_r, (H t src), Hin. Qed.

Lemma WaitingRegistered_other (p : Pending) w :
  (forall t src, p <> CastVoteAwait t src) ->
  WaitingRegistered w -> WaitingRegistered (setPending (pending w ++ [p]) w).
Proof.
  intros Hp H t src Hin. cbn in Hin. apply in_app_or in Hin.
  destruct Hin as [Hin|[Heq|[]]]; [exact (H t src Hin)|].
  destruct (Hp t src Heq).
Qed.

Lemma WaitingRegistered_drop k w :
  WaitingRegistered w -> WaitingRegistered (setPending (delete k (pending w)) w).
Proof. intros H t src Hin. cbn in Hin. apply (H t src). eapply In_delete, Hin. Qed.

Lemma WaitingRegistered_castVoteSync t : preserves WaitingRegistered (castVoteSync settings t).
Proof.
  intros w H. destruct (auto_vote_enabled settings) eqn:He.
  - destruct (decide (t ∈ autoVotedTopics w)) as [Hin|Hn].
    + rewrite castVoteSync_duplicate_001 by exact Hin. exact H.
    + rewrite castVoteSync_fresh_001 by assumption.
      intros t' src' Hin. cbn in Hin |- *. apply in_app_or in Hin.
      destruct Hin as [Hin|[[= <- _]|[]]].
      * apply elem_of_union_r, (H t' src'), Hin.
      * apply elem_of_union_l, elem_of_singleton. reflexivity.
  - rewrite castVoteSync_disabled_001 by exact He. exact H.
Qed.

Lemma WaitingRegistered_castVote t : preserves WaitingRegistered (castVote settings t).
Proof.
  apply preserves_callAsync; try (intros l w H; exact H).
  apply WaitingRegistered_castVoteSync.
Qed.

Lemma WaitingRegistered_visitCheck : preserves WaitingRegistered (visitCheck settings site).
Proof.
  unfold visitCheck.
  apply preserves_bind; [apply WaitingRegistered_keeps, keeps_get | intros topic].
  destruct topic as [topic|]; [|apply preserves_ret].
  apply preserves_bind; [apply WaitingRegistered_keeps, keeps_get | intros me].
  apply preserves_when, WaitingRegistered_castVote.
Qed.

Lemma WaitingRegistered_onPageChange url :
  preserves WaitingRegistered (onPageChange settings url).
Proof.
  unfold onPageChange. destruct (Js.matchTopic url) as [ds|]; [|apply preserves_ret].
  apply preserves_bind; [apply WaitingRegistered_keeps, keeps_get | intros pre].
  assert (Hv : preserves WaitingRegistered
                 (when (auto_vote_on_visit settings) (setTimeout VisitCheck)))
    by (apply preserves_when; intros w H; exact H).
  destruct (Js.parseInt ds) as [n|]; [|exact Hv].
  apply preserves_if; [|exact Hv].
  apply preserves_bind; [intros w H; exact H | intros _].
  apply preserves_bind; [|intros _; intros w H; exact H].
  intros w H. apply (WaitingRegistered_grow {[n]} w H).
Qed.

Lemma WaitingRegistered_step w ev :
  WaitingRegistered w -> WaitingRegistered (step settings site w ev).
Proof.
  assert (Hu : forall l w, WaitingRegistered w -> WaitingRegistered (setUncaught l w))
    by (intros l w0 H; exact H).
  assert (Hs : forall l w, WaitingRegistered w -> WaitingRegistered (setSettled l w))
    by (intros l w0 H; exact H).
  assert (Hdrop : forall k l w0, WaitingRegistered (setPending l w0) ->
                                 WaitingRegistered (setPending (delete k l) w0)).
  { intros k l w0 H. apply (WaitingRegistered_drop k (setPending l w0) H). }
  intros H.
  destruct ev as [url|k|k r|topic doc|data|ct cat|k q|name data|ct cat q|ty url q|k e];
    cbn [step]; try exact H.
  - apply preserves_runHandler; auto. apply WaitingRegistered_onPageChange.
  - apply preserves_fire; [exact Hu | | apply setTimers_id | | exact H].
    + intros l w0 H0; exact H0.
    + intros [| |t0]; cbn [fireTimer].
      * apply WaitingRegistered_visitCheck.
      * apply WaitingRegistered_keeps, keeps_updateVoteUI_001.
      * apply preserves_ret.
  - destruct (pending w !! k) as [[t0 src|t0|]|] eqn:Hp; try exact H;
      try (unfold fire; rewrite Hp; exact H);
      (apply preserves_fire; [exact Hu | apply Hdrop | apply setPending_id | | exact H]);
      intros [t1 src1|t1|]; cbn [settle]; try apply preserves_ret;
      first [ apply preserves_resumeAsync; auto;
              apply WaitingRegistered_keeps, keeps_castVoteResume_001
            | unfold preVoteSettled; destruct r;
              [intros w0 H0; exact H0 | apply preserves_ret] ].
  - apply preserves_runHandler; auto. unfold save. apply preserves_when.
    intros w0 H0. apply WaitingRegistered_other; [discriminate | exact H0].
  - destruct (pending w !! k) as [[t0 src|t0|]|] eqn:Hp; try exact H.
    apply preserves_fire; [exact Hu | apply Hdrop | apply setPending_id | | exact H].
    intros _. unfold saveThen. destruct q as [t|]; [|apply preserves_ret].
    apply preserves_bind; [intros w0 H0; exact H0 | intros _].
    intros w0 H0 t' src' Hin. cbn in Hin |- *. apply in_app_or in Hin.
    destruct Hin as [Hin|[[=]|[]]]. exact (H0 t' src' Hin).
  - destruct (pending w !! k) as [[t0 src|t0|]|] eqn:Hp; try exact H.
    unfold fire. rewrite Hp. apply (WaitingRegistered_drop k w H).
Qed.

Lemma WaitingRegistered_run evs w :
  WaitingRegistered w -> WaitingRegistered (run settings site w evs).
Proof.
  unfold run. revert w. induction evs as [|ev evs IH]; intros w H; simpl; [exact H|].
  apply IH, WaitingRegistered_step, H.
Qed.

Lemma WaitingRegistered_fresh u h : WaitingRegistered (freshWorld u h).
Proof. intros t src []. Qed.

End Waiting.
End Part001Waiting.

Module Part000Run.
Import Part000 Part000Facts.

Section Run.
Variable settings : Settings.

Definition said (msg : string) (args : list Z) : list Diag :=
  if auto_vote_debug_mode settings then [ConsoleLog msg args] else [].

Lemma log_run_000 msg args w :
  log settings msg args w = (Normal tt, setConsole (console w ++ said msg args) w).
Proof.
  unfold log, said, when, consoleLog, modify, ret.
  destruct (auto_vote_debug_mode settings); [reflexivity|].
  rewrite app_nil_r, setConsole_id. reflexivity.
Qed.

Lemma castVoteSync_disabled_000 t src w :
  auto_vote_enabled settings = false ->
  castVoteSync settings t src w
  = (Normal (Some false), setConsole (console w ++ said "Auto-vote is disabled" []) w).
Proof.
  intros He. unfold castVoteSync. rewrite He. simpl.
  unfold bind. rewrite log_run_000. reflexivity.
Qed.

Lemma castVoteSync_duplicate_000 t src w :
  auto_vote_enabled settings = true ->
  t ∈ autoVotedTopics w ->
  castVoteSync settings t src w
  = (Normal (Some false),
     setConsole (console w ++ said "Already attempted auto-vote for topic:" [t]) w).
Proof.
  intros He Hin. unfold castVoteSync. rewrite He. simpl.
  unfold bind at 1. simpl. rewrite bool_decide_eq_true_2 by exact Hin.
  unfold bind. rewrite log_run_000. reflexivity.
Qed.

Lemma castVoteSync_returns_false_000 t src w :
  auto_vote_enabled settings = false \/ t ∈ autoVotedTopics w ->
  fst (castVoteSync settings t src w) = Normal (Some false)
  /\ registryView (snd (castVoteSync settings t src w)) = registryView w.
Proof.
  intros H. destruct (auto_vote_enabled settings) eqn:He.
  - destruct H as [H|H]; [discriminate|].
    rewrite castVoteSync_duplicate_000 by assumption. split; reflexivity.
  - rewrite castVoteSync_disabled_000 by assumption. split; reflexivity.
Qed.

Lemma castVoteSync_fresh_000 t src w :
  auto_vote_enabled settings = true ->
  t ∉ autoVotedTopics w ->
  castVoteSync settings t src w
  = (Normal None,
     setPending (pending w ++ [CastVoteAwait t src])
       (setPosts (posts w ++ [t])
          (setConsole (console w ++ said "Casting vote for topic (source)" [t])
             (setAutoVoted ({[t]} ∪ autoVotedTopics w) w)))).
Proof.
  intros He Hin. unfold castVoteSync. rewrite He. simpl.
  unfold bind at 1. simpl. rewrite bool_decide_eq_false_2 by exact Hin.
  unfold bind, modify. simpl. rewrite log_run_000. reflexivity.
Qed.
End Run.
End Part000Run.

(** ** Without a user *)

Lemma deliver_inactive (step : World -> Event -> World) evs h :
  fold_left (deliver step) evs (Inactive h) = Inactive (fold_left hostOnly evs h).
Proof.
  revert h. induction evs as [|ev evs IH]; intros h; simpl; [reflexivity|]. apply IH.
Qed.

Lemma hostOnly_posts evs h : hostPosts (fold_left hostOnly evs h) = hostPosts h.
Proof.
  revert h. induction evs as [|ev evs IH]; intros h; simpl; [reflexivity|].
  rewrite IH. destruct ev; reflexivity.
Qed.

Lemma hostOnly_loggedIn evs h : loggedIn (fold_left hostOnly evs h) = loggedIn h.
Proof.
  revert h. induction evs as [|ev evs IH]; intros h; simpl; [reflexivity|].
  rewrite IH. destruct ev; reflexivity.
Qed.

Lemma hostOnly_hostLog msg args evs h :
  fold_left hostOnly evs (hostLog msg args h) = hostLog msg args (fold_left hostOnly evs h).
Proof.
  revert h. induction evs as [|ev evs IH]; intros h; simpl; [reflexivity|].
  rewrite <- IH. destruct ev; reflexivity.
Qed.

(** The page changes under [hostOnly] by the host's own events alone. *)
Definition isHostChange (ev : Event) : bool :=
  match ev with HostChange _ _ => true | _ => false end.

Lemma hostOnly_without_hostChange evs h :
  forallb (fun ev => negb (isHostChange ev)) evs = true -> fold_left hostOnly evs h = h.
Proof.
  revert h. induction evs as [|ev evs IH]; intros h H; simpl in *; [reflexivity|].
  apply andb_true_iff in H. destruct H as [H1 H2].
  destruct ev; simpl in *; try discriminate; apply IH, H2.
Qed.

(** ** The success path of [castVote] in v1.4 *)

Module Part002Success.
Import Part002 UpdateVoteUIFacts.

(** The settings with the debug flag off. *)
Definition quietly (s : Settings) : Settings :=
  mkSettings (auto_vote_enabled s) (auto_vote_categories s) false (auto_vote_on_visit s).

Lemma sameButDebug_quietly s : sameButDebug s (quietly s).
Proof. repeat split. Qed.

(** [response.vote_count ?? (topic?.vote_count || 0) + 1] *)
Definition newVoteCount (r : VoteResponse) (w : World) : Z :=
  match resp_vote_count r with
  | Some n => n
  | None => voteCountOrZero (topicModel w) + 1
  end.

(** The model and the user after the assignments of the inner [try]. *)
Definition votedTopic (t : Topic) (n : Z) : Topic :=
  mkTopic (topic_id t) (user_id t) (category_id t) (can_vote t) true (Some n).

Definition votingUser (r : VoteResponse) (u : User) : User :=
  mkUser (uid u)
         (match resp_can_vote r with Some cv => Some (negb cv) | None => votes_exceeded u end)
         (match resp_votes_left r with Some vl => Some vl | None => votes_left u end).

Definition reflectModels (topicId : Z) (r : VoteResponse) (w : World) : World :=
  match topicModel w with
  | Some t =>
      if topic_id t =? topicId
      then setCurrentUser (votingUser r (currentUser w))
             (setTopicModel (Some (votedTopic t (newVoteCount r w))) w)
      else w
  | None => w
  end.

Definition reflected (topicId : Z) (r : VoteResponse) (w : World) : World :=
  setDocument (updateDoc (newVoteCount r w) (document w)) (reflectModels topicId r w).

Lemma setCurrentUser_id w : setCurrentUser (currentUser w) w = w.
Proof. destruct w; reflexivity. Qed.

Lemma updateCurrentUser_run r w :
  updateCurrentUser r w = (Normal tt, setCurrentUser (votingUser r (currentUser w)) w).
Proof.
  unfold updateCurrentUser, votingUser, bind, modify, ret.
  destruct w as [a p tm pe [u ve vl] tp d po c s un].
  destruct (resp_can_vote r), (resp_votes_left r); reflexivity.
Qed.

Lemma document_reflectModels t r w : document (reflectModels t r w) = document w.
Proof.
  unfold reflectModels. destruct (topicModel w) as [tp|]; [|reflexivity].
  destruct (topic_id tp =? t); reflexivity.
Qed.

Lemma castVoteResume_quiet s t src r w :
  castVoteResume (quietly s) t src (inr (Some r)) w = (Normal true, reflected t r w).
Proof.
  unfold castVoteResume, reflectSuccess, reflected, reflectModels, newVoteCount.
  unfold tryCatch at 1. unfold bind at 1. cbn [await]. unfold ret at 1.
  unfold bind at 1. unfold log at 1. cbn [quietly auto_vote_debug_mode when]. unfold ret at 1.
  unfold bind at 1. unfold tryCatch at 1.
  unfold bind at 1. unfold get at 1.
  unfold bind at 1. cbn [deref]. unfold ret at 1.
  unfold bind at 1.
  change (updateVoteUI (quietly s)) with (Dom.updateVoteUI (fun _ _ => ret tt)).
  destruct (topicModel w) as [tp|] eqn:Etp.
  - destruct (topic_id tp =? t) eqn:Eid; cbn [when].
    + unfold bind at 1. unfold markVoted, modify at 1.
      unfold bind at 1. unfold log at 1. cbn [quietly auto_vote_debug_mode when]. unfold ret at 1.
      rewrite updateCurrentUser_run. rewrite updateVoteUI_quiet.
      cbn [document setDocument setCurrentUser setTopicModel currentUser topicModel].
      reflexivity.
    + unfold ret at 1. rewrite updateVoteUI_quiet. reflexivity.
  - unfold ret at 1. rewrite updateVoteUI_quiet. reflexivity.
Qed.

Lemma castVoteResume_quiet_null s t src w :
  castVoteResume (quietly s) t src (inr None) w
  = (Normal true, setDocument (updateDoc 1 (document w)) w).
Proof.
  unfold castVoteResume, reflectSuccess.
  unfold tryCatch at 1. unfold bind at 1. cbn [await]. unfold ret at 1.
  unfold bind at 1. unfold log at 1. cbn [quietly auto_vote_debug_mode when]. unfold ret at 1.
  unfold bind at 1. unfold tryCatch at 1.
  unfold bind at 1. unfold get at 1.
  unfold bind at 1. cbn [deref]. unfold throw at 1.
  unfold bind at 1. unfold log at 1. cbn [quietly auto_vote_debug_mode when]. unfold ret at 1.
  change (updateVoteUI (quietly s)) with (Dom.updateVoteUI (fun _ _ => ret tt)).
  rewrite updateVoteUI_quiet. reflexivity.
Qed.

Lemma castVoteResume_success s t src r w :
  fst (castVoteResume s t src (inr (Some r)) w) = Normal true
  /\ sameButConsole (snd (castVoteResume s t src (inr (Some r)) w)) (reflected t r w).
Proof.
  destruct (Part002Debug.sim_castVoteResume s (quietly s)
              t src (inr (Some r)) w w (sameButConsole_refl w)) as [Hr Hw].
  rewrite castVoteResume_quiet in Hr, Hw. split; assumption.
Qed.

Lemma castVoteResume_null s t src w :
  fst (castVoteResume s t src (inr None) w) = Normal true
  /\ sameButConsole (snd (castVoteResume s t src (inr None) w))
                    (setDocument (updateDoc 1 (document w)) w).
Proof.
  destruct (Part002Debug.sim_castVoteResume s (quietly s)
              t src (inr None) w w (sameButConsole_refl w)) as [Hr Hw].
  rewrite castVoteResume_quiet_null in Hr, Hw. split; assumption.
Qed.

End Part002Success.

(** * A concrete session *)

Module Sample.

Definition enabledAll : Settings := mkSettings true None false false.
Definition enabledOnVisit : Settings := mkSettings true None false true.
Definition debugging : Settings := mkSettings true None true false.
Definition onlyFiveAndNine : Settings := mkSettings true (Some "5|9") false false.

Definition alice : User := mkUser 42 None None.

Definition emptyPage : Host := mkHost (Some alice) None [] [] [].
Definition anonymousPage : Host := mkHost None None [] [] [].

(** Alice's new topic 1234 in category 3. *)
Definition ownTopic : Topic := mkTopic 1234 42 3 true false (Some 0).

Definition serverError : AjaxError := mkAjaxError (Some 500).
Definition unprocessable : AjaxError := mkAjaxError (Some 422).

(** Alice lands on her topic; the callback fires and the vote is sent. *)
Definition arrival : list Event :=
  [HostChange (Some ownTopic) []; PageChange "/t/my-topic/1234"; TimerFire 0].

(** Alice creates the topic through the composer, the pre-vote fails with
    status 500, then she lands on the topic. *)
Definition failedPreVoteThenVisit : list Event :=
  [ComposerSave true 3;
   SaveSettle 0 (Some 1234);
   AjaxSettle 0 (inl serverError);
   HostChange (Some ownTopic) [];
   PageChange "/t/my-topic/1234";
   TimerFire 0].

(** The page after the first three of these events. *)
Definition afterFailedPreVote : World :=
  Part001.run enabledOnVisit None (freshWorld alice emptyPage)
    [ComposerSave true 3; SaveSettle 0 (Some 1234); AjaxSettle 0 (inl serverError)].

(** The page once the host has loaded Alice's topic. *)
Definition arrived : World :=
  setTopicModel (Some ownTopic) (freshWorld alice emptyPage).

(** The same with the navigation callback scheduled. *)
Definition scheduled : World := setTimers [VisitCheck] arrived.

(** The same once the vote request is on its way. *)
Definition voting : World :=
  Part002.run enabledAll None (freshWorld alice emptyPage) arrival.

(** A policy by name, and a directory with a matching category. *)
Definition supportOnly : Settings := mkSettings true (Some "support") false false.
Definition support : Category := mkCategory 7 (Some "Support") (Some "Help desk") None.
Definition directory : option Site := Some (mkSite (Some [support])).

(** A subcategory without a slug of its own, under the parent "p", and a
    policy naming the path "p/". *)
Definition pathOnly : Settings := mkSettings true (Some "p/") false false.
Definition slugless : Category := mkCategory 7 (Some "") (Some "Ideas") (Some (mkParent "p")).
Definition sluglessDirectory : option Site := Some (mkSite (Some [slugless])).

End Sample.

Example sample_arrival_posts :
  posts (Part002.run Sample.enabledAll None (freshWorld Sample.alice Sample.emptyPage)
           Sample.arrival) = [1234].
Proof. vm_compute. reflexivity. Qed.

Example sample_arrival_pending :
  pending (Part002.run Sample.enabledAll None (freshWorld Sample.alice Sample.emptyPage)
             Sample.arrival) !! 0%nat = Some (CastVoteAwait 1234 "onPageChange").
Proof. vm_compute. reflexivity. Qed.

Example sample_prevote_posts :
  posts (Part001.run Sample.enabledOnVisit None (freshWorld Sample.alice Sample.emptyPage)
           Sample.failedPreVoteThenVisit) = [1234; 1234].
Proof. vm_compute. reflexivity. Qed.

(** * The claims *)

(** Console lines at error level. *)
Definition isError (d : Diag) : bool :=
  match d with ConsoleError _ _ => true | ConsoleLog _ _ => false end.

(** C5.  When the vote request is rejected with status 422, [castVote]
    resolves to [false], the value it also gives for a duplicate or a disabled
    component, through the benign branch of its [catch]: the line logged is
    "Could not vote", nothing is written at error level, no error escapes the
    handler, and registry, queues and request log are as before (the settled
    promise apart).  This holds in [Part002] and in the api-initializer. *)
Theorem C5_status_422_resolves_false_quietly :
  forall (settings : Settings) (site : option Site) (w : World) (k : nat)
         (t : Z) (src : string) (e : AjaxError),
    jqXHR_status e = Some 422 ->
    pending w !! k = Some (CastVoteAwait t src) ->
    (let w' := Part002.step settings site w (AjaxSettle k (inl e)) in
     Part002.castVoteResume settings t src (inl e) w
       = (Normal false,
          setConsole (console w ++
            Part002Run.said settings
              "Could not vote (already voted or voting not enabled):" [t]) w)
     /\ settled w' = settled w ++ [(t, false)]
     /\ uncaught w' = uncaught w
     /\ autoVotedTopics w' = autoVotedTopics w
     /\ posts w' = posts w
     /\ pending w' = delete k (pending w)
     /\ document w' = document w
     /\ (forall t0 src0 w0,
           auto_vote_enabled settings = false \/ t0 ∈ autoVotedTopics w0 ->
           fst (Part002.castVoteSync settings t0 src0 w0) = Normal (Some false)))
    /\
    (let w' := AutoVoteOwnTopic.step settings w (AjaxSettle k (inl e)) in
     fst (AutoVoteOwnTopic.castVoteResume settings t src (inl e) w) = Normal false
     /\ console w' = console w ++
          [ConsoleLog "Vote API error:" [422];
           ConsoleLog "Could not vote (may already be voted or not allowed)" []]
     /\ forallb (fun d => negb (isError d)) (skipn (length (console w)) (console w')) = true
     /\ settled w' = settled w ++ [(t, false)]
     /\ uncaught w' = uncaught w
     /\ autoVotedTopics w' = autoVotedTopics w
     /\ posts w' = posts w
     /\ (forall t0 src0 w0,
           t0 ∈ autoVotedTopics w0 ->
           fst (AutoVoteOwnTopic.castVoteSync settings t0 src0 w0) = Normal (Some false))).
Proof.
  intros settings site w k t src e He Hp.
  assert (H422 : is422 (Rejected e) = true) by (unfold is422; simpl; rewrite He; reflexivity).
  assert (Hargs : statusArgs (Rejected e) = [422]) by (unfold statusArgs; simpl; rewrite He; reflexivity).
  split.
  - cbv zeta. rewrite Part002Run.step_settle_rejected_002 with (1 := Hp).
    rewrite Part002Run.castVoteResume_rejected_002, H422. simpl.
    repeat split.
    intros t0 src0 w0 [Hd|Hin].
    + rewrite Part002Run.castVoteSync_disabled_002 by exact Hd. reflexivity.
    + destruct (auto_vote_enabled settings) eqn:Hen.
      * rewrite Part002Run.castVoteSync_duplicate_002 by assumption. reflexivity.
      * rewrite Part002Run.castVoteSync_disabled_002 by exact Hen. reflexivity.
  - cbv zeta. rewrite AutoVoteOwnTopicRun.step_settle_rejected_main with (1 := Hp).
    rewrite AutoVoteOwnTopicRun.castVoteResume_rejected_main, H422, Hargs. simpl.
    repeat split.
    + rewrite skipn_app, skipn_all, Nat.sub_diag. reflexivity.
    + intros t0 src0 w0 Hin.
      rewrite AutoVoteOwnTopicRun.castVoteSync_duplicate_main by exact Hin. reflexivity.
Qed.

(** C6, as amended.  A request sent by [castVote] that fails is not
    retried.  In a session of [Part002], when the request [castVote] sent for
    topic [t] is rejected with a status other than 422 (or with none),
    [castVote] resolves to [false] through the error branch, which logs the
    status; no error escapes; the entry for [t] stays in [autoVotedTopics].
    Whatever happens afterwards in the session, [t] is still registered, a
    further [castVote(t)] returns [false] from the duplicate check without
    sending anything, and the session has sent exactly one request for [t].
    In a session of [Part001] the same holds of a request sent by
    [castVote], whatever the error: the promise resolves to [false], the
    entry is there and stays for the rest of the session, and a further
    [castVote(t)] returns [false] and leaves the world as it is.  The
    request that the composer's [save] of [Part001] sends by itself is
    another matter: when it is rejected, its handler takes [t] out of
    [preVotedTopics] and leaves [autoVotedTopics] as it is, no error
    escapes, and, unless a visit has registered [t] in the meantime, a
    [castVote(t)] that follows sends a second request. *)
Theorem C6_failed_vote_is_not_retried :
  forall (settings : Settings) (site : option Site) (u : User) (h : Host)
         (t : Z) (src : string),
    (forall (before after : list Event) (k : nat) (src' : string) (e : AjaxError),
       let w0 := Part002.run settings site (freshWorld u h) before in
       let w1 := Part002.step settings site w0 (AjaxSettle k (inl e)) in
       let w2 := Part002.run settings site w1 after in
       pending w0 !! k = Some (CastVoteAwait t src) ->
       jqXHR_status e <> Some 422 ->
       Part002.castVoteResume settings t src (inl e) w0
         = (Normal false,
            setConsole (console w0 ++
              Part002Run.said settings "Error casting vote:" (statusArgs (Rejected e))) w0)
       /\ settled w1 = settled w0 ++ [(t, false)]
       /\ uncaught w1 = uncaught w0
       /\ autoVotedTopics w1 = autoVotedTopics w0
       /\ posts w1 = posts w0
       /\ t ∈ autoVotedTopics w1
       /\ t ∈ autoVotedTopics w2
       /\ Part002.castVoteSync settings t src' w2
          = (Normal (Some false),
             setConsole (console w2 ++
               Part002Run.said settings "Already attempted auto-vote for topic:" [t]) w2)
       /\ count_occ Z.eq_dec (posts w2) t = 1%nat)
    /\
    (forall (before after : list Event) (k : nat) (e : AjaxError),
       let w0 := Part001.run settings site (freshWorld u h) before in
       let w1 := Part001.step settings site w0 (AjaxSettle k (inl e)) in
       let w2 := Part001.run settings site w1 after in
       pending w0 !! k = Some (CastVoteAwait t src) ->
       settled w1 = settled w0 ++ [(t, false)]
       /\ uncaught w1 = uncaught w0
       /\ autoVotedTopics w1 = autoVotedTopics w0
       /\ posts w1 = posts w0
       /\ t ∈ autoVotedTopics w1
       /\ t ∈ autoVotedTopics w2
       /\ Part001.castVoteSync settings t w2 = (Normal (Some false), w2))
    /\
    (forall (w : World) (k : nat) (e : AjaxError),
       let w1 := Part001.step settings site w (AjaxSettle k (inl e)) in
       pending w !! k = Some (PreVoteAwait t) ->
       preVotedTopics w1 = preVotedTopics w ∖ {[t]}
       /\ autoVotedTopics w1 = autoVotedTopics w
       /\ posts w1 = posts w
       /\ uncaught w1 = uncaught w
       /\ (auto_vote_enabled settings = true ->
           t ∉ autoVotedTopics w ->
           fst (Part001.castVoteSync settings t w1) = Normal None
           /\ posts (snd (Part001.castVoteSync settings t w1)) = posts w1 ++ [t])).
Proof.
  intros settings site u h t src. split; [|split].
  - intros before after k src' e w0 w1 w2 Hp He.
    assert (Hn : is422 (Rejected e) = false).
    { unfold is422. simpl. destruct (jqXHR_status e) as [s|]; [|reflexivity].
      apply Z.eqb_neq. intros ->. apply He. reflexivity. }
    assert (Hd0 : Disciplined w0)
      by (apply Part002Facts.Disciplined_run_002, Disciplined_fresh).
    assert (Hin : In (CastVoteAwait t src) (pending w0)).
    { apply list_elem_of_In, list_elem_of_lookup. exists k. exact Hp. }
    assert (Ha0 : Attempted t w0).
    { split; [eapply pending_registered | eapply pending_posted]; eauto. }
    assert (Hen : auto_vote_enabled settings = true).
    { apply (Part002Run.EnabledIfActive_run settings site u h before).
      left. fold w0. intros Hnil. rewrite Hnil in Hin. destruct Hin. }
    assert (Hw1 : w1 = setSettled (settled w0 ++ [(t, false)])
                        (setConsole (console w0 ++
                           Part002Run.said settings "Error casting vote:"
                             (statusArgs (Rejected e)))
                           (setPending (delete k (pending w0)) w0))).
    { unfold w1. rewrite Part002Run.step_settle_rejected_002 with (1 := Hp).
      rewrite Hn. reflexivity. }
    assert (Ha1 : Attempted t w1) by (rewrite Hw1; exact Ha0).
    assert (Ha2 : Attempted t w2) by (apply Part002Session.Attempted_run, Ha1).
    assert (Hd2 : Disciplined w2).
    { unfold w2, w1, w0. rewrite <- Part002Session.run_snoc, <- Part002Session.run_app.
      apply Part002Facts.Disciplined_run_002, Disciplined_fresh. }
    rewrite Part002Run.castVoteResume_rejected_002, Hn.
    split; [reflexivity|].
    split; [rewrite Hw1; reflexivity|]. split; [rewrite Hw1; reflexivity|].
    split; [rewrite Hw1; reflexivity|]. split; [rewrite Hw1; reflexivity|].
    split; [apply Ha1|]. split; [apply Ha2|].
    split; [apply Part002Run.castVoteSync_duplicate_002; [exact Hen | apply Ha2]|].
    apply Disciplined_exactly_once; [exact Hd2 | apply Ha2].
  - intros before after k e w0 w1 w2 Hp.
    assert (Hin : In (CastVoteAwait t src) (pending w0)).
    { apply list_elem_of_In, list_elem_of_lookup. exists k. exact Hp. }
    assert (Hreg : t ∈ autoVotedTopics w0).
    { apply (Part001Waiting.WaitingRegistered_run settings site before
               (freshWorld u h) (Part001Waiting.WaitingRegistered_fresh u h) t src).
      exact Hin. }
    assert (Hw1 : w1 = setSettled (settled w0 ++ [(t, false)])
                         (setPending (delete k (pending w0)) w0))
      by (apply (Part001Session.step_settle_rejected_001 settings site w0 k t src e Hp)).
    assert (H1 : t ∈ autoVotedTopics w1) by (rewrite Hw1; exact Hreg).
    assert (H2 : t ∈ autoVotedTopics w2)
      by (apply Part001Session.Registered_run; exact H1).
    split; [rewrite Hw1; reflexivity|]. split; [rewrite Hw1; reflexivity|].
    split; [rewrite Hw1; reflexivity|]. split; [rewrite Hw1; reflexivity|].
    split; [exact H1|]. split; [exact H2|].
    apply Part001Facts.castVoteSync_duplicate_001. exact H2.
  - intros w k e w1 Hp.
    assert (Hw1 : w1 = setPreVoted (preVotedTopics w ∖ {[t]})
                         (setPending (delete k (pending w)) w)).
    { unfold w1. cbn [Part001.step]. rewrite Hp. unfold fire. rewrite Hp. reflexivity. }
    split; [rewrite Hw1; reflexivity|]. split; [rewrite Hw1; reflexivity|].
    split; [rewrite Hw1; reflexivity|]. split; [rewrite Hw1; reflexivity|].
    intros Hen Hn.
    rewrite Part001Facts.castVoteSync_fresh_001;
      [split; reflexivity | exact Hen | rewrite Hw1; exact Hn].
Qed.

(** C8.  [updateVoteUI(n)] never throws, whatever the page holds and
    whichever of its three targets are missing: each step is applied exactly
    when its selector resolves ([applyAt] with no handle is the identity), so
    with no target at all the page is left as found.  Calling it a second
    time with the same count changes nothing but the console: page, models,
    registry and queues are as after the first call.  In [Part001], whose
    draft does no logging, the world after two calls is the world after one. *)
Theorem C8_updateVoteUI_is_idempotent_and_never_throws :
  forall (settings : Settings) (n : Z) (w : World),
    let d := document w in
    let once := snd (Part002.updateVoteUI settings n w) in
    let twice := snd (Part002.updateVoteUI settings n once) in
    fst (Part002.updateVoteUI settings n w) = Normal tt
    /\ fst (Part002.updateVoteUI settings n once) = Normal tt
    /\ document once
       = UpdateVoteUIFacts.updateAt
           (Dom.findIndex (Dom.hasClass "vote-count-number") d)
           (Dom.findIndex (Dom.hasClass "vote-button") d)
           (Dom.findIndex (Dom.hasClass "voting-wrapper") d) n d
    /\ document twice = document once
    /\ sameButConsole twice once
    /\ sameButConsole once (setDocument (document once) w)
    /\ (Dom.findIndex (Dom.hasClass "vote-count-number") d = None ->
        Dom.findIndex (Dom.hasClass "vote-button") d = None ->
        Dom.findIndex (Dom.hasClass "voting-wrapper") d = None ->
        document once = d)
    /\ Part001.updateVoteUI n w = (Normal tt, setDocument (document once) w)
    /\ Part001.updateVoteUI n (snd (Part001.updateVoteUI n w))
       = Part001.updateVoteUI n w.
Proof.
  intros settings n w d once twice.
  pose proof (UpdateVoteUIFacts.updateVoteUI_run (Part002.log settings)
                (Part002Debug.silent_log settings)) as Hrun.
  pose proof (UpdateVoteUIFacts.updateVoteUI_document (Part002.log settings)
                (Part002Debug.silent_log settings)) as Hdoc.
  assert (H1 : document once = UpdateVoteUIFacts.updateDoc n d) by apply Hdoc.
  assert (H2 : document twice = UpdateVoteUIFacts.updateDoc n (document once)) by apply Hdoc.
  assert (Hq : Part001.updateVoteUI n w = (Normal tt, setDocument (document once) w)).
  { unfold Part001.updateVoteUI. rewrite UpdateVoteUIFacts.updateVoteUI_quiet, H1.
    reflexivity. }
  split; [apply Hrun|]. split; [apply Hrun|].
  split; [rewrite H1; apply UpdateVoteUIFacts.updateDoc_updateAt|].
  split; [rewrite H2, H1; apply UpdateVoteUIFacts.updateDoc_idem|].
  split.
  { destruct (Hrun n once) as [_ Hw]. fold twice in Hw.
    eapply sameButConsole_trans; [exact Hw|].
    rewrite H1, UpdateVoteUIFacts.updateDoc_idem, <- H1.
    unfold sameButConsole, eraseConsole. destruct once; reflexivity. }
  split.
  { destruct (Hrun n w) as [_ Hw]. fold once in Hw. rewrite H1. exact Hw. }
  split.
  { intros A B C. rewrite H1. apply UpdateVoteUIFacts.updateDoc_absent; assumption. }
  split; [exact Hq|].
  rewrite Hq. cbn [snd]. unfold Part001.updateVoteUI.
  rewrite UpdateVoteUIFacts.updateVoteUI_quiet. cbn [document setDocument].
  rewrite H1, UpdateVoteUIFacts.updateDoc_idem. reflexivity.
Qed.

(** C9.  Two runs of [Part002] over the same events, from the same world,
    under settings that differ only in [auto_vote_debug_mode], end in worlds
    that differ in the console only: the same requests were sent, the same
    values were returned by [castVote], the registry holds the same topics,
    and page, models, timers and waiting promises are equal; so it is for
    whole sessions, from the initializer on.  In the api-initializer, where
    [DEBUG] is forced on, the two runs are equal outright. *)
Theorem C9_debug_mode_changes_console_only :
  forall (s1 s2 : Settings) (site : option Site) (w : World) (evs : list Event),
    sameButDebug s1 s2 ->
    (let w1 := Part002.run s1 site w evs in
     let w2 := Part002.run s2 site w evs in
     sameButConsole w1 w2
     /\ posts w1 = posts w2
     /\ settled w1 = settled w2
     /\ uncaught w1 = uncaught w2
     /\ autoVotedTopics w1 = autoVotedTopics w2
     /\ pending w1 = pending w2
     /\ timers w1 = timers w2
     /\ document w1 = document w2
     /\ topicModel w1 = topicModel w2
     /\ currentUser w1 = currentUser w2)
    /\ (forall h, sameRuntimeButConsole (Part002.session s1 site h evs)
                                        (Part002.session s2 site h evs))
    /\ AutoVoteOwnTopic.run s1 w evs = AutoVoteOwnTopic.run s2 w evs
    /\ (forall h, AutoVoteOwnTopic.session s1 h evs = AutoVoteOwnTopic.session s2 h evs).
Proof.
  intros s1 s2 site w evs Hsame. split; [|split; [|split]].
  - pose proof (Part002Debug.sim_run s1 s2 Hsame site evs w w (sameButConsole_refl w)) as H.
    cbv zeta. split; [exact H|].
    repeat split; apply sameButConsole_read; auto; intros w0; reflexivity.
  - intros h. apply session_debug_002, Hsame.
  - apply AutoVoteOwnTopicDebug.run_debug_irrelevant, Hsame.
  - intros h. apply AutoVoteOwnTopicDebug.session_debug_irrelevant, Hsame.
Qed.

(** C1.  A vote is attempted for the topic the user arrived on exactly when
    every check passes.  In [Part002] the condition of the navigation
    callback is true iff the topic's [user_id] is the current user's id,
    [can_vote] is true, [user_voted] is false and [isCategoryAllowed] accepts
    the category; for a topic not yet in the registry the callback sends the
    vote request iff, in addition, [auto_vote_enabled] is true (the first
    guard of [castVote]).  In the api-initializer the same holds of
    [checkAndVote], with its own [isCategoryAllowed].  Every check returns a
    boolean, nothing is thrown, and when a check fails no request leaves. *)
Theorem C1_vote_attempted_iff_every_check_passes :
  forall (settings : Settings) (site : option Site) (w : World) (topic : Topic) (src : string),
    topicModel w = Some topic ->
    topic_id topic ∉ autoVotedTopics w ->
    let me := uid (currentUser w) in
    let t := topic_id topic in
    (let allowed := fst (Part002.isCategoryAllowed settings site (category_id topic) w) in
     let guard := fst (Part002.ownUnvotedAllowed settings site topic w) in
     let w' := runHandler (Part002.visitCheck settings site) w in
     (exists b, allowed = Normal b)
     /\ (exists b, guard = Normal b)
     /\ (guard = Normal true <->
         user_id topic = me /\ can_vote topic = true /\ user_voted topic = false
         /\ allowed = Normal true)
     /\ (posts w' = posts w ++ [t] <->
         auto_vote_enabled settings = true
         /\ user_id topic = me /\ can_vote topic = true /\ user_voted topic = false
         /\ allowed = Normal true)
     /\ (posts w' = posts w ++ [t] \/ posts w' = posts w)
     /\ uncaught w' = uncaught w)
    /\
    (let allowed := fst (AutoVoteOwnTopic.isCategoryAllowed settings (category_id topic) w) in
     let w' := runHandler (AutoVoteOwnTopic.checkAndVote settings (Some topic) src) w in
     (exists b, allowed = Normal b)
     /\ (posts w' = posts w ++ [t] <->
         auto_vote_enabled settings = true
         /\ user_id topic = me /\ can_vote topic = true /\ user_voted topic = false
         /\ allowed = Normal true)
     /\ (posts w' = posts w ++ [t] \/ posts w' = posts w)
     /\ uncaught w' = uncaught w).
Proof.
  intros settings site w topic src Ht Hn me t. split.
  - cbv zeta.
    rewrite Part002Checks.isCategoryAllowed_run_002, Part002Checks.ownUnvotedAllowed_run.
    cbn [fst]. fold me.
    assert (Hfields : Part002Checks.ownUnvoted me topic = true <->
              user_id topic = me /\ can_vote topic = true /\ user_voted topic = false).
    { unfold Part002Checks.ownUnvoted.
      rewrite !andb_true_iff, Z.eqb_eq, negb_true_iff. tauto. }
    split; [eauto|]. split; [eauto|]. split.
    { split.
      - intros H. injection H as H. apply andb_true_iff in H. destruct H as [H1 H2].
        apply Hfields in H1. rewrite H2. tauto.
      - intros (H1 & H2 & H3 & H4). injection H4 as H4.
        f_equal. apply andb_true_iff. split; [apply Hfields; tauto | exact H4]. }
    destruct (Part002Checks.ownUnvoted me topic
              && Part002Checks.categoryAllowed settings site (category_id topic)) eqn:Hg.
    + pose proof Hg as Hg'. apply andb_true_iff in Hg'. destruct Hg' as [Ho Hc].
      apply Hfields in Ho.
      unfold runHandler.
      rewrite (Part002Checks.visitCheck_calls_castVote settings site topic w Ht Hg).
      destruct (auto_vote_enabled settings) eqn:He.
      * rewrite Part002Checks.castVote_fresh by (assumption || exact Hn).
        cbn [posts setPending setPosts setConsole setAutoVoted uncaught]. fold t.
        rewrite Hc. repeat split; auto; tauto.
      * rewrite Part002Checks.castVote_disabled by assumption.
        cbn [posts setSettled setConsole uncaught].
        split; [|split; [right|]; reflexivity].
        split; [intros H; exfalso; eapply app_singleton_neq; symmetry; exact H|].
        intros [H _]; discriminate.
    + unfold runHandler.
      rewrite (Part002Checks.visitCheck_skips settings site topic w Ht Hg).
      cbn [posts setConsole uncaught].
      split; [|split; [right|]; reflexivity].
      split; [intros H; exfalso; eapply app_singleton_neq; symmetry; exact H|].
      intros (_ & H1 & H2 & H3 & H4). injection H4 as H4.
      apply andb_false_iff in Hg. destruct Hg as [Hg|Hg]; [|congruence].
      assert (Part002Checks.ownUnvoted me topic = true) by (apply Hfields; tauto).
      congruence.
  - cbv zeta.
    rewrite AutoVoteOwnTopicChecks.isCategoryAllowed_run_main. cbn [fst].
    destruct (AutoVoteOwnTopicChecks.checkAndVote_effect settings topic src w Hn)
      as (Hv & Hu & _).
    fold me in Hv.
    assert (Hp : AutoVoteOwnTopicChecks.passes settings me topic = true <->
              auto_vote_enabled settings = true
              /\ user_id topic = me /\ can_vote topic = true /\ user_voted topic = false
              /\ AutoVoteOwnTopicChecks.categoryAllowed settings (category_id topic) = true).
    { unfold AutoVoteOwnTopicChecks.passes.
      rewrite !andb_true_iff, Z.eqb_eq, negb_true_iff. tauto. }
    split; [eauto|].
    destruct (AutoVoteOwnTopicChecks.passes settings me topic) eqn:Hpass.
    + unfold registryView in Hv. injection Hv as _ _ _ _ Hposts.
      rewrite Hposts. fold t.
      destruct Hp as [Hp _]. specialize (Hp eq_refl).
      destruct Hp as (H1 & H2 & H3 & H4 & H5). rewrite H5.
      repeat split; auto.
    + unfold registryView in Hv. injection Hv as _ _ _ _ Hposts.
      rewrite Hposts.
      split; [|split; [right; reflexivity | exact Hu]].
      split; [intros H; exfalso; eapply app_singleton_neq; symmetry; exact H|].
      intros (H1 & H2 & H3 & H4 & H5). injection H5 as H5.
      destruct Hp as [_ Hp]. discriminate Hp. tauto.
Qed.

(** C3, as amended.  Under a policy with at least one token, for a category
    id that is not among the policy's numeric ids, [isCategoryAllowed]
    ([Part002], and the same test in [Part001]) returns [true] exactly when
    the id resolves to a category record whose slug, or name, or -- for a
    record whose slug is not empty -- "parentSlug/slug" path equals some
    policy string up to case; it returns [false] when the id does not resolve
    or nothing matches.  [isCategoryAllowed] of the api-initializer and of
    [Part000] matches no strings: for such an id it returns [false] when the
    policy has a numeric id and [true] when it has none. *)
Theorem C3_string_match_decides_non_numeric_ids :
  forall (settings : Settings) (site : option Site) (c : Z) (w : World),
    Policy.categorySettings settings <> [] ->
    Js.numbersInclude (Policy.numericIds settings) c = false ->
    let matched :=
      exists cat, Policy.findCategory site c = Some cat
                  /\ matchesPolicyString (Policy.categorySettings settings) cat in
    (fst (Part002.isCategoryAllowed settings site c w) = Normal true <-> matched)
    /\ (fst (Part002.isCategoryAllowed settings site c w) = Normal false <-> ~ matched)
    /\ (Policy.findCategory site c = None ->
        fst (Part002.isCategoryAllowed settings site c w) = Normal false)
    /\ (Part001.isCategoryAllowed settings site c = true <-> matched)
    /\ fst (AutoVoteOwnTopic.isCategoryAllowed settings c w)
       = Normal (match Policy.numericIds settings with [] => true | _ :: _ => false end)
    /\ Part000.isCategoryAllowed settings c
       = match Policy.numericIds settings with [] => true | _ :: _ => false end.
Proof.
  intros settings site c w Hne Hnum matched.
  destruct (PolicyMatch.categorySettings_nonempty settings Hne) as [H1 H2].
  assert (Hold : AutoVoteOwnTopicChecks.categoryAllowed settings c
                 = match Policy.numericIds settings with [] => true | _ :: _ => false end
                 /\ Part000.isCategoryAllowed settings c
                    = match Policy.numericIds settings with [] => true | _ :: _ => false end).
  { destruct (numericOnly_allowed settings c H1) as [Ha Hb]. rewrite Hb, Ha.
    destruct (Policy.numericIds settings); [split; reflexivity|].
    rewrite Hnum. split; reflexivity. }
  destruct Hold as [Hmain H000].
  rewrite AutoVoteOwnTopicChecks.isCategoryAllowed_run_main. cbn [fst].
  rewrite Hmain, H000.
  pose proof (PolicyMatch.matchByIdOrSlug_iff settings site c Hnum) as Hiff.
  fold matched in Hiff.
  rewrite Part002Checks.isCategoryAllowed_run_002. cbn [fst].
  unfold Part002Checks.categoryAllowed, Part001.isCategoryAllowed. rewrite H1, H2.
  destruct (Policy.matchByIdOrSlug settings site c) eqn:Hm.
  - assert (Hyes : matched) by (apply Hiff; reflexivity).
    split; [tauto|]. split; [split; [discriminate | tauto]|].
    split; [|split; [tauto | split; reflexivity]].
    intros Hnone. destruct Hyes as (cat & Hc & _). congruence.
  - assert (Hnot : ~ matched) by (intros Hx; apply Hiff in Hx; discriminate).
    split; [split; [discriminate | tauto]|]. split; [tauto|].
    split; [reflexivity|]. split; [split; [discriminate | tauto]|].
    split; reflexivity.
Qed.

(** C4.  With the setting absent or empty every category is allowed, in
    [Part002] and in the api-initializer.  With the setting "5|9" both allow
    categories 5 and 9; the api-initializer denies every other id, 7 among
    them; [Part002] denies every other id that has no string match, that is,
    one that does not resolve to a category record matching "5" or "9" by
    slug, name or path. *)
Theorem C4_empty_policy_allows_all_and_numeric_list_selects :
  forall (settings : Settings) (site : option Site) (w : World),
    ((auto_vote_categories settings = None \/ auto_vote_categories settings = Some "") ->
     forall c,
       fst (Part002.isCategoryAllowed settings site c w) = Normal true
       /\ fst (AutoVoteOwnTopic.isCategoryAllowed settings c w) = Normal true)
    /\
    (auto_vote_categories settings = Some "5|9" ->
     fst (Part002.isCategoryAllowed settings site 5 w) = Normal true
     /\ fst (Part002.isCategoryAllowed settings site 9 w) = Normal true
     /\ (forall c, c <> 5 -> c <> 9 ->
           (forall cat, Policy.findCategory site c = Some cat ->
                        ~ matchesPolicyString ["5"; "9"] cat) ->
           fst (Part002.isCategoryAllowed settings site c w) = Normal false)
     /\ ((forall cat, Policy.findCategory site 7 = Some cat ->
                      ~ matchesPolicyString ["5"; "9"] cat) ->
         fst (Part002.isCategoryAllowed settings site 7 w) = Normal false)
     /\ fst (AutoVoteOwnTopic.isCategoryAllowed settings 5 w) = Normal true
     /\ fst (AutoVoteOwnTopic.isCategoryAllowed settings 9 w) = Normal true
     /\ fst (AutoVoteOwnTopic.isCategoryAllowed settings 7 w) = Normal false
     /\ (forall c, c <> 5 -> c <> 9 ->
           fst (AutoVoteOwnTopic.isCategoryAllowed settings c w) = Normal false))
    /\
    (Policy.categorySettings settings <> [] ->
     forall c,
       (Js.numbersInclude (Policy.numericIds settings) c = true ->
        fst (Part002.isCategoryAllowed settings site c w) = Normal true)
       /\ (Js.numbersInclude (Policy.numericIds settings) c = false ->
           (forall cat, Policy.findCategory site c = Some cat ->
                        ~ matchesPolicyString (Policy.categorySettings settings) cat) ->
           fst (Part002.isCategoryAllowed settings site c w) = Normal false))
    /\
    (Policy.noCategories settings = false -> Policy.allowedIds settings <> [] ->
     forall c,
       fst (AutoVoteOwnTopic.isCategoryAllowed settings c w)
       = Normal (Js.numbersInclude (Policy.allowedIds settings) c)).
Proof.
  intros settings site w. split; [|split; [|split]].
  - intros Hempty c.
    rewrite Part002Checks.isCategoryAllowed_run_002, AutoVoteOwnTopicChecks.isCategoryAllowed_run_main.
    unfold Part002Checks.categoryAllowed, AutoVoteOwnTopicChecks.categoryAllowed,
      Policy.noCategories.
    destruct Hempty as [-> | ->]; split; reflexivity.
  - intros Hraw.
    assert (Hcs : Policy.categorySettings settings = ["5"; "9"])
      by (unfold Policy.categorySettings; rewrite Hraw; reflexivity).
    assert (Hids : Policy.numericIds settings = [5; 9])
      by (unfold Policy.numericIds; rewrite Hcs; reflexivity).
    assert (Hallowed : Policy.allowedIds settings = [5; 9])
      by (unfold Policy.allowedIds; rewrite Hraw; reflexivity).
    assert (Hno : Policy.noCategories settings = false)
      by (unfold Policy.noCategories; rewrite Hraw; reflexivity).
    assert (Hother : forall c, c <> 5 -> c <> 9 -> Js.numbersInclude [5; 9] c = false).
    { intros c H5 H9. unfold Js.numbersInclude. cbn [existsb].
      apply Z.eqb_neq in H5, H9. rewrite H5, H9. reflexivity. }
    assert (Hdeny : forall c, c <> 5 -> c <> 9 ->
              (forall cat, Policy.findCategory site c = Some cat ->
                           ~ matchesPolicyString ["5"; "9"] cat) ->
              fst (Part002.isCategoryAllowed settings site c w) = Normal false).
    { intros c H5 H9 Hnomatch.
      rewrite Part002Checks.isCategoryAllowed_run_002. cbn [fst].
      unfold Part002Checks.categoryAllowed. rewrite Hno, Hcs. cbn [length Nat.eqb].
      destruct (Policy.matchByIdOrSlug settings site c) eqn:Hm; [|reflexivity].
      exfalso.
      apply (PolicyMatch.matchByIdOrSlug_iff settings site c) in Hm;
        [|rewrite Hids; apply Hother; assumption].
      destruct Hm as (cat & Hfind & Hmatch). rewrite Hcs in Hmatch.
      exact (Hnomatch cat Hfind Hmatch). }
    assert (Hnum002 : forall c, Js.numbersInclude [5; 9] c = true ->
              fst (Part002.isCategoryAllowed settings site c w) = Normal true).
    { intros c Hc. rewrite Part002Checks.isCategoryAllowed_run_002.
      unfold Part002Checks.categoryAllowed, Policy.matchByIdOrSlug.
      rewrite Hno, Hcs, Hids, Hc. reflexivity. }
    assert (Hmain : forall c,
              fst (AutoVoteOwnTopic.isCategoryAllowed settings c w)
              = Normal (Js.numbersInclude [5; 9] c)).
    { intros c. rewrite AutoVoteOwnTopicChecks.isCategoryAllowed_run_main.
      unfold AutoVoteOwnTopicChecks.categoryAllowed.
      rewrite Hno, Hallowed. reflexivity. }
    split; [apply Hnum002; reflexivity|]. split; [apply Hnum002; reflexivity|].
    split; [exact Hdeny|].
    split; [apply Hdeny; discriminate|].
    split; [apply Hmain|]. split; [apply Hmain|]. split; [apply Hmain|].
    intros c H5 H9. rewrite Hmain, Hother by assumption. reflexivity.
  - intros Hne c.
    destruct (PolicyMatch.categorySettings_nonempty settings Hne) as [H1 H2].
    rewrite Part002Checks.isCategoryAllowed_run_002. cbn [fst].
    unfold Part002Checks.categoryAllowed. rewrite H1, H2. split.
    + intros Hnum. unfold Policy.matchByIdOrSlug. rewrite Hnum.
      assert (Hlen : (0 <? length (Policy.numericIds settings))%nat = true).
      { destruct (Policy.numericIds settings); [discriminate | reflexivity]. }
      rewrite Hlen. reflexivity.
    + intros Hnum Hnomatch.
      destruct (Policy.matchByIdOrSlug settings site c) eqn:Hm; [|reflexivity].
      exfalso.
      apply (PolicyMatch.matchByIdOrSlug_iff settings site c Hnum) in Hm.
      destruct Hm as (cat & Hfind & Hmatch). exact (Hnomatch cat Hfind Hmatch).
  - intros Hno Hids c.
    rewrite AutoVoteOwnTopicChecks.isCategoryAllowed_run_main. cbn [fst].
    unfold AutoVoteOwnTopicChecks.categoryAllowed. rewrite Hno.
    destruct (Policy.allowedIds settings); [congruence | reflexivity].
Qed.

(** C7.  Navigation in [Part002].  The paths [url.match] accepts are those
    of [TopicPath]: "/t/", a slug segment, a slash, a digit.  A path that is
    not one changes nothing.  A path that matches schedules one
    callback and does nothing else.  When that callback fires, with no topic
    in the topic controller it only leaves the timer queue; with a topic
    whose id is the number in the path, whose creator is the current user,
    which can be voted on, is not voted on and is in an allowed category, it
    is exactly one call [castVote(id, "onPageChange")] (after the lines it
    logs), so that one request for that id leaves when the component is
    enabled and the id is new to the registry.  In the api-initializer the
    callback is one call of [checkAndVote] in the same way. *)
Theorem C7_navigation_triggers_exactly_one_attempt :
  forall (settings : Settings) (site : option Site) (url digits : string)
         (topic : Topic) (w w2 : World) (k : nat),
    Js.matchTopic url = Some digits ->
    Js.parseInt digits = Some (topic_id topic) ->
    timers w2 !! k = Some VisitCheck ->
    user_id topic = uid (currentUser w2) ->
    can_vote topic = true ->
    user_voted topic = false ->
    let t := topic_id topic in
    let queued := setTimers (delete k (timers w2)) w2 in
    (TopicPath url
     /\ (forall url' w', ~ TopicPath url' ->
        Part002.step settings site w' (PageChange url') = w')
     /\ Part002.step settings site w (PageChange url) = setTimers (timers w ++ [VisitCheck]) w
     /\ (topicModel w2 = None -> Part002.step settings site w2 (TimerFire k) = queued)
     /\ (topicModel w2 = Some topic ->
         fst (Part002.isCategoryAllowed settings site (category_id topic) w2) = Normal true ->
         (exists lines,
            Part002.step settings site w2 (TimerFire k)
            = runHandler (Part002.castVote settings t "onPageChange")
                         (setConsole (console w2 ++ lines) queued))
         /\ (auto_vote_enabled settings = true -> t ∉ autoVotedTopics w2 ->
             posts (Part002.step settings site w2 (TimerFire k)) = posts w2 ++ [t]
             /\ pending (Part002.step settings site w2 (TimerFire k))
                = pending w2 ++ [CastVoteAwait t "onPageChange"])))
    /\
    ((forall url' w', ~ TopicPath url' ->
        registryView (AutoVoteOwnTopic.step settings w' (PageChange url')) = registryView w')
     /\ timers (AutoVoteOwnTopic.step settings w (PageChange url)) = timers w ++ [VisitCheck]
     /\ posts (AutoVoteOwnTopic.step settings w (PageChange url)) = posts w
     /\ (topicModel w2 = None ->
         registryView (AutoVoteOwnTopic.step settings w2 (TimerFire k)) = registryView queued)
     /\ (topicModel w2 = Some topic ->
         fst (AutoVoteOwnTopic.isCategoryAllowed settings (category_id topic) w2) = Normal true ->
         AutoVoteOwnTopic.step settings w2 (TimerFire k)
         = runHandler (AutoVoteOwnTopic.checkAndVote settings (Some topic) "onPageChange")
             (setConsole (console w2 ++ [ConsoleLog "Topic controller model:" []]) queued)
         /\ (auto_vote_enabled settings = true -> t ∉ autoVotedTopics w2 ->
             posts (AutoVoteOwnTopic.step settings w2 (TimerFire k)) = posts w2 ++ [t]))).
Proof.
  intros settings site url digits topic w w2 k Hm Hid Hk Hu Hc Hv t queued. split.
  - split; [apply matchTopic_iff_TopicPath; eauto|].
    split; [intros; apply Part002Navigation.pageChange_no_match_002, matchTopic_None_iff;
            assumption|].
    split; [eapply Part002Navigation.pageChange_match_002; exact Hm|].
    split; [intros; apply Part002Navigation.timer_no_topic_002; assumption|].
    intros Ht Ha.
    rewrite Part002Checks.isCategoryAllowed_run_002 in Ha. cbn [fst] in Ha. injection Ha as Ha.
    assert (Hg : Part002Checks.ownUnvoted (uid (currentUser w2)) topic
                 && Part002Checks.categoryAllowed settings site (category_id topic) = true).
    { unfold Part002Checks.ownUnvoted. rewrite Hu, Z.eqb_refl, Hc, Hv, Ha. reflexivity. }
    rewrite (Part002Navigation.timer_calls_castVote settings site k topic w2 Hk Ht Hg).
    split; [eexists; reflexivity|].
    intros He Hn. unfold runHandler.
    rewrite Part002Checks.castVote_fresh by (assumption || exact Hn).
    split; reflexivity.
  - split.
    { intros url' w' H. apply matchTopic_None_iff in H.
      rewrite AutoVoteOwnTopicNavigation.pageChange_no_match_main by exact H.
      reflexivity. }
    rewrite (AutoVoteOwnTopicNavigation.pageChange_match_main settings url digits w Hm).
    split; [reflexivity|]. split; [reflexivity|].
    split.
    { intros Ht. rewrite AutoVoteOwnTopicNavigation.timer_no_topic_main by assumption. reflexivity. }
    intros Ht Ha.
    rewrite AutoVoteOwnTopicChecks.isCategoryAllowed_run_main in Ha. cbn [fst] in Ha.
    injection Ha as Ha.
    rewrite (AutoVoteOwnTopicNavigation.timer_calls_checkAndVote settings k topic w2 Hk Ht).
    split; [reflexivity|].
    intros He Hn.
    set (w3 := setConsole (console w2 ++ [ConsoleLog "Topic controller model:" []]) queued).
    destruct (AutoVoteOwnTopicChecks.checkAndVote_effect settings topic "onPageChange" w3 Hn)
      as (Hview & _ & _).
    assert (Hp : AutoVoteOwnTopicChecks.passes settings (uid (currentUser w3)) topic = true).
    { unfold AutoVoteOwnTopicChecks.passes. cbn [w3 currentUser setConsole].
      change (currentUser queued) with (currentUser w2).
      rewrite He, Hu, Z.eqb_refl, Hc, Hv, Ha. reflexivity. }
    rewrite Hp in Hview. unfold registryView in Hview.
    injection Hview as _ _ _ _ Hposts. exact Hposts.
Qed.

(** C2, as amended.  In [Part002], in [Part000] (creation notification and
    navigation) and in the api-initializer (all four of its triggers), every
    trigger goes through [castVote], and whatever the events of a session and
    their order, at most one vote request is sent per topic id.  [castVote]
    itself, in every draft, looks the topic up in [autoVotedTopics] before
    anything else it does with it: when the topic is there it returns [false]
    and sends nothing; when it is new (and the component enabled) it inserts
    it and sends one request.  [Part001] keeps the bound in sessions where
    the composer's [save] is not involved; the callback of its [save] sends
    the vote without [castVote], recording the topic in [preVotedTopics]
    only, and the rejection handler of that request takes it out again. *)
Theorem C2_castVote_sends_at_most_one_request_per_topic :
  forall (settings : Settings) (site : option Site) (u : User) (h : Host)
         (evs : list Event) (t : Z),
    (count_occ Z.eq_dec (posts (Part002.run settings site (freshWorld u h) evs)) t <= 1)%nat
    /\ (count_occ Z.eq_dec (posts (Part000.run settings (freshWorld u h) evs)) t <= 1)%nat
    /\ (count_occ Z.eq_dec (posts (AutoVoteOwnTopic.run settings (freshWorld u h) evs)) t <= 1)%nat
    /\ (Forall Part001Facts.notComposerSave evs ->
        (count_occ Z.eq_dec (posts (Part001.run settings site (freshWorld u h) evs)) t <= 1)%nat)
    /\ (forall (w : World) (src : string),
          t ∈ autoVotedTopics w ->
          (fst (Part002.castVoteSync settings t src w) = Normal (Some false)
           /\ registryView (snd (Part002.castVoteSync settings t src w)) = registryView w)
          /\ (fst (Part000.castVoteSync settings t src w) = Normal (Some false)
              /\ registryView (snd (Part000.castVoteSync settings t src w)) = registryView w)
          /\ (fst (AutoVoteOwnTopic.castVoteSync settings t src w) = Normal (Some false)
              /\ registryView (snd (AutoVoteOwnTopic.castVoteSync settings t src w))
                 = registryView w)
          /\ Part001.castVoteSync settings t w = (Normal (Some false), w))
    /\ (forall (w : World) (src : string),
          auto_vote_enabled settings = true ->
          t ∉ autoVotedTopics w ->
          let sent w' :=
            autoVotedTopics w' = {[t]} ∪ autoVotedTopics w
            /\ posts w' = posts w ++ [t] in
          sent (snd (Part002.castVoteSync settings t src w))
          /\ sent (snd (Part000.castVoteSync settings t src w))
          /\ sent (snd (AutoVoteOwnTopic.castVoteSync settings t src w))
          /\ sent (snd (Part001.castVoteSync settings t w)))
    /\ (forall (w : World),
          Part001.saveThen (Some t) w
          = (Normal tt,
             setPending (pending w ++ [PreVoteAwait t])
               (setPosts (posts w ++ [t]) (setPreVoted ({[t]} ∪ preVotedTopics w) w))))
    /\ (forall (w : World) (e : AjaxError),
          Part001.preVoteSettled t (inl e) w
          = (Normal tt, setPreVoted (preVotedTopics w ∖ {[t]}) w)).
Proof.
  intros settings site u h evs t.
  split; [apply Disciplined_at_most_once, Part002Facts.Disciplined_run_002, Disciplined_fresh|].
  split; [apply Disciplined_at_most_once, Part000Facts.Disciplined_run_000, Disciplined_fresh|].
  split; [apply Disciplined_at_most_once, AutoVoteOwnTopicFacts.Disciplined_run_main,
          Disciplined_fresh|].
  split.
  { intros Hnav. apply Disciplined_at_most_once.
    apply Part001Facts.nav_disciplined.
    apply Part001Facts.NavigationOnly_run; [exact Hnav | apply Part001Facts.NavigationOnly_fresh]. }
  split; [|split; [|split; reflexivity]].
  - intros w src Hin. split; [|split; [|split]].
    + destruct (auto_vote_enabled settings) eqn:He.
      * rewrite Part002Run.castVoteSync_duplicate_002 by assumption. split; reflexivity.
      * rewrite Part002Run.castVoteSync_disabled_002 by assumption. split; reflexivity.
    + apply Part000Run.castVoteSync_returns_false_000. right. exact Hin.
    + rewrite AutoVoteOwnTopicRun.castVoteSync_duplicate_main by exact Hin. split; reflexivity.
    + apply Part001Facts.castVoteSync_duplicate_001, Hin.
  - intros w src He Hn sent. unfold sent.
    rewrite Part002Run.castVoteSync_fresh_002 by assumption.
    rewrite Part000Run.castVoteSync_fresh_000 by assumption.
    rewrite AutoVoteOwnTopicRun.castVoteSync_fresh_main by assumption.
    rewrite Part001Facts.castVoteSync_fresh_001 by assumption.
    repeat split.
Qed.

(** C10.  With nobody logged in the initializer of every draft returns
    before it creates its sets or registers a handler: the session stays
    inactive whatever events follow, there is no registry, the page's request
    log is as it was, and the page itself changes only by what the host does
    to it.  The api-initializer logs four lines before it leaves; the other
    drafts log nothing. *)
Theorem C10_no_user_no_trigger_is_registered :
  forall (settings : Settings) (site : option Site) (h : Host) (evs : list Event),
    loggedIn h = None ->
    let untouched := fold_left hostOnly evs h in
    Part002.apiInitializer settings h = Inactive h
    /\ Part001.apiInitializer h = Inactive h
    /\ Part000.apiInitializer settings h = Inactive h
    /\ Part002.session settings site h evs = Inactive untouched
    /\ Part001.session settings site h evs = Inactive untouched
    /\ Part000.session settings h evs = Inactive untouched
    /\ AutoVoteOwnTopic.session settings h evs
       = Inactive (hostLog "Exiting - no user logged in" []
                    (hostLog "Current user:" []
                      (hostLog "Settings:" []
                        (hostLog "=== INITIALIZING AUTO VOTE COMPONENT ===" [] untouched))))
    /\ hostPosts untouched = hostPosts h
    /\ (forallb (fun ev => negb (isHostChange ev)) evs = true -> untouched = h).
Proof.
  intros settings site h evs Hnone untouched.
  assert (H2 : Part002.apiInitializer settings h = Inactive h)
    by (unfold Part002.apiInitializer; rewrite Hnone; reflexivity).
  assert (H1 : Part001.apiInitializer h = Inactive h)
    by (unfold Part001.apiInitializer; rewrite Hnone; reflexivity).
  assert (H0 : Part000.apiInitializer settings h = Inactive h)
    by (unfold Part000.apiInitializer; rewrite Hnone; reflexivity).
  split; [exact H2|]. split; [exact H1|]. split; [exact H0|].
  split; [unfold Part002.session; rewrite H2; apply deliver_inactive|].
  split; [unfold Part001.session; rewrite H1; apply deliver_inactive|].
  split; [unfold Part000.session; rewrite H0; apply deliver_inactive|].
  split.
  { unfold AutoVoteOwnTopic.session, AutoVoteOwnTopic.apiInitializer, AutoVoteOwnTopic.preamble.
    cbn [AutoVoteOwnTopic.DEBUG orb]. cbn [loggedIn hostLog]. rewrite Hnone.
    rewrite deliver_inactive, !hostOnly_hostLog. reflexivity. }
  split; [apply hostOnly_posts|].
  apply hostOnly_without_hostChange.
Qed.

(** * The claims on the sample session *)

(** C1 on Alice's arrival: every check passes and the request leaves. *)
Lemma C1_witness_own_topic_is_voted :
  posts (runHandler (Part002.visitCheck Sample.enabledAll None) Sample.arrived)
  = posts Sample.arrived ++ [1234].
Proof.
  destruct (C1_vote_attempted_iff_every_check_passes
              Sample.enabledAll None Sample.arrived Sample.ownTopic "onPageChange"
              eq_refl (not_elem_of_empty 1234))
    as [(_ & _ & _ & Hiff & _) _].
  apply Hiff. repeat split; reflexivity.
Defined.

(** C2 fails in [Part001]: the pre-vote of the composer fails, the visit
    votes again, and two requests have left for topic 1234. *)
Lemma C2_counterexample_prevote_then_visit :
  count_occ Z.eq_dec
    (posts (Part001.run Sample.enabledOnVisit None
              (freshWorld Sample.alice Sample.emptyPage) Sample.failedPreVoteThenVisit))
    1234 = 2%nat.
Proof. vm_compute. reflexivity. Qed.

(** C3 as stated fails in [Part002] on a category whose slug is empty: its
    path "p/" equals the policy string "p/", and [isCategoryAllowed] returns
    [false].  It fails in the api-initializer under the policy "support": no
    category record is looked up, let alone matched, and [isCategoryAllowed]
    returns [true]. *)
Lemma C3_counterexample_empty_slug :
  (Policy.categorySettings Sample.pathOnly = ["p/"]
   /\ Js.numbersInclude (Policy.numericIds Sample.pathOnly) 7 = false
   /\ Policy.findCategory Sample.sluglessDirectory 7 = Some Sample.slugless
   /\ matchesSomePolicyString (Policy.categorySettings Sample.pathOnly) Sample.slugless
   /\ fst (Part002.isCategoryAllowed Sample.pathOnly Sample.sluglessDirectory 7
             (freshWorld Sample.alice Sample.emptyPage)) = Normal false)
  /\
  (Policy.categorySettings Sample.supportOnly = ["support"]
   /\ Js.numbersInclude (Policy.numericIds Sample.supportOnly) 7 = false
   /\ Policy.findCategory None 7 = None
   /\ fst (AutoVoteOwnTopic.isCategoryAllowed Sample.supportOnly 7
             (freshWorld Sample.alice Sample.emptyPage)) = Normal true).
Proof.
  split.
  - split; [reflexivity|]. split; [reflexivity|]. split; [reflexivity|]. split.
    + exists "p/". split; [left; reflexivity|].
      right; right. exists "", (mkParent "p"). repeat split.
    + reflexivity.
  - repeat split.
Qed.

(** C3 on a policy by name: category 7, slug "Support", is allowed. *)
Lemma C3_witness_support_is_allowed :
  fst (Part002.isCategoryAllowed Sample.supportOnly Sample.directory 7
         (freshWorld Sample.alice Sample.emptyPage)) = Normal true.
Proof.
  assert (Hne : Policy.categorySettings Sample.supportOnly <> []) by (vm_compute; discriminate).
  destruct (C3_string_match_decides_non_numeric_ids
              Sample.supportOnly Sample.directory 7
              (freshWorld Sample.alice Sample.emptyPage) Hne eq_refl)
    as (Hiff & _).
  apply Hiff. exists Sample.support. split; [reflexivity|].
  exists "support". split; [left; reflexivity|].
  left. exists "Support". split; reflexivity.
Defined.

(** C5 on the sample: the request for 1234 comes back 422. *)
Lemma C5_witness_422_on_sample :
  settled (Part002.step Sample.enabledAll None Sample.voting
             (AjaxSettle 0 (inl Sample.unprocessable)))
  = settled Sample.voting ++ [(1234, false)].
Proof.
  assert (Hp : pending Sample.voting !! 0%nat = Some (CastVoteAwait 1234 "onPageChange"))
    by (vm_compute; reflexivity).
  destruct (C5_status_422_resolves_false_quietly
              Sample.enabledAll None Sample.voting 0 1234 "onPageChange"
              Sample.unprocessable eq_refl Hp)
    as [(_ & Hs & _) _].
  exact Hs.
Defined.

(** C6 as stated fails in [Part001] on the request the composer's [save]
    sends: it is rejected with status 500, topic 1234 is then in neither
    set, and the [castVote(1234)] that follows sends a second request. *)
Lemma C6_counterexample_failed_prevote_is_retried :
  posts Sample.afterFailedPreVote = [1234]
  /\ bool_decide (1234 ∈ autoVotedTopics Sample.afterFailedPreVote) = false
  /\ bool_decide (1234 ∈ preVotedTopics Sample.afterFailedPreVote) = false
  /\ fst (Part001.castVoteSync Sample.enabledOnVisit 1234 Sample.afterFailedPreVote)
     = Normal None
  /\ posts (snd (Part001.castVoteSync Sample.enabledOnVisit 1234
                   Sample.afterFailedPreVote))
     = [1234; 1234].
Proof. vm_compute. repeat split; reflexivity. Qed.

(** C6 on the sample: the request fails with 500, Alice comes back to the
    topic, and still one request has been sent. *)
Lemma C6_witness_500_then_second_visit :
  count_occ Z.eq_dec
    (posts (Part002.run Sample.enabledAll None
              (Part002.step Sample.enabledAll None
                 (Part002.run Sample.enabledAll None
                    (freshWorld Sample.alice Sample.emptyPage) Sample.arrival)
                 (AjaxSettle 0 (inl Sample.serverError)))
              Sample.arrival))
    1234 = 1%nat.
Proof.
  assert (Hp : pending (Part002.run Sample.enabledAll None
                          (freshWorld Sample.alice Sample.emptyPage) Sample.arrival)
               !! 0%nat = Some (CastVoteAwait 1234 "onPageChange"))
    by (vm_compute; reflexivity).
  assert (He : jqXHR_status Sample.serverError <> Some 422) by discriminate.
  destruct (C6_failed_vote_is_not_retried
              Sample.enabledAll None Sample.alice Sample.emptyPage 1234 "onPageChange")
    as [H002 _].
  destruct (H002 Sample.arrival Sample.arrival 0%nat "onPageChange"
              Sample.serverError Hp He)
    as (_ & _ & _ & _ & _ & _ & _ & _ & Hcount).
  exact Hcount.
Defined.

(** C7 on the sample: the scheduled callback sends the request for 1234. *)
Lemma C7_witness_arrival_sends_one_request :
  posts (Part002.step Sample.enabledAll None Sample.scheduled (TimerFire 0))
  = posts Sample.scheduled ++ [1234].
Proof.
  destruct (C7_navigation_triggers_exactly_one_attempt
              Sample.enabledAll None "/t/my-topic/1234" "1234" Sample.ownTopic
              Sample.arrived Sample.scheduled 0
              eq_refl eq_refl eq_refl eq_refl eq_refl eq_refl)
    as [(_ & _ & _ & _ & Hfire) _].
  destruct (Hfire eq_refl eq_refl) as [_ Hsent].
  destruct (Hsent eq_refl (not_elem_of_empty 1234)) as [Hposts _].
  exact Hposts.
Defined.

(** C9 on the sample: with and without debug output, the same request. *)
Lemma C9_witness_same_requests :
  posts (Part002.run Sample.enabledAll None (freshWorld Sample.alice Sample.emptyPage)
           Sample.arrival)
  = posts (Part002.run Sample.debugging None (freshWorld Sample.alice Sample.emptyPage)
             Sample.arrival).
Proof.
  assert (Hsame : sameButDebug Sample.enabledAll Sample.debugging) by (repeat split).
  destruct (C9_debug_mode_changes_console_only
              Sample.enabledAll Sample.debugging None
              (freshWorld Sample.alice Sample.emptyPage) Sample.arrival Hsame)
    as [(_ & Hposts & _) _].
  exact Hposts.
Defined.

(** C10 on the sample: nobody logged in, a navigation, nothing happens. *)
Lemma C10_witness_anonymous_visit :
  Part002.session Sample.enabledAll None Sample.anonymousPage
    [PageChange "/t/my-topic/1234"; TimerFire 0]
  = Inactive Sample.anonymousPage.
Proof.
  destruct (C10_no_user_no_trigger_is_registered
              Sample.enabledAll None Sample.anonymousPage
              [PageChange "/t/my-topic/1234"; TimerFire 0] eq_refl)
    as (_ & _ & _ & Hs & _).
  exact Hs.
Defined.

(** * Beyond the claims: the other triggers and the success paths *)

(** ** Errors never leave a handler *)

(** A computation that ends normally and adds nothing to the errors that
    escaped. *)
Definition contained {A} (m : Eff A) : Prop :=
  forall w, (exists a, fst (m w) = Normal a) /\ uncaught (snd (m w)) = uncaught w.

Lemma contained_ret {A} (a : A) : contained (ret a).
Proof. intros w. split; [exists a|]; reflexivity. Qed.

Lemma contained_get {A} (f : World -> A) : contained (get f).
Proof. intros w. split; [exists (f w)|]; reflexivity. Qed.

Lemma contained_modify (f : World -> World) :
  (forall w, uncaught (f w) = uncaught w) -> contained (modify f).
Proof. intros H w. split; [exists tt; reflexivity | apply H]. Qed.

Lemma contained_bind {A B} (m : Eff A) (k : A -> Eff B) :
  contained m -> (forall a, contained (k a)) -> contained (bind m k).
Proof.
  intros Hm Hk w. unfold bind. destruct (Hm w) as [[a Ha] Hu].
  destruct (m w) as [[a'|e] w']; simpl in *; [|discriminate].
  destruct (Hk a' w') as [Hn Hu']. split; [exact Hn | congruence].
Qed.

Lemma contained_when (c : bool) (m : Eff unit) : contained m -> contained (when c m).
Proof. intros H. destruct c; [exact H | apply contained_ret]. Qed.

Lemma contained_if {A} (c : bool) (m1 m2 : Eff A) :
  contained m1 -> contained m2 -> contained (if c then m1 else m2).
Proof. destruct c; auto. Qed.

Lemma contained_andThen (a : bool) (m : Eff bool) : contained m -> contained (andThen a m).
Proof. intros H. destruct a; [exact H | apply contained_ret]. Qed.

(** What a [try] block did before it threw stays done; the handler decides
    how it ends. *)
Lemma contained_tryCatch {A} (m : Eff A) (h : JsError -> Eff A) :
  keeps uncaught m -> (forall e, contained (h e)) -> contained (tryCatch m h).
Proof.
  intros Hm Hh w. unfold tryCatch. pose proof (Hm w) as Hu.
  destruct (m w) as [[a|e] w']; simpl in *.
  - split; [exists a; reflexivity | exact Hu].
  - destruct (Hh e w') as [Hn Hu']. split; [exact Hn | congruence].
Qed.

(** The promise of an [async] function whose body is contained is never
    rejected. *)
Lemma contained_callAsync t (body : Eff (option bool)) :
  contained body -> contained (callAsync t body).
Proof.
  intros H w. unfold callAsync. destruct (H w) as [[a Ha] Hu].
  destruct (body w) as [[[b|]|e] w']; simpl in *; try discriminate;
    (split; [exists tt; reflexivity | exact Hu]).
Qed.

Lemma contained_resumeAsync t (rest : Eff bool) :
  contained rest -> contained (resumeAsync t rest).
Proof.
  intros H w. unfold resumeAsync. destruct (H w) as [[a Ha] Hu].
  destruct (rest w) as [[b|e] w']; simpl in *; try discriminate;
    (split; [exists tt; reflexivity | exact Hu]).
Qed.

Lemma contained_runHandler (m : Eff unit) w :
  contained m -> uncaught (runHandler m w) = uncaught w.
Proof.
  intros H. unfold runHandler. destruct (H w) as [[a Ha] Hu].
  destruct (m w) as [[u|e] w']; simpl in *; [exact Hu | discriminate].
Qed.

Lemma contained_fire {T} (queue : World -> list T) setQueue k (body : T -> Eff unit) w :
  (forall l w, uncaught (setQueue l w) = uncaught w) ->
  (forall t, contained (body t)) ->
  uncaught (fire queue setQueue k body w) = uncaught w.
Proof.
  intros Hq Hb. unfold fire. destruct (queue w !! k) as [t|]; [|reflexivity].
  rewrite contained_runHandler by apply Hb. apply Hq.
Qed.

Lemma contained_consoleLog msg args : contained (consoleLog msg args).
Proof. apply contained_modify. reflexivity. Qed.

Lemma contained_consoleError msg args : contained (consoleError msg args).
Proof. apply contained_modify. reflexivity. Qed.

Lemma contained_setTimeout t : contained (setTimeout t).
Proof. apply contained_modify. reflexivity. Qed.

Lemma contained_ajaxVote t p : contained (ajaxVote t p).
Proof. apply contained_modify. reflexivity. Qed.

(** Ending normally, whatever happens to the world. *)
Definition total {A} (m : Eff A) : Prop := forall w, exists a, fst (m w) = Normal a.

Lemma total_ret {A} (a : A) : total (ret a).
Proof. intros w. exists a. reflexivity. Qed.

Lemma total_bind {A B} (m : Eff A) (k : A -> Eff B) :
  total m -> (forall a, total (k a)) -> total (bind m k).
Proof.
  intros Hm Hk w. unfold bind. destruct (Hm w) as [a Ha].
  destruct (m w) as [[a'|e] w']; simpl in *; [apply Hk | discriminate].
Qed.

Lemma total_when (c : bool) (m : Eff unit) : total m -> total (when c m).
Proof. intros H. destruct c; [exact H | apply total_ret]. Qed.

Lemma total_modify (f : World -> World) : total (modify f).
Proof. intros w. exists tt. reflexivity. Qed.

(** A [try] whose handler ends normally ends normally. *)
Lemma total_tryCatch {A} (m : Eff A) (h : JsError -> Eff A) :
  (forall e, total (h e)) -> total (tryCatch m h).
Proof.
  intros Hh w. unfold tryCatch. destruct (m w) as [[a|e] w'].
  - exists a. reflexivity.
  - apply Hh.
Qed.

Lemma contained_intro {A} (m : Eff A) : total m -> keeps uncaught m -> contained m.
Proof. intros Ht Hk w. split; [apply Ht | apply Hk]. Qed.

Lemma contained_total {A} (m : Eff A) : contained m -> total m.
Proof. intros H w. apply H. Qed.

Ltac contained_step :=
  first
    [ apply contained_ret | apply contained_get
    | apply contained_consoleLog | apply contained_consoleError
    | apply contained_setTimeout | apply contained_ajaxVote
    | apply contained_callAsync | apply contained_resumeAsync
    | apply contained_bind; [| intros ?]
    | apply contained_when
    | apply contained_andThen
    | apply contained_modify; intros ?; reflexivity
    | apply contained_if
    | match goal with
      | |- contained (match ?x with _ => _ end) => destruct x
      end ].

(** [updateVoteUI] looks every element up before it touches it. *)
Lemma contained_updateVoteUI (log : string -> list Z -> Eff unit) n :
  (forall msg args, silent (log msg args)) -> contained (Dom.updateVoteUI log n).
Proof.
  intros Hlog w. destruct (UpdateVoteUIFacts.updateVoteUI_run log Hlog n w) as [Hr Hw].
  split; [exists tt; exact Hr|].
  apply (sameButConsole_read uncaught) in Hw; [exact Hw | reflexivity].
Qed.

Module Part002Contained.
Import Part002.
Section Facts.
  Variable settings : Settings.
  Variable site : option Site.

Lemma contained_log_002 msg args : contained (log settings msg args).
Proof. unfold log. repeat contained_step. Qed.

Lemma contained_castVote_002 t src : contained (castVote settings t src).
Proof.
  unfold castVote, castVoteSync.
  repeat first [apply contained_log_002 | contained_step].
Qed.

Lemma contained_visitCheck_002 : contained (visitCheck settings site).
Proof.
  unfold visitCheck, ownUnvotedAllowed, isCategoryAllowed.
  repeat first [apply contained_log_002 | apply contained_castVote_002 | contained_step].
Qed.

Lemma contained_castVoteResume_002 t src r : contained (castVoteResume settings t src r).
Proof.
  apply contained_intro.
  - unfold castVoteResume. apply total_tryCatch. intros e.
    apply total_bind; [|intros; apply total_ret].
    destruct (is422 e); apply contained_total, contained_log_002.
  - apply Part002Facts.keeps_castVoteResume_002; reflexivity.
Qed.

Lemma uncaught_step_002 w ev : uncaught (step settings site w ev) = uncaught w.
Proof.
  destruct ev as [url|k|k r|topic doc|data|ct cat|k p|name data|ct cat p|ty url post|k e];
    cbn [step]; try reflexivity.
  - apply contained_runHandler. unfold onPageChange. repeat contained_step.
  - apply contained_fire; [reflexivity|].
    intros [| |t]; cbn [fireTimer];
      first [apply contained_visitCheck_002 | apply contained_ret].
  - apply contained_fire; [reflexivity|].
    intros [t src|t|]; cbn [settle]; try apply contained_ret.
    apply contained_resumeAsync, contained_castVoteResume_002.
Qed.

Lemma uncaught_run_002 evs w : uncaught (run settings site w evs) = uncaught w.
Proof.
  unfold run. revert w. induction evs as [|ev evs IH]; intros w; simpl; [reflexivity|].
  rewrite IH. apply uncaught_step_002.
Qed.
End Facts.
End Part002Contained.

Module Part001Contained.
Import Part001.
Section Facts.
  Variable settings : Settings.
  Variable site : option Site.

Lemma contained_updateVoteUI_001 n : contained (updateVoteUI n).
Proof. apply contained_updateVoteUI. intros; apply silent_ret. Qed.

Lemma contained_castVote_001 t : contained (castVote settings t).
Proof. unfold castVote, castVoteSync. repeat contained_step. Qed.

Lemma contained_castVoteResume_001 t r : contained (castVoteResume t r).
Proof.
  apply contained_intro.
  - unfold castVoteResume. apply total_tryCatch. intros e. apply total_ret.
  - unfold castVoteResume, markVoted, updateCurrentUser.
    repeat first [ apply DomFacts.keeps_updateVoteUI; [reflexivity | intros; apply keeps_ret]
                 | keeps_step ].
Qed.

(** The one error [Part001] lets go: the rejection of a save whose
    [then]-callback is attached. *)
Definition leaked (w : World) (ev : Event) : list JsError :=
  match ev with
  | SaveReject k e =>
      match pending w !! k with
      | Some SaveThen => [Rejected e]
      | _ => []
      end
  | _ => []
  end.

Definition notSaveReject (ev : Event) : Prop :=
  match ev with SaveReject _ _ => False | _ => True end.

Lemma uncaught_step_001 w ev :
  uncaught (step settings site w ev) = uncaught w ++ leaked w ev.
Proof.
  destruct ev as [url|k|k r|topic doc|data|ct cat|k p|name data|ct cat p|ty url post|k e];
    cbn [step leaked]; rewrite ?app_nil_r; try reflexivity.
  - apply contained_runHandler. unfold onPageChange. repeat contained_step.
  - apply contained_fire; [reflexivity|].
    intros [| |t]; cbn [fireTimer].
    + unfold visitCheck. repeat first [apply contained_castVote_001 | contained_step].
    + apply contained_updateVoteUI_001.
    + apply contained_ret.
  - destruct (pending w !! k) as [[t src|t|]|]; try reflexivity;
      (apply contained_fire; [reflexivity|]);
      intros [t' src'|t'|]; cbn [settle]; try apply contained_ret;
      first [ apply contained_resumeAsync, contained_castVoteResume_001
            | unfold preVoteSettled; repeat contained_step ].
  - apply contained_runHandler. unfold save. repeat contained_step.
  - destruct (pending w !! k) as [[t src|t|]|]; try reflexivity.
    apply contained_fire; [reflexivity|].
    intros _. unfold saveThen. repeat contained_step.
  - destruct (pending w !! k) as [[t src|t|]|] eqn:Hk;
      rewrite ?app_nil_r; try reflexivity.
    unfold fire. rewrite Hk. reflexivity.
Qed.

Lemma uncaught_run_001 evs w :
  Forall notSaveReject evs -> uncaught (run settings site w evs) = uncaught w.
Proof.
  unfold run. revert w. induction evs as [|ev evs IH]; intros w Hevs; simpl; [reflexivity|].
  inversion Hevs as [|? ? Hev Hrest]; subst.
  rewrite IH by exact Hrest. rewrite uncaught_step_001.
  destruct ev; try destruct Hev; apply app_nil_r.
Qed.
End Facts.
End Part001Contained.

Module Part000Contained.
Import Part000.
Section Facts.
  Variable settings : Settings.

Lemma contained_log_000 msg args : contained (log settings msg args).
Proof. unfold log. repeat contained_step. Qed.

Lemma contained_castVote_000 t src : contained (castVote settings t src).
Proof.
  unfold castVote, castVoteSync.
  repeat first [apply contained_log_000 | contained_step].
Qed.

Lemma contained_castVoteResume_000 t src r : contained (castVoteResume settings t src r).
Proof.
  apply contained_intro.
  - unfold castVoteResume. apply total_tryCatch. intros e.
    apply total_bind; [|intros; apply total_ret].
    destruct (is422 e); apply contained_total;
      [apply contained_log_000 | apply contained_consoleError].
  - apply Part000Facts.keeps_castVoteResume_000. reflexivity.
Qed.

Lemma uncaught_step_000 w ev : uncaught (step settings w ev) = uncaught w.
Proof.
  destruct ev as [url|k|k r|topic doc|data|ct cat|k p|name data|ct cat p|ty url post|k e];
    cbn [step]; try reflexivity.
  - apply contained_runHandler. unfold onPageChange. repeat contained_step.
  - apply contained_fire; [reflexivity|].
    intros [| |t]; cbn [fireTimer]; try apply contained_ret.
    unfold visitCheck.
    repeat first [apply contained_log_000 | apply contained_castVote_000 | contained_step].
  - apply contained_fire; [reflexivity|].
    intros [t src|t|]; cbn [settle]; try apply contained_ret.
    apply contained_resumeAsync, contained_castVoteResume_000.
  - apply contained_runHandler. unfold onTopicCreated.
    repeat first [apply contained_log_000 | apply contained_castVote_000 | contained_step].
Qed.

Lemma uncaught_run_000 evs w : uncaught (run settings w evs) = uncaught w.
Proof.
  unfold run. revert w. induction evs as [|ev evs IH]; intros w; simpl; [reflexivity|].
  rewrite IH. apply uncaught_step_000.
Qed.
End Facts.
End Part000Contained.

Module AutoVoteOwnTopicContained.
Import AutoVoteOwnTopic.
Section Facts.
  Variable settings : Settings.

Lemma contained_log_main msg args : contained (log settings msg args).
Proof. unfold log. repeat contained_step. Qed.

Lemma contained_castVote_main t src : contained (castVote settings t src).
Proof.
  unfold castVote, castVoteSync.
  repeat first [apply contained_log_main | contained_step].
Qed.

Lemma contained_isCategoryAllowed_main c : contained (isCategoryAllowed settings c).
Proof.
  unfold isCategoryAllowed. repeat first [apply contained_log_main | contained_step].
Qed.

Lemma contained_checkAndVote topic src : contained (checkAndVote settings topic src).
Proof.
  unfold checkAndVote.
  repeat first [ apply contained_log_main | apply contained_castVote_main
               | apply contained_isCategoryAllowed_main | contained_step ].
Qed.

Lemma contained_castVoteResume_main t src r : contained (castVoteResume settings t src r).
Proof.
  apply contained_intro.
  - unfold castVoteResume. apply total_tryCatch. intros e.
    apply total_bind; [apply contained_total, contained_log_main | intros _].
    apply total_bind; [|intros; apply total_ret].
    destruct (is422 e); apply contained_total;
      [apply contained_log_main | apply contained_consoleError].
  - apply AutoVoteOwnTopicFacts.keeps_castVoteResume_main. reflexivity.
Qed.

Lemma uncaught_step_main w ev : uncaught (step settings w ev) = uncaught w.
Proof.
  destruct ev as [url|k|k r|topic doc|data|ct cat|k p|name data|ct cat p|ty url post|k e];
    cbn [step]; try reflexivity.
  - apply contained_runHandler. unfold onPageChange.
    repeat first [apply contained_log_main | contained_step].
  - apply contained_fire; [reflexivity|].
    intros [| |t]; cbn [fireTimer]; try apply contained_ret.
    + unfold visitCheck.
      repeat first [apply contained_log_main | apply contained_checkAndVote | contained_step].
    + apply contained_castVote_main.
  - apply contained_fire; [reflexivity|].
    intros [t src|t|]; cbn [settle]; try apply contained_ret.
    apply contained_resumeAsync, contained_castVoteResume_main.
  - destruct (existsb (String.eqb name) eventsToWatch); [|reflexivity].
    apply contained_runHandler. unfold onAppEvent.
    repeat first [apply contained_log_main | apply contained_castVote_main | contained_step].
  - apply contained_runHandler. unfold afterSave.
    repeat first [ apply contained_log_main | apply contained_castVote_main
                 | apply contained_isCategoryAllowed_main | contained_step ].
  - apply contained_runHandler. unfold onAjaxDone.
    repeat first [apply contained_log_main | contained_step].
Qed.

Lemma uncaught_run_main evs w : uncaught (run settings w evs) = uncaught w.
Proof.
  unfold run. revert w. induction evs as [|ev evs IH]; intros w; simpl; [reflexivity|].
  rewrite IH. apply uncaught_step_main.
Qed.
End Facts.
End AutoVoteOwnTopicContained.

(** ** A disabled component *)

(** What a session has sent and registered. *)
Definition sentView (w : World) := (posts w, autoVotedTopics w).

Definition notDelayedCast (t : Timer) : Prop :=
  match t with DelayedCast _ => False | _ => True end.

Definition notSaveThen (p : Pending) : Prop :=
  match p with SaveThen => False | _ => True end.

Lemma Forall_at_delete {T} (Q : T -> Prop) (l : list T) k x :
  Forall Q l -> l !! k = Some x -> Q x /\ Forall Q (delete k l).
Proof.
  intros H Hk. split.
  - rewrite Forall_forall in H. apply H.
    apply list_elem_of_lookup. exists k. exact Hk.
  - apply Forall_forall. intros y Hy. rewrite Forall_forall in H.
    apply H, list_elem_of_In. apply list_elem_of_In in Hy. eapply In_delete. exact Hy.
Qed.

Module Disabled.
Section Facts.
  Variable settings : Settings.
  Hypothesis Hoff : auto_vote_enabled settings = false.

Lemma sentView_registryView w w' : registryView w = registryView w' -> sentView w = sentView w'.
Proof. unfold registryView, sentView. intros [= -> _ _ _ ->]. reflexivity. Qed.

(** [Part002] and [Part000]: [castVote] itself looks at the setting. *)
Lemma run_002 site evs w :
  sentView (Part002.run settings site w evs) = sentView w.
Proof.
  apply (Part002Facts.invariant_run_002 settings site (fun w' => sentView w' = sentView w)).
  - intros w1 w2 Hv H. rewrite <- H. symmetry. apply sentView_registryView, Hv.
  - intros l w1 H. exact H.
  - intros k l w1 H. exact H.
  - intros t src w1 H. rewrite Part002Run.castVoteSync_disabled_002 by exact Hoff. exact H.
  - reflexivity.
Qed.

Lemma run_000 evs w :
  sentView (Part000.run settings w evs) = sentView w.
Proof.
  apply (Part000Facts.invariant_run_000 settings (fun w' => sentView w' = sentView w)).
  - intros w1 w2 Hv H. rewrite <- H. symmetry. apply sentView_registryView, Hv.
  - intros l w1 H. exact H.
  - intros k l w1 H. exact H.
  - intros t src w1 H. rewrite Part000Run.castVoteSync_disabled_000 by exact Hoff. exact H.
  - reflexivity.
Qed.

(** The api-initializer: every trigger looks at the setting before it calls
    [castVote] or schedules the call. *)
Ltac quiet_main :=
  repeat first [ apply AutoVoteOwnTopicFacts.keeps_log_main; reflexivity
               | apply AutoVoteOwnTopicFacts.keeps_isCategoryAllowed_main; reflexivity
               | keeps_step ].

Lemma keeps_checkAndVote_off topic src :
  keeps registryView (AutoVoteOwnTopic.checkAndVote settings topic src).
Proof. unfold AutoVoteOwnTopic.checkAndVote. rewrite Hoff. cbn [negb]. quiet_main. Qed.

Lemma keeps_onAppEvent_off name data :
  keeps registryView (AutoVoteOwnTopic.onAppEvent settings name data).
Proof. unfold AutoVoteOwnTopic.onAppEvent. rewrite Hoff. cbn [when]. quiet_main. Qed.

Lemma keeps_afterSave_off ct cat p :
  keeps registryView (AutoVoteOwnTopic.afterSave settings ct cat p).
Proof. unfold AutoVoteOwnTopic.afterSave. rewrite Hoff. cbn [negb]. quiet_main. Qed.

Lemma keeps_onAjaxDone_off ty url post :
  keeps registryView (AutoVoteOwnTopic.onAjaxDone settings ty url post).
Proof. unfold AutoVoteOwnTopic.onAjaxDone. rewrite Hoff. cbn [when]. quiet_main. Qed.

Definition IdleMain (v : list Z * gset Z) (w : World) : Prop :=
  sentView w = v /\ Forall notDelayedCast (timers w).

Lemma IdleMain_keeps v (m : Eff unit) w :
  keeps registryView m -> IdleMain v w -> IdleMain v (runHandler m w).
Proof.
  intros Hk [H1 H2].
  pose proof (keeps_runHandler registryView m (fun l w0 => eq_refl) Hk w) as Hv.
  split.
  - rewrite <- H1. apply sentView_registryView, Hv.
  - unfold registryView in Hv. injection Hv as _ _ Ht _ _. rewrite Ht. exact H2.
Qed.

Lemma IdleMain_step v w ev :
  IdleMain v w -> IdleMain v (AutoVoteOwnTopic.step settings w ev).
Proof.
  intros H.
  destruct ev as [url|k|k r|topic doc|data|ct cat|k q|name data|ct cat p|ty url post|k e];
    cbn [AutoVoteOwnTopic.step]; try exact H.
  - unfold AutoVoteOwnTopic.onPageChange, runHandler, bind.
    rewrite AutoVoteOwnTopicRun.log_run_main.
    destruct (Js.matchTopic url); [|exact H].
    rewrite AutoVoteOwnTopicRun.log_run_main. destruct H as [H1 H2].
    split; [exact H1|]. cbn. apply Forall_app. split; [exact H2 | repeat constructor].
  - unfold fire. destruct (timers w !! k) as [t|] eqn:Hk; [|exact H].
    destruct H as [H1 H2]. destruct (Forall_at_delete _ _ _ _ H2 Hk) as [Ht Hd].
    assert (H' : IdleMain v (setTimers (delete k (timers w)) w)) by (split; assumption).
    destruct t as [| |t]; [| |destruct Ht]; cbn [AutoVoteOwnTopic.fireTimer].
    + apply IdleMain_keeps; [|exact H']. unfold AutoVoteOwnTopic.visitCheck.
      repeat first [ apply keeps_checkAndVote_off
                   | apply AutoVoteOwnTopicFacts.keeps_log_main; reflexivity
                   | keeps_step ].
    + exact H'.
  - unfold fire. destruct (pending w !! k) as [p|] eqn:Hk; [|exact H].
    apply IdleMain_keeps; [|exact H].
    destruct p as [t src|t|]; cbn [AutoVoteOwnTopic.settle]; try apply keeps_ret.
    intros w0. unfold resumeAsync.
    pose proof (AutoVoteOwnTopicFacts.keeps_castVoteResume_main settings registryView t src r
                  (fun l w1 => eq_refl) w0) as Hr.
    destruct (AutoVoteOwnTopic.castVoteResume settings t src r w0) as [[b|e] w1]; exact Hr.
  - destruct (existsb (String.eqb name) AutoVoteOwnTopic.eventsToWatch); [|exact H].
    apply IdleMain_keeps; [apply keeps_onAppEvent_off | exact H].
  - apply IdleMain_keeps; [apply keeps_afterSave_off | exact H].
  - apply IdleMain_keeps; [apply keeps_onAjaxDone_off | exact H].
Qed.

Lemma IdleMain_run v evs w :
  IdleMain v w -> IdleMain v (AutoVoteOwnTopic.run settings w evs).
Proof.
  unfold AutoVoteOwnTopic.run. revert w.
  induction evs as [|ev evs IH]; intros w H; simpl; [exact H|].
  apply IH, IdleMain_step, H.
Qed.

(** [Part001]: [save] looks at the setting before it attaches its callback,
    [castVote] before anything else. *)
Definition Idle001 (v : list Z * gset Z) (w : World) : Prop :=
  sentView w = v /\ preVotedTopics w = ∅ /\ Forall notSaveThen (pending w).

Lemma Idle001_keeps v (m : Eff unit) w :
  keeps registryView m -> Idle001 v w -> Idle001 v (runHandler m w).
Proof.
  intros Hk (H1 & H2 & H3).
  pose proof (keeps_runHandler registryView m (fun l w0 => eq_refl) Hk w) as Hv.
  split; [|split].
  - rewrite <- H1. apply sentView_registryView, Hv.
  - unfold registryView in Hv. injection Hv as _ Hp _ _ _. rewrite Hp. exact H2.
  - unfold registryView in Hv. injection Hv as _ _ _ Hp _. rewrite Hp. exact H3.
Qed.

Lemma keeps_castVote_off_001 t : keeps registryView (Part001.castVote settings t).
Proof.
  intros w. unfold Part001.castVote, callAsync.
  rewrite Part001Facts.castVoteSync_disabled_001 by exact Hoff. reflexivity.
Qed.

Lemma Idle001_step site v w ev :
  Idle001 v w -> Idle001 v (Part001.step settings site w ev).
Proof.
  intros H.
  destruct ev as [url|k|k r|topic doc|data|ct cat|k q|name data|ct cat p|ty url post|k e];
    cbn [Part001.step]; try exact H.
  - unfold Part001.onPageChange, runHandler.
    destruct (Js.matchTopic url) as [ds|]; [|exact H].
    unfold bind at 1. unfold get at 1.
    assert (Ht : forall t, Idle001 v
               (let (c, w') := when (auto_vote_on_visit settings) (setTimeout t) w in
                match c with
                | Normal _ => w'
                | Abrupt e => setUncaught (uncaught w' ++ [e]) w'
                end)).
    { intros t. destruct (auto_vote_on_visit settings); exact H. }
    destruct (Js.parseInt ds) as [n|]; [|apply Ht].
    destruct H as (H1 & H2 & H3). rewrite H2.
    rewrite bool_decide_eq_false_2 by apply not_elem_of_empty.
    apply Ht.
  - unfold fire. destruct (timers w !! k) as [t|] eqn:Hk; [|exact H].
    apply Idle001_keeps; [|exact H].
    destruct t as [| |t]; cbn [Part001.fireTimer].
    + unfold Part001.visitCheck.
      repeat first [apply keeps_castVote_off_001 | keeps_step].
    + apply Part001Facts.keeps_updateVoteUI_001.
    + apply keeps_ret.
  - destruct (pending w !! k) as [p|] eqn:Hk; [|unfold fire; rewrite Hk; exact H].
    destruct H as (H1 & H2 & H3).
    destruct (Forall_at_delete _ _ _ _ H3 Hk) as [Hp Hd].
    assert (H' : Idle001 v (setPending (delete k (pending w)) w))
      by (split; [|split]; assumption).
    destruct p as [t src|t|]; [| |destruct Hp]; unfold fire; rewrite Hk;
      cbn [Part001.settle].
    + apply Idle001_keeps; [|exact H'].
      intros w0. unfold resumeAsync.
      pose proof (Part001Facts.keeps_castVoteResume_001 t r w0) as Hr.
      destruct (Part001.castVoteResume t r w0) as [[b|e] w1]; exact Hr.
    + unfold Part001.preVoteSettled, runHandler. destruct r as [e|r]; [|exact H'].
      cbn. split; [exact H1|]. split; [|exact Hd].
      rewrite H2. apply empty_difference_L.
  - unfold Part001.save, runHandler. rewrite Hoff, andb_false_r. exact H.
  - destruct (pending w !! k) as [p|] eqn:Hk; [|exact H].
    destruct p as [t src|t|]; try exact H.
    destruct H as (_ & _ & H3).
    destruct (Forall_at_delete _ _ _ _ H3 Hk) as [[] _].
  - destruct (pending w !! k) as [p|] eqn:Hk; [|exact H].
    destruct p as [t src|t|]; try exact H.
    destruct H as (_ & _ & H3).
    destruct (Forall_at_delete _ _ _ _ H3 Hk) as [[] _].
Qed.

Lemma Idle001_run site v evs w :
  Idle001 v w -> Idle001 v (Part001.run settings site w evs).
Proof.
  unfold Part001.run. revert w.
  induction evs as [|ev evs IH]; intros w H; simpl; [exact H|].
  apply IH, Idle001_step, H.
Qed.

End Facts.
End Disabled.

(** ** A vote request that is answered *)

Module Part002Settle.
Import Part002 UpdateVoteUIFacts Part002Success.

(** The world a resolved request leaves behind, the console apart. *)
Definition resolved (t : Z) (r : option VoteResponse) (w : World) : World :=
  match r with
  | Some body => reflected t body w
  | None => setDocument (updateDoc 1 (document w)) w
  end.

Lemma reflected_frame {A} (f : World -> A) t body w :
  (forall d w0, f (setDocument d w0) = f w0) ->
  (forall u w0, f (setCurrentUser u w0) = f w0) ->
  (forall m w0, f (setTopicModel m w0) = f w0) ->
  f (reflected t body w) = f w.
Proof.
  intros Hd Hu Hm. unfold reflected, reflectModels. rewrite Hd.
  destruct (topicModel w) as [tp|]; [|reflexivity].
  destruct (topic_id tp =? t); [|reflexivity].
  rewrite Hu, Hm. reflexivity.
Qed.

Lemma models_reflected_same t body w topic :
  topicModel w = Some topic -> topic_id topic = t ->
  topicModel (reflected t body w) = Some (votedTopic topic (newVoteCount body w))
  /\ currentUser (reflected t body w) = votingUser body (currentUser w).
Proof.
  intros Ht Hid. unfold reflected, reflectModels. rewrite Ht.
  apply Z.eqb_eq in Hid. rewrite Hid. split; reflexivity.
Qed.

Lemma models_reflected_other t body w :
  (forall topic, topicModel w = Some topic -> topic_id topic <> t) ->
  topicModel (reflected t body w) = topicModel w
  /\ currentUser (reflected t body w) = currentUser w.
Proof.
  intros Hother. unfold reflected, reflectModels.
  destruct (topicModel w) as [tp|] eqn:Etp; [|cbn; rewrite Etp; split; reflexivity].
  destruct (topic_id tp =? t) eqn:Eid.
  - apply Z.eqb_eq in Eid. destruct (Hother tp eq_refl Eid).
  - cbn. rewrite Etp. split; reflexivity.
Qed.

Lemma castVoteResume_resolved settings t src r w :
  fst (castVoteResume settings t src (inr r) w) = Normal true
  /\ sameButConsole (snd (castVoteResume settings t src (inr r) w)) (resolved t r w).
Proof.
  destruct r as [body|]; [apply castVoteResume_success | apply castVoteResume_null].
Qed.

Lemma step_settle_resolved_002 settings site w k t src r :
  pending w !! k = Some (CastVoteAwait t src) ->
  exists w1,
    step settings site w (AjaxSettle k (inr r)) = setSettled (settled w1 ++ [(t, true)]) w1
    /\ sameButConsole w1 (resolved t r (setPending (delete k (pending w)) w)).
Proof.
  intros Hp. cbn [step]. unfold fire. rewrite Hp. cbn [settle].
  unfold runHandler, resumeAsync.
  destruct (castVoteResume_resolved settings t src r (setPending (delete k (pending w)) w))
    as [Hr Hw].
  destruct (castVoteResume settings t src (inr r) (setPending (delete k (pending w)) w))
    as [c w1]. cbn [fst snd] in Hr, Hw. subst c.
  exists w1. split; [reflexivity | exact Hw].
Qed.

End Part002Settle.

Module Part001Settle.
Import Part001 UpdateVoteUIFacts Part002Success.

(** [Part001] does the same assignments without logging and without the
    inner [try]. *)
Lemma castVoteResume_resolved_001 t body w :
  castVoteResume t (inr (Some body)) w = (Normal true, reflected t body w).
Proof.
  unfold castVoteResume, reflected, reflectModels, newVoteCount.
  unfold tryCatch at 1. unfold bind at 1. cbn [await]. unfold ret at 1.
  unfold bind at 1. unfold get at 1.
  unfold bind at 1. cbn [deref]. unfold ret at 1.
  unfold bind at 1. unfold updateVoteUI.
  destruct (topicModel w) as [tp|] eqn:Etp.
  - destruct (topic_id tp =? t) eqn:Eid; cbn [when].
    + unfold bind at 1. unfold markVoted, modify at 1.
      rewrite updateCurrentUser_run. unfold bind at 1. rewrite updateVoteUI_quiet.
      cbn [document setDocument setCurrentUser setTopicModel currentUser topicModel].
      reflexivity.
    + unfold ret at 1. unfold bind at 1. rewrite updateVoteUI_quiet. reflexivity.
  - unfold ret at 1. unfold bind at 1. rewrite updateVoteUI_quiet. reflexivity.
Qed.

Lemma step_settle_001 settings site w k t src r :
  pending w !! k = Some (CastVoteAwait t src) ->
  step settings site w (AjaxSettle k r)
  = let w0 := setPending (delete k (pending w)) w in
    let res := castVoteResume t r w0 in
    match fst res with
    | Normal b => setSettled (settled (snd res) ++ [(t, b)]) (snd res)
    | Abrupt e => setUncaught (uncaught (snd res) ++ [e]) (snd res)
    end.
Proof.
  intros Hp. cbn [step]. rewrite Hp. unfold fire. rewrite Hp. cbn [settle].
  unfold runHandler, resumeAsync. cbv zeta.
  destruct (castVoteResume t r (setPending (delete k (pending w)) w)) as [[b|e] w1];
    reflexivity.
Qed.

End Part001Settle.

(** ** [Part001] without the visit vote *)

Module Part001Visit.
Import Part001.
Section Facts.
  Variable settings : Settings.
  Variable site : option Site.
  Hypothesis Hoff : auto_vote_on_visit settings = false.

Definition notVisitCheck (t : Timer) : Prop :=
  match t with VisitCheck => False | _ => True end.

Definition notCastVoteAwait (p : Pending) : Prop :=
  match p with CastVoteAwait _ _ => False | _ => True end.

(** [castVote] has not been called and is not going to be. *)
Definition Unvisited (w : World) : Prop :=
  settled w = [] /\ Forall notVisitCheck (timers w) /\ Forall notCastVoteAwait (pending w).

Lemma onPageChange_off url w :
  runHandler (onPageChange settings url) w = w
  \/ exists t, runHandler (onPageChange settings url) w
               = setTimers (timers w ++ [ReflectOne])
                   (setAutoVoted ({[t]} ∪ autoVotedTopics w)
                      (setPreVoted (preVotedTopics w ∖ {[t]}) w))
               /\ t ∈ preVotedTopics w.
Proof.
  unfold onPageChange, runHandler.
  destruct (Js.matchTopic url) as [ds|]; [|left; reflexivity].
  rewrite Hoff. unfold bind, get. cbv beta iota.
  destruct (Js.parseInt ds) as [n|]; [|left; reflexivity].
  destruct (bool_decide (n ∈ preVotedTopics w)) eqn:Hn; [|left; reflexivity].
  right. exists n. split; [reflexivity|]. apply bool_decide_eq_true in Hn. exact Hn.
Qed.

Lemma fireReflectOne k w :
  timers w !! k = Some ReflectOne ->
  step settings site w (TimerFire k)
  = setDocument (UpdateVoteUIFacts.updateDoc 1 (document w))
      (setTimers (delete k (timers w)) w).
Proof.
  intros Hk. cbn [step]. unfold fire. rewrite Hk.
  cbn [fireTimer]. unfold runHandler, updateVoteUI.
  rewrite UpdateVoteUIFacts.updateVoteUI_quiet. reflexivity.
Qed.

Lemma Unvisited_step w ev : Unvisited w -> Unvisited (step settings site w ev).
Proof.
  intros (H1 & H2 & H3).
  destruct ev as [url|k|k r|topic doc|data|ct cat|k q|name data|ct cat q|ty url q|k e];
    try (repeat split; assumption).
  - cbn [step]. destruct (onPageChange_off url w) as [->|(t & -> & _)].
    + repeat split; assumption.
    + split; [exact H1|]. split; [|exact H3].
      cbn. apply Forall_app. split; [exact H2 | repeat constructor].
  - destruct (timers w !! k) as [t|] eqn:Hk;
      [|cbn [step]; unfold fire; rewrite Hk; repeat split; assumption].
    destruct (Forall_at_delete _ _ _ _ H2 Hk) as [Ht Hd].
    destruct t as [| |t]; [destruct Ht| |].
    + rewrite fireReflectOne by exact Hk. repeat split; assumption.
    + cbn [step]. unfold fire. rewrite Hk. repeat split; assumption.
  - cbn [step]. destruct (pending w !! k) as [p|] eqn:Hk;
      [|unfold fire; rewrite Hk; repeat split; assumption].
    destruct (Forall_at_delete _ _ _ _ H3 Hk) as [Hp Hd].
    destruct p as [t src|t|]; [destruct Hp| |repeat split; assumption].
    unfold fire. rewrite Hk. cbn [settle]. unfold preVoteSettled, runHandler.
    destruct r; repeat split; assumption.
  - cbn [step]. unfold save, runHandler.
    destruct (ct && auto_vote_enabled settings && isCategoryAllowed settings site cat);
      [|repeat split; assumption].
    split; [exact H1|]. split; [exact H2|].
    cbn. apply Forall_app. split; [exact H3 | repeat constructor].
  - cbn [step]. destruct (pending w !! k) as [p|] eqn:Hk; [|repeat split; assumption].
    destruct p as [t src|t|]; try (repeat split; assumption).
    destruct (Forall_at_delete _ _ _ _ H3 Hk) as [_ Hd].
    unfold fire. rewrite Hk. unfold saveThen, runHandler.
    destruct q as [t|]; [|repeat split; assumption].
    split; [exact H1|]. split; [exact H2|].
    cbn. apply Forall_app. split; [exact Hd | repeat constructor].
  - cbn [step]. destruct (pending w !! k) as [p|] eqn:Hk; [|repeat split; assumption].
    destruct p as [t src|t|]; try (repeat split; assumption).
    destruct (Forall_at_delete _ _ _ _ H3 Hk) as [_ Hd].
    unfold fire. rewrite Hk. repeat split; assumption.
Qed.

Lemma Unvisited_run evs w : Unvisited w -> Unvisited (run settings site w evs).
Proof.
  unfold run. revert w. induction evs as [|ev evs IH]; intros w H; simpl; [exact H|].
  apply IH, Unvisited_step, H.
Qed.

(** Without the composer either, the component does nothing but refresh
    the page. *)
Definition Untouched (w : World) : Prop :=
  posts w = [] /\ autoVotedTopics w = ∅ /\ preVotedTopics w = ∅ /\ pending w = []
  /\ Forall notVisitCheck (timers w).

Lemma Untouched_step w ev :
  Part001Facts.notComposerSave ev -> Untouched w -> Untouched (step settings site w ev).
Proof.
  intros Hev (H1 & H2 & H3 & H4 & H5).
  destruct ev as [url|k|k r|topic doc|data|ct cat|k q|name data|ct cat q|ty url q|k e];
    try (repeat split; assumption); try destruct Hev.
  - cbn [step]. destruct (onPageChange_off url w) as [->|(t & _ & Hin)].
    + repeat split; assumption.
    + rewrite H3 in Hin. apply not_elem_of_empty in Hin. destruct Hin.
  - destruct (timers w !! k) as [t|] eqn:Hk;
      [|cbn [step]; unfold fire; rewrite Hk; repeat split; assumption].
    destruct (Forall_at_delete _ _ _ _ H5 Hk) as [Ht Hd].
    destruct t as [| |t]; [destruct Ht| |].
    + rewrite fireReflectOne by exact Hk. repeat split; assumption.
    + cbn [step]. unfold fire. rewrite Hk. repeat split; assumption.
  - cbn [step]. rewrite H4. unfold fire. rewrite H4. repeat split; assumption.
  - cbn [step]. rewrite H4. repeat split; assumption.
  - cbn [step]. rewrite H4. repeat split; assumption.
Qed.

Lemma Untouched_run evs w :
  Forall Part001Facts.notComposerSave evs -> Untouched w ->
  Untouched (run settings site w evs).
Proof.
  unfold run. revert w. induction evs as [|ev evs IH]; intros w Hevs H; simpl; [exact H|].
  inversion Hevs as [|? ? Hev Hrest]; subst.
  apply IH; [exact Hrest | apply Untouched_step; assumption].
Qed.

End Facts.
End Part001Visit.

(** ** The other triggers of the api-initializer and of [Part000] *)

Lemma app_singleton_inv {A} (l : list A) (x y : A) : l ++ [x] = l ++ [y] -> x = y.
Proof. intros H. apply app_inv_head in H. congruence. Qed.

(** What one call of [castVote] that got past its settings test leaves in
    registry, queues and request log. *)
Definition attempted (t : Z) (src : string) (w : World) : World :=
  if bool_decide (t ∈ autoVotedTopics w) then w
  else setPending (pending w ++ [CastVoteAwait t src])
         (setPosts (posts w ++ [t]) (setAutoVoted ({[t]} ∪ autoVotedTopics w) w)).

Lemma attempted_view t src w1 w2 :
  registryView w1 = registryView w2 ->
  registryView (attempted t src w1) = registryView (attempted t src w2).
Proof.
  unfold registryView, attempted. intros [= Ha Hp Ht Hq Hs]. rewrite Ha.
  destruct (bool_decide (t ∈ autoVotedTopics w2)); cbn; congruence.
Qed.

Lemma runHandler_bind {A} (m : Eff A) (k : A -> Eff unit) w a w1 :
  m w = (Normal a, w1) -> runHandler (bind m k) w = runHandler (k a) w1.
Proof. intros H. unfold runHandler, bind. rewrite H. reflexivity. Qed.

Module AutoVoteOwnTopicTriggers.
Import AutoVoteOwnTopic.
Section Facts.
  Variable settings : Settings.

Lemma castVote_registry t src w :
  registryView (runHandler (castVote settings t src) w) = registryView (attempted t src w).
Proof.
  unfold runHandler, castVote, callAsync, attempted.
  destruct (bool_decide (t ∈ autoVotedTopics w)) eqn:Hd.
  - apply bool_decide_eq_true in Hd.
    rewrite AutoVoteOwnTopicRun.castVoteSync_duplicate_main by exact Hd. reflexivity.
  - apply bool_decide_eq_false in Hd.
    rewrite AutoVoteOwnTopicRun.castVoteSync_fresh_main by exact Hd. reflexivity.
Qed.

(** Log lines in front of a call change nothing the call looks at. *)
Lemma castVote_view t src w1 w2 :
  registryView w1 = registryView w2 ->
  registryView (runHandler (castVote settings t src) w1) = registryView (attempted t src w2).
Proof. intros H. rewrite castVote_registry. apply attempted_view, H. Qed.

Lemma runHandler_log msg args (k : Eff unit) w :
  runHandler (log settings msg args ;; k) w
  = runHandler k (setConsole (console w ++ [ConsoleLog msg args]) w).
Proof. reflexivity. Qed.

Lemma onAppEvent_registry name data w :
  registryView (runHandler (onAppEvent settings name data) w)
  = registryView
      (match eventTopicId data with
       | Some t =>
           if auto_vote_enabled settings
           then attempted t ("appEvent:" ++ name)%string w
           else w
       | None => w
       end).
Proof.
  unfold onAppEvent. rewrite runHandler_log.
  destruct (eventTopicId data) as [t|]; [|reflexivity].
  rewrite runHandler_log.
  destruct (auto_vote_enabled settings); [|reflexivity].
  cbn [when]. apply castVote_view. reflexivity.
Qed.

(** [afterSave]: the tests in the order the code makes them. *)
Lemma afterSave_registry ct cat p w :
  registryView (runHandler (afterSave settings ct cat p) w)
  = registryView
      (if ct then
         match truthyId p with
         | Some t =>
             if auto_vote_enabled settings
                && AutoVoteOwnTopicChecks.categoryAllowed settings cat
             then attempted t "composer:afterSave" w
             else w
         | None => w
         end
       else w).
Proof.
  unfold afterSave. rewrite !runHandler_log.
  destruct ct; [|reflexivity].
  rewrite !runHandler_log.
  destruct (truthyId p) as [t|]; [|reflexivity].
  destruct (auto_vote_enabled settings); [|reflexivity]. cbn [negb andb].
  rewrite (runHandler_bind _ _ _ _ _
             (AutoVoteOwnTopicChecks.isCategoryAllowed_run_main settings cat _)).
  destruct (AutoVoteOwnTopicChecks.categoryAllowed settings cat); cbn [negb];
    [|reflexivity].
  rewrite runHandler_log. apply castVote_view. reflexivity.
Qed.

(** The interceptor of [$.ajax] schedules the call; nothing is tested again
    when the timer fires. *)
Lemma onAjaxDone_registry ty url post w :
  registryView (runHandler (onAjaxDone settings ty url post) w)
  = registryView
      (match post with
       | Some (t, n) =>
           if String.eqb ty "POST"
              && Js.includes "/posts" (match url with Some u => u | None => "" end)
              && (negb (t =? 0) && (n =? 1))
              && auto_vote_enabled settings
           then setTimers (timers w ++ [DelayedCast t]) w
           else w
       | None => w
       end).
Proof.
  unfold onAjaxDone.
  destruct (String.eqb ty "POST" && Js.includes "/posts" match url with
                                                         | Some u => u
                                                         | None => ""
                                                         end);
    [|destruct post as [[t n]|]; reflexivity].
  cbn [when andb]. rewrite !runHandler_log.
  destruct post as [[t n]|]; [|reflexivity].
  destruct (negb (t =? 0) && (n =? 1)); [|reflexivity].
  cbn [when andb]. rewrite runHandler_log.
  destruct (auto_vote_enabled settings); reflexivity.
Qed.

Lemma fire_delayedCast k t w :
  timers w !! k = Some (DelayedCast t) ->
  registryView (step settings w (TimerFire k))
  = registryView (attempted t "ajax:interceptor" (setTimers (delete k (timers w)) w)).
Proof.
  intros Hk. cbn [step]. unfold fire. rewrite Hk. cbn [fireTimer].
  apply castVote_view. reflexivity.
Qed.

End Facts.
End AutoVoteOwnTopicTriggers.

Module Part000Triggers.
Import Part000.
Section Facts.
  Variable settings : Settings.

Lemma runHandler_log_000 msg args (k : Eff unit) w :
  runHandler (log settings msg args ;; k) w
  = runHandler k (setConsole (console w ++ Part000Run.said settings msg args) w).
Proof. apply (runHandler_bind (log settings msg args) (fun _ => k) w tt), Part000Run.log_run_000. Qed.

Lemma castVote_view_000 t src w1 w2 :
  registryView w1 = registryView w2 ->
  registryView (runHandler (castVote settings t src) w1)
  = registryView (if auto_vote_enabled settings then attempted t src w2 else w2).
Proof.
  intros Hv. unfold runHandler, castVote, callAsync.
  destruct (auto_vote_enabled settings) eqn:He.
  - rewrite <- (attempted_view t src w1 w2 Hv). unfold attempted.
    destruct (bool_decide (t ∈ autoVotedTopics w1)) eqn:Hd.
    + apply bool_decide_eq_true in Hd.
      rewrite Part000Run.castVoteSync_duplicate_000 by assumption. reflexivity.
    + apply bool_decide_eq_false in Hd.
      rewrite Part000Run.castVoteSync_fresh_000 by assumption. reflexivity.
  - rewrite Part000Run.castVoteSync_disabled_000 by exact He. exact Hv.
Qed.

Lemma onTopicCreated_registry data w :
  registryView (runHandler (onTopicCreated settings data) w)
  = registryView
      (match data with
       | Some (t, c) =>
           if negb (t =? 0) && isCategoryAllowed settings c && auto_vote_enabled settings
           then attempted t "topic:created" w
           else w
       | None => w
       end).
Proof.
  unfold onTopicCreated. rewrite runHandler_log_000.
  destruct data as [[t c]|]; [|reflexivity].
  destruct (negb (t =? 0)); [|reflexivity].
  cbn [when andb]. rewrite runHandler_log_000.
  destruct (isCategoryAllowed settings c); cbn [negb andb].
  - rewrite (castVote_view_000 t "topic:created" _ w) by reflexivity. reflexivity.
  - unfold runHandler. rewrite Part000Run.log_run_000. reflexivity.
Qed.

(** The navigation fallback. *)
Lemma visitCheck_registry topic w :
  topicModel w = Some topic ->
  registryView (runHandler (visitCheck settings) w)
  = registryView
      (if (user_id topic =? uid (currentUser w)) && can_vote topic
          && negb (user_voted topic) && isCategoryAllowed settings (category_id topic)
          && auto_vote_enabled settings
       then attempted (topic_id topic) "onPageChange" w
       else w).
Proof.
  intros Ht. unfold visitCheck.
  rewrite (runHandler_bind _ _ w (Some topic) w) by (unfold get; rewrite Ht; reflexivity).
  rewrite (runHandler_bind _ _ w (currentUser w) w) by reflexivity.
  destruct ((user_id topic =? uid (currentUser w)) && can_vote topic
            && negb (user_voted topic) && isCategoryAllowed settings (category_id topic));
    [|reflexivity].
  cbn [when andb]. rewrite runHandler_log_000.
  rewrite (castVote_view_000 _ "onPageChange" _ w) by reflexivity. reflexivity.
Qed.

End Facts.
End Part000Triggers.

Module Part001Triggers.
Import Part001.
Section Facts.
  Variable settings : Settings.
  Variable site : option Site.

Lemma castVote_run_001 t w :
  runHandler (castVote settings t) w
  = if auto_vote_enabled settings
    then if bool_decide (t ∈ autoVotedTopics w)
         then setSettled (settled w ++ [(t, false)]) w
         else attempted t "" w
    else setSettled (settled w ++ [(t, false)]) w.
Proof.
  unfold runHandler, castVote, callAsync, attempted.
  destruct (auto_vote_enabled settings) eqn:He.
  - destruct (bool_decide (t ∈ autoVotedTopics w)) eqn:Hd.
    + apply bool_decide_eq_true in Hd.
      rewrite Part001Facts.castVoteSync_duplicate_001 by assumption. reflexivity.
    + apply bool_decide_eq_false in Hd.
      rewrite Part001Facts.castVoteSync_fresh_001 by assumption. reflexivity.
  - rewrite Part001Facts.castVoteSync_disabled_001 by exact He. reflexivity.
Qed.

Lemma visitCheck_registry_001 topic w :
  topicModel w = Some topic ->
  registryView (runHandler (visitCheck settings site) w)
  = registryView
      (if (user_id topic =? uid (currentUser w)) && can_vote topic
          && negb (user_voted topic) && isCategoryAllowed settings site (category_id topic)
          && auto_vote_enabled settings
       then attempted (topic_id topic) "" w
       else w).
Proof.
  intros Ht. unfold visitCheck.
  rewrite (runHandler_bind _ _ w (Some topic) w) by (unfold get; rewrite Ht; reflexivity).
  rewrite (runHandler_bind _ _ w (currentUser w) w) by reflexivity.
  destruct ((user_id topic =? uid (currentUser w)) && can_vote topic
            && negb (user_voted topic)
            && isCategoryAllowed settings site (category_id topic));
    [|reflexivity].
  cbn [when andb]. rewrite castVote_run_001.
  destruct (auto_vote_enabled settings); [|reflexivity].
  unfold attempted. destruct (bool_decide (topic_id topic ∈ autoVotedTopics w)); reflexivity.
Qed.

End Facts.
End Part001Triggers.

(** Reading a trigger off the registry view it leaves. *)
Lemma attempted_sends (c : bool) t src w w' :
  registryView w' = registryView (if c then attempted t src w else w) ->
  (forall t', posts w' = posts w ++ [t'] <-> t' = t /\ c = true /\ t ∉ autoVotedTopics w)
  /\ (c = true -> t ∉ autoVotedTopics w ->
      autoVotedTopics w' = {[t]} ∪ autoVotedTopics w
      /\ pending w' = pending w ++ [CastVoteAwait t src])
  /\ (~ (c = true /\ t ∉ autoVotedTopics w) -> registryView w' = registryView w).
Proof.
  intros Hv.
  assert (Hcases : (c = true /\ (t ∉ autoVotedTopics w)
                    /\ registryView w'
                       = registryView
                           (setPending (pending w ++ [CastVoteAwait t src])
                              (setPosts (posts w ++ [t])
                                 (setAutoVoted ({[t]} ∪ autoVotedTopics w) w))))
                   \/ (~ (c = true /\ t ∉ autoVotedTopics w)
                       /\ registryView w' = registryView w)).
  { destruct c.
    - unfold attempted in Hv. destruct (bool_decide (t ∈ autoVotedTopics w)) eqn:Hd.
      + apply bool_decide_eq_true in Hd. right. split; [|exact Hv]. intros [_ Hn]. auto.
      + apply bool_decide_eq_false in Hd. left. auto.
    - right. split; [|exact Hv]. intros [H _]. discriminate. }
  destruct Hcases as [(Hc & Hn & Hw) | (Hnot & Hw)];
    unfold registryView in Hw; injection Hw as Ha Hp Ht Hq Hs; cbn in Ha, Hq, Hs.
  - split; [|split].
    + intros t'. rewrite Hs. split.
      * intros H. apply app_singleton_inv in H. auto.
      * intros (-> & _ & _). reflexivity.
    + intros _ _. split; assumption.
    + intros Hnot. destruct Hnot. auto.
  - split; [|split].
    + intros t'. rewrite Hs. split.
      * intros H. symmetry in H. apply app_singleton_neq in H. destruct H.
      * intros (-> & Hc & Hn). destruct Hnot. auto.
    + intros Hc Hn. destruct Hnot. auto.
    + intros _. unfold registryView. congruence.
Qed.

Lemma trigger_sends (cand : option Z) (c : bool) src w w' :
  registryView w'
  = registryView (match cand with
                  | Some t => if c then attempted t src w else w
                  | None => w
                  end) ->
  (forall t, posts w' = posts w ++ [t] <->
             cand = Some t /\ c = true /\ t ∉ autoVotedTopics w)
  /\ ((forall t, posts w' <> posts w ++ [t]) -> registryView w' = registryView w).
Proof.
  intros Hv. destruct cand as [t0|].
  - destruct (attempted_sends c t0 src w w' Hv) as (Hiff & _ & Hnot). split.
    + intros t. rewrite Hiff. split.
      * intros (-> & Hc & Hn). auto.
      * intros ([= ->] & Hc & Hn). auto.
    + intros Hnone. apply Hnot. intros [Hc Hn].
      apply (Hnone t0). apply Hiff. auto.
  - split; [|intros _; exact Hv].
    intros t. split; [|intros ([=] & _)].
    intros H. unfold registryView in Hv. injection Hv as _ _ _ _ Hs.
    rewrite Hs in H. symmetry in H. apply app_singleton_neq in H. destruct H.
Qed.

Lemma existsb_eqb_In (x : string) (l : list string) :
  existsb (String.eqb x) l = true <-> In x l.
Proof.
  rewrite existsb_exists. split.
  - intros (y & Hy & He). apply String.eqb_eq in He. subst. exact Hy.
  - intros H. exists x. split; [exact H | apply String.eqb_refl].
Qed.

(** ** What [updateVoteUI] leaves on the page *)

Module PageAfter.
Import Dom UpdateVoteUIFacts.

Lemma length_applyAt o f (d : list Element) : length (applyAt o f d) = length d.
Proof. destruct o; [apply length_alter | reflexivity]. Qed.

Lemma length_updateDoc n d : length (updateDoc n d) = length d.
Proof. rewrite updateDoc_updateAt. unfold updateAt. rewrite !length_applyAt. reflexivity. Qed.

(** The element at [x] after the three steps, each applied when [x] is the
    step's target. *)
Definition after (i j k : option nat) (n : Z) (x : nat) (e : Element) : Element :=
  (if decide (k = Some x) then reflectWrapper else fun e => e)
    ((if decide (j = Some x) then reflectButton else fun e => e)
       ((if decide (i = Some x) then reflectCount n else fun e => e) e)).

Lemma lookup_updateDoc n d x :
  updateDoc n d !! x
  = after (findIndex (hasClass "vote-count-number") d)
          (findIndex (hasClass "vote-button") d)
          (findIndex (hasClass "voting-wrapper") d) n x <$> d !! x.
Proof.
  rewrite updateDoc_updateAt. unfold updateAt, after.
  rewrite !lookup_applyAt. destruct (d !! x); reflexivity.
Qed.

Lemma hasClass_other cls cl :
  cls <> "vote" -> cls <> "nonvote" ->
  existsb (String.eqb cls) (votedClasses cl) = existsb (String.eqb cls) cl.
Proof.
  intros H1 H2. apply votedClasses_other; apply String.eqb_neq; assumption.
Qed.

Section After.
  Variables (i j k : option nat) (n : Z) (x : nat) (e : Element).

Lemma after_other_classes cls :
  cls <> "vote" -> cls <> "nonvote" -> hasClass cls (after i j k n x e) = hasClass cls e.
Proof.
  intros H1 H2. unfold after, hasClass.
  destruct (decide (k = Some x)), (decide (j = Some x)), (decide (i = Some x));
    cbn [reflectWrapper reflectButton reflectCount classList];
    rewrite ?hasClass_other by assumption; reflexivity.
Qed.

Lemma after_text : text (after i j k n x e) = if decide (i = Some x) then Js.numberToString n else text e.
Proof.
  unfold after.
  destruct (decide (k = Some x)), (decide (j = Some x)), (decide (i = Some x)); reflexivity.
Qed.

Lemma after_voted :
  j = Some x \/ k = Some x ->
  hasClass "vote" (after i j k n x e) = true /\ hasClass "nonvote" (after i j k n x e) = false.
Proof.
  intros H. unfold after, hasClass.
  destruct (decide (k = Some x)), (decide (j = Some x)), (decide (i = Some x));
    try (destruct H; contradiction);
    cbn [reflectWrapper reflectButton reflectCount classList];
    rewrite ?votedClasses_idem;
    (split; [apply votedClasses_has_vote | apply votedClasses_no_nonvote]).
Qed.

Lemma after_classes :
  j <> Some x -> k <> Some x -> classList (after i j k n x e) = classList e.
Proof.
  intros Hj Hk. unfold after.
  destruct (decide (k = Some x)), (decide (j = Some x)), (decide (i = Some x));
    try contradiction; reflexivity.
Qed.

Lemma after_span :
  span (after i j k n x e)
  = let s := if decide (i = Some x) then None else span e in
    if decide (j = Some x) then markedSpan s else s.
Proof.
  unfold after.
  destruct (decide (k = Some x)), (decide (j = Some x)), (decide (i = Some x)); reflexivity.
Qed.

End After.
End PageAfter.

(** ** The number captured from a topic path *)

Module Capture.
Import Js.

Lemma isDigit_plain c :
  isDigit c = true ->
  isWhiteSpace c = false /\ c <> "-"%char /\ c <> "+"%char.
Proof.
  destruct c as [[] [] [] [] [] [] [] []]; intros H; try discriminate H;
    (split; [reflexivity | split; discriminate]).
Qed.

Lemma digitValue_nonneg c : 0 <= digitValue c.
Proof. unfold digitValue. lia. Qed.

Lemma parseDigits_nonneg s acc : 0 <= acc -> 0 <= parseDigits acc s.
Proof.
  revert acc. induction s as [|c s IH]; intros acc H; cbn [parseDigits]; [exact H|].
  destruct (isDigit c); [|exact H].
  apply IH. pose proof (digitValue_nonneg c). lia.
Qed.

(** A string that starts with a digit is read from its first character. *)
Lemma parseInt_digits s :
  startsWithDigit s = true -> parseInt s = Some (parseDigits 0 s).
Proof.
  destruct s as [|c s]; [discriminate|]. cbn [startsWithDigit]. intros Hc.
  destruct (isDigit_plain c Hc) as (Hw & Hm & Hp).
  unfold parseInt. cbn [trimStart]. rewrite Hw.
  destruct c as [[] [] [] [] [] [] [] []]; try discriminate Hc;
    cbn [startsWithDigit]; try rewrite Hc; try reflexivity;
    try (exfalso; apply Hm; reflexivity); try (exfalso; apply Hp; reflexivity).
Qed.

Lemma takeDigits_starts s : startsWithDigit s = true -> startsWithDigit (takeDigits s) = true.
Proof.
  destruct s as [|c s]; [discriminate|]. cbn [startsWithDigit takeDigits].
  intros Hc. rewrite Hc. exact Hc.
Qed.

Fixpoint allDigits (s : string) : bool :=
  match s with
  | EmptyString => true
  | String c s' => isDigit c && allDigits s'
  end.

Lemma takeDigits_allDigits s : allDigits (takeDigits s) = true.
Proof.
  induction s as [|c s IH]; [reflexivity|]. cbn [takeDigits].
  destruct (isDigit c) eqn:Hc; [|reflexivity]. cbn [allDigits]. rewrite Hc. exact IH.
Qed.

Lemma matchTopicHere_digits s ds :
  matchTopicHere s = Some ds -> startsWithDigit ds = true /\ allDigits ds = true.
Proof.
  unfold matchTopicHere.
  destruct s as [|a [|b [|c [|d r]]]]; try discriminate.
  destruct (isSlash a && Ascii.eqb b "t" && isSlash c && negb (isSlash d)); [|discriminate].
  destruct (skipNonSlash r) as [|x ds']; [discriminate|].
  destruct (startsWithDigit ds') eqn:Hd; [|discriminate].
  intros [= <-]. split; [apply takeDigits_starts, Hd | apply takeDigits_allDigits].
Qed.

Lemma matchTopic_digits url ds :
  matchTopic url = Some ds -> startsWithDigit ds = true /\ allDigits ds = true.
Proof.
  induction url as [|c url IH]; cbn [matchTopic].
  - destruct (matchTopicHere "") as [x|] eqn:Hx; [|discriminate].
    intros [= <-]. apply (matchTopicHere_digits _ _ Hx).
  - destruct (matchTopicHere (String c url)) as [x|] eqn:Hx.
    + intros [= <-]. apply (matchTopicHere_digits _ _ Hx).
    + exact IH.
Qed.

(** The decimal numeral of a number, as [String(n)] writes it. *)
Lemma allDigits_uint d : allDigits (NilEmpty.string_of_uint d) = true.
Proof. induction d; [reflexivity|..]; cbn [NilEmpty.string_of_uint allDigits]; exact IHd. Qed.

Lemma parseDigits_uint d acc :
  parseDigits acc (NilEmpty.string_of_uint d)
  = Z.of_N (Unsigned.of_lu (Decimal.rev d)) + acc * 10 ^ Z.of_N (Unsigned.usize d).
Proof.
  revert acc. induction d; intros acc; [cbn; lia|..];
    cbn [NilEmpty.string_of_uint parseDigits];
    match goal with |- context [isDigit ?c] => change (isDigit c) with true end;
    cbn match; rewrite IHd;
    match goal with |- context [digitValue ?c] =>
      let v := eval vm_compute in (digitValue c) in change (digitValue c) with v end;
    unfold Decimal.rev at 2; cbn [Decimal.revapp];
    match goal with |- context [Decimal.revapp d ?t] =>
      rewrite (Unsigned.of_lu_revapp d t);
      let v := eval vm_compute in (Unsigned.of_lu t) in change (Unsigned.of_lu t) with v end;
    cbn [Unsigned.usize];
    rewrite N2Z.inj_add, N2Z.inj_mul, N2Z.inj_pow, N2Z.inj_succ;
    rewrite Z.pow_succ_r by lia;
    change (Z.of_N 10) with 10; cbn [Z.of_N]; ring.
Qed.

Lemma numberToString_digits n :
  0 <= n ->
  numberToString n <> "" /\ allDigits (numberToString n) = true
  /\ parseDigits 0 (numberToString n) = n.
Proof.
  intros Hn. unfold numberToString. destruct n as [|p|p]; [| |lia].
  - split; [discriminate|]. split; reflexivity.
  - cbn [Z.to_int NilZero.string_of_int].
    pose proof (Unsigned.to_uint_nonnil p) as Hnil.
    assert (Hs : NilZero.string_of_uint (Pos.to_uint p) = NilEmpty.string_of_uint (Pos.to_uint p)).
    { unfold NilZero.string_of_uint. destruct (Pos.to_uint p); [congruence|..]; reflexivity. }
    rewrite Hs. split.
    { destruct (Pos.to_uint p); [congruence|..]; discriminate. }
    split; [apply allDigits_uint|].
    rewrite parseDigits_uint, <- Unsigned.of_uint_alt, Unsigned.of_to. cbn [Z.of_N]. lia.
Qed.

Lemma allDigits_starts s : s <> "" -> allDigits s = true -> startsWithDigit s = true.
Proof.
  destruct s as [|c s]; [congruence|]. cbn [allDigits startsWithDigit].
  intros _ H. apply andb_true_iff in H. apply H.
Qed.

Lemma takeDigits_app ds rest :
  allDigits ds = true -> startsWithDigit rest = false -> takeDigits (ds ++ rest) = ds.
Proof.
  intros Hd Hr. induction ds as [|c ds IH].
  - destruct rest as [|r rest]; [reflexivity|]. cbn [startsWithDigit] in Hr.
    change (takeDigits ("" ++ String r rest))
      with (if isDigit r then String r (takeDigits rest) else "").
    rewrite Hr. reflexivity.
  - cbn [allDigits] in Hd. apply andb_true_iff in Hd. destruct Hd as [Hc Hd].
    rewrite append_cons. cbn [takeDigits]. rewrite Hc, (IH Hd). reflexivity.
Qed.

Lemma matchTopic_path slug ds rest :
  slug <> "" -> slashFree slug = true ->
  ds <> "" -> allDigits ds = true -> startsWithDigit rest = false ->
  matchTopic ("/t/" ++ slug ++ "/" ++ ds ++ rest) = Some ds.
Proof.
  intros Hne Hf Hd Ha Hr. destruct slug as [|c slug']; [congruence|].
  cbn [slashFree] in Hf. apply andb_true_iff in Hf. destruct Hf as [Hc Hf].
  change (("/t/" ++ String c slug' ++ "/" ++ ds ++ rest)%string)
    with (String "/" (String "t" (String "/" (String c (slug' ++ String "/" (ds ++ rest)))))).
  cbn [matchTopic]. unfold matchTopicHere.
  change (isSlash "/") with true. change (Ascii.eqb "t" "t") with true.
  rewrite Hc. cbn [andb].
  rewrite skipNonSlash_app by exact Hf.
  assert (Hs : startsWithDigit (ds ++ rest) = true).
  { destruct ds as [|d ds']; [congruence|]. rewrite append_cons.
    cbn [allDigits] in Ha. apply andb_true_iff in Ha. apply Ha. }
  rewrite Hs, takeDigits_app by assumption. reflexivity.
Qed.

End Capture.

(** ** The registry only grows *)

Module RegistryGrows.
Section Facts.
  Variable settings : Settings.
  Variable site : option Site.
  Variable t : Z.

Definition Has (w : World) : Prop := t ∈ autoVotedTopics w.

Lemma Has_view w w' : registryView w = registryView w' -> Has w -> Has w'.
Proof. unfold registryView, Has. intros [= -> _ _ _ _] H. exact H. Qed.

Lemma Has_castVoteSync_002 t' src : preserves Has (Part002.castVoteSync settings t' src).
Proof.
  intros w H. unfold Has in *. destruct (auto_vote_enabled settings) eqn:He.
  - destruct (decide (t' ∈ autoVotedTopics w)) as [Hin|Hn].
    + rewrite Part002Run.castVoteSync_duplicate_002 by assumption. exact H.
    + rewrite Part002Run.castVoteSync_fresh_002 by assumption. cbn.
      apply elem_of_union_r, H.
  - rewrite Part002Run.castVoteSync_disabled_002 by exact He. exact H.
Qed.

Lemma Has_castVoteSync_000 t' src : preserves Has (Part000.castVoteSync settings t' src).
Proof.
  intros w H. unfold Has in *. destruct (auto_vote_enabled settings) eqn:He.
  - destruct (decide (t' ∈ autoVotedTopics w)) as [Hin|Hn].
    + rewrite Part000Run.castVoteSync_duplicate_000 by assumption. exact H.
    + rewrite Part000Run.castVoteSync_fresh_000 by assumption. cbn.
      apply elem_of_union_r, H.
  - rewrite Part000Run.castVoteSync_disabled_000 by exact He. exact H.
Qed.

Lemma Has_castVoteSync_main t' src :
  preserves Has (AutoVoteOwnTopic.castVoteSync settings t' src).
Proof.
  intros w H. unfold Has in *.
  destruct (decide (t' ∈ autoVotedTopics w)) as [Hin|Hn].
  - rewrite AutoVoteOwnTopicRun.castVoteSync_duplicate_main by assumption. exact H.
  - rewrite AutoVoteOwnTopicRun.castVoteSync_fresh_main by assumption. cbn.
    apply elem_of_union_r, H.
Qed.

Lemma Has_run_002 evs w : Has w -> Has (Part002.run settings site w evs).
Proof.
  apply Part002Facts.invariant_run_002.
  - apply Has_view.
  - intros l w0 H; exact H.
  - intros k l w0 H; exact H.
  - apply Has_castVoteSync_002.
Qed.

Lemma Has_run_000 evs w : Has w -> Has (Part000.run settings w evs).
Proof.
  apply Part000Facts.invariant_run_000.
  - apply Has_view.
  - intros l w0 H; exact H.
  - intros k l w0 H; exact H.
  - apply Has_castVoteSync_000.
Qed.

Lemma Has_run_main evs w : Has w -> Has (AutoVoteOwnTopic.run settings w evs).
Proof.
  apply AutoVoteOwnTopicFacts.invariant_run_main.
  - apply Has_view.
  - intros l w0 H; exact H.
  - intros k l w0 H; exact H.
  - apply Has_castVoteSync_main.
Qed.

End Facts.
End RegistryGrows.

(** ** A vote that goes through in the drafts without reflection *)

Module PlainSuccess.

Lemma step_settle_resolved_000 settings w k t src r :
  pending w !! k = Some (CastVoteAwait t src) ->
  Part000.step settings w (AjaxSettle k (inr r))
  = setSettled (settled w ++ [(t, true)])
      (setConsole (console w ++
                     Part000Run.said settings "Vote cast successfully for topic:" [t])
         (setPending (delete k (pending w)) w)).
Proof.
  intros Hp. cbn [Part000.step]. unfold fire. rewrite Hp. cbn [Part000.settle].
  unfold runHandler, resumeAsync, Part000.castVoteResume, tryCatch, bind.
  cbn [await]. unfold ret at 1. rewrite Part000Run.log_run_000. reflexivity.
Qed.

Lemma step_settle_resolved_main settings w k t src r :
  pending w !! k = Some (CastVoteAwait t src) ->
  AutoVoteOwnTopic.step settings w (AjaxSettle k (inr r))
  = setSettled (settled w ++ [(t, true)])
      (setConsole (console w ++ [ConsoleLog "Vote API response:" [];
                                 ConsoleLog "SUCCESS! Vote cast for topic:" [t]])
         (setPending (delete k (pending w)) w)).
Proof.
  intros Hp. cbn [AutoVoteOwnTopic.step]. unfold fire. rewrite Hp.
  cbn [AutoVoteOwnTopic.settle].
  unfold runHandler, resumeAsync, AutoVoteOwnTopic.castVoteResume, tryCatch, bind.
  cbn. rewrite <- app_assoc. reflexivity.
Qed.

End PlainSuccess.

(** * Properties of the drafts beyond the claims *)

(** X1.  Errors leaving the component.  In [Part002], [Part000] and the
    api-initializer, whatever events a session delivers and however the vote
    requests settle, each handler ends normally and no [castVote] promise is
    rejected: the errors that escaped are, after the session, those that had
    escaped before it.  In [Part001] one error does escape: [save] chains its
    callback with [then] and no rejection handler, so when a save it hooked
    is rejected the chained promise is rejected unhandled, once for each such
    save; every other event leaves no error behind, and a session in which no
    save is rejected leaves none at all.  (The calls into the host -- the
    container lookups, [_super], [querySelector] -- are taken to return, and
    [_super(opts)] to return a promise; the [then] the api-initializer
    attaches to [$.ajax] is on a jQuery promise, whose rejection reports
    nothing.) *)
Theorem handlers_never_leak_errors :
  forall (settings : Settings) (site : option Site) (w : World) (evs : list Event),
    uncaught (Part002.run settings site w evs) = uncaught w
    /\ uncaught (Part000.run settings w evs) = uncaught w
    /\ uncaught (AutoVoteOwnTopic.run settings w evs) = uncaught w
    /\ (Forall Part001Contained.notSaveReject evs ->
        uncaught (Part001.run settings site w evs) = uncaught w)
    /\ (forall ev : Event,
          uncaught (Part001.step settings site w ev)
          = uncaught w ++
            match ev with
            | SaveReject k e =>
                match pending w !! k with
                | Some SaveThen => [Rejected e]
                | _ => []
                end
            | _ => []
            end).
Proof.
  intros settings site w evs.
  split; [apply Part002Contained.uncaught_run_002|].
  split; [apply Part000Contained.uncaught_run_000|].
  split; [apply AutoVoteOwnTopicContained.uncaught_run_main|].
  split; [apply Part001Contained.uncaught_run_001|].
  intros ev. apply Part001Contained.uncaught_step_001.
Qed.

(** A save of a new topic that is rejected, on the sample page. *)
Example sample_rejected_save_escapes :
  uncaught (Part001.run Sample.enabledAll None (freshWorld Sample.alice Sample.emptyPage)
              [ComposerSave true 3; SaveReject 0 Sample.serverError])
  = [Rejected Sample.serverError].
Proof. vm_compute. reflexivity. Qed.

(** X2.  With [auto_vote_enabled] off no draft ever sends a vote request or
    registers a topic, whatever the events of the session: [castVote] of
    [Part002], [Part000] and [Part001] returns at its first test, [save] of
    [Part001] attaches no callback, and every trigger of the api-initializer
    tests the setting before it calls or schedules [castVote]. *)
Theorem disabled_component_sends_nothing :
  forall (settings : Settings) (site : option Site) (u : User) (h : Host) (evs : list Event),
    auto_vote_enabled settings = false ->
    (posts (Part002.run settings site (freshWorld u h) evs) = []
     /\ autoVotedTopics (Part002.run settings site (freshWorld u h) evs) = ∅)
    /\ (posts (Part001.run settings site (freshWorld u h) evs) = []
        /\ autoVotedTopics (Part001.run settings site (freshWorld u h) evs) = ∅)
    /\ (posts (Part000.run settings (freshWorld u h) evs) = []
        /\ autoVotedTopics (Part000.run settings (freshWorld u h) evs) = ∅)
    /\ (posts (AutoVoteOwnTopic.run settings (freshWorld u h) evs) = []
        /\ autoVotedTopics (AutoVoteOwnTopic.run settings (freshWorld u h) evs) = ∅).
Proof.
  intros settings site u h evs Hoff.
  assert (Hv : forall w, sentView w = sentView (freshWorld u h) ->
                         posts w = [] /\ autoVotedTopics w = ∅).
  { intros w [= H1 H2]. split; assumption. }
  split; [apply Hv, Disabled.run_002, Hoff|].
  split.
  { apply Hv.
    apply (Disabled.Idle001_run settings Hoff site (sentView (freshWorld u h)) evs).
    repeat split. constructor. }
  split; [apply Hv, Disabled.run_000, Hoff|].
  apply Hv.
  apply (Disabled.IdleMain_run settings Hoff (sentView (freshWorld u h)) evs).
  repeat split. constructor.
Qed.

Lemma disabled_component_sends_nothing_witness :
  posts (AutoVoteOwnTopic.run (mkSettings false None false true)
           (freshWorld Sample.alice Sample.emptyPage)
           [AppEvent "topic:created" (Some (mkEventData (Some 1234) None));
            ComposerAfterSave true 3 (Some 1234);
            AjaxDone "POST" (Some "/posts") (Some (1234, 1));
            HostChange (Some Sample.ownTopic) [];
            PageChange "/t/my-topic/1234"; TimerFire 0]) = [].
Proof.
  destruct (disabled_component_sends_nothing
              (mkSettings false None false true) None Sample.alice Sample.emptyPage
              [AppEvent "topic:created" (Some (mkEventData (Some 1234) None));
               ComposerAfterSave true 3 (Some 1234);
               AjaxDone "POST" (Some "/posts") (Some (1234, 1));
               HostChange (Some Sample.ownTopic) [];
               PageChange "/t/my-topic/1234"; TimerFire 0] eq_refl)
    as (_ & _ & _ & H & _).
  exact H.
Defined.

(** X3.  A vote that goes through, in [Part002].  When the request that
    [castVote(t)] waits for is answered, the promise resolves to [true] and
    nothing escapes.  With a body, the count shown is the body's
    [vote_count] or, failing that, the model's count plus one; the page is
    updated to it; the topic model, when it is topic [t], gets that count and
    [user_voted = true], and the current user the body's [can_vote]
    (negated) and [votes_left]; a model of another topic, and the user with
    it, are left alone.  With no body the inner [catch] takes over: the page
    is updated with the count 1 and models stay as they are.  Registry,
    timers and request log do not change; the promise leaves the queue. *)
Theorem answered_vote_is_reflected :
  forall (settings : Settings) (site : option Site) (w : World) (k : nat)
         (t : Z) (src : string),
    pending w !! k = Some (CastVoteAwait t src) ->
    (forall body : VoteResponse,
       let w' := Part002.step settings site w (AjaxSettle k (inr (Some body))) in
       let n := match resp_vote_count body with
                | Some c => c
                | None => voteCountOrZero (topicModel w) + 1
                end in
       settled w' = settled w ++ [(t, true)]
       /\ uncaught w' = uncaught w
       /\ document w' = UpdateVoteUIFacts.updateDoc n (document w)
       /\ (forall topic, topicModel w = Some topic -> topic_id topic = t ->
             topicModel w'
             = Some (mkTopic t (user_id topic) (category_id topic) (can_vote topic)
                             true (Some n))
             /\ uid (currentUser w') = uid (currentUser w)
             /\ votes_exceeded (currentUser w')
                = match resp_can_vote body with
                  | Some cv => Some (negb cv)
                  | None => votes_exceeded (currentUser w)
                  end
             /\ votes_left (currentUser w')
                = match resp_votes_left body with
                  | Some vl => Some vl
                  | None => votes_left (currentUser w)
                  end)
       /\ ((forall topic, topicModel w = Some topic -> topic_id topic <> t) ->
           topicModel w' = topicModel w /\ currentUser w' = currentUser w)
       /\ registryView w' = registryView (setPending (delete k (pending w)) w))
    /\
    (let w' := Part002.step settings site w (AjaxSettle k (inr None)) in
     settled w' = settled w ++ [(t, true)]
     /\ uncaught w' = uncaught w
     /\ document w' = UpdateVoteUIFacts.updateDoc 1 (document w)
     /\ topicModel w' = topicModel w
     /\ currentUser w' = currentUser w
     /\ registryView w' = registryView (setPending (delete k (pending w)) w)).
Proof.
  intros settings site w k t src Hp. split.
  - intros body w' n.
    destruct (Part002Settle.step_settle_resolved_002 settings site w k t src (Some body) Hp)
      as (w1 & Hstep & Hsame).
    unfold w'. rewrite Hstep. clear w' Hstep.
    cbn [Part002Settle.resolved] in Hsame.
    set (w0 := setPending (delete k (pending w)) w) in *.
    assert (Hread : forall {A} (f : World -> A),
               (forall w2, f (eraseConsole w2) = f w2) ->
               f w1 = f (Part002Success.reflected t body w0)).
    { intros A f Hf. apply (sameButConsole_read f); assumption. }
    assert (Hreg : forall l, registryView (setSettled l w1) = registryView w1)
      by reflexivity.
    rewrite Hreg, (Hread _ registryView) by reflexivity.
    cbn [settled uncaught document topicModel currentUser setSettled].
    rewrite (Hread _ settled), (Hread _ uncaught), (Hread _ document),
            (Hread _ topicModel), (Hread _ currentUser) by reflexivity.
    rewrite (Part002Settle.reflected_frame settled),
            (Part002Settle.reflected_frame uncaught),
            (Part002Settle.reflected_frame registryView) by reflexivity.
    split; [reflexivity|]. split; [reflexivity|]. split; [reflexivity|].
    split; [|split; [|reflexivity]].
    + intros topic Ht Hid.
      destruct (Part002Settle.models_reflected_same t body w0 topic Ht Hid) as [Hm Hu].
      rewrite Hm, Hu. subst t. repeat split; reflexivity.
    + intros Hother. exact (Part002Settle.models_reflected_other t body w0 Hother).
  - intros w'.
    destruct (Part002Settle.step_settle_resolved_002 settings site w k t src None Hp)
      as (w1 & Hstep & Hsame).
    unfold w'. rewrite Hstep. clear w' Hstep.
    cbn [Part002Settle.resolved] in Hsame.
    assert (Hread : forall {A} (f : World -> A),
               (forall w0, f (eraseConsole w0) = f w0) ->
               f w1 = f (setDocument (UpdateVoteUIFacts.updateDoc 1
                                        (document (setPending (delete k (pending w)) w)))
                           (setPending (delete k (pending w)) w))).
    { intros A f Hf. apply (sameButConsole_read f); assumption. }
    assert (Hreg : forall l, registryView (setSettled l w1) = registryView w1)
      by reflexivity.
    rewrite Hreg, (Hread _ registryView) by reflexivity.
    cbn [settled uncaught document topicModel currentUser setSettled].
    rewrite (Hread _ settled), (Hread _ uncaught), (Hread _ document),
            (Hread _ topicModel), (Hread _ currentUser) by reflexivity.
    repeat split; reflexivity.
Qed.

Lemma answered_vote_is_reflected_witness :
  topicModel (Part002.step Sample.enabledAll None Sample.voting
                (AjaxSettle 0 (inr (Some (mkResponse (Some 1) (Some true) (Some 9))))))
  = Some (mkTopic 1234 42 3 true true (Some 1)).
Proof.
  assert (Hp : pending Sample.voting !! 0%nat = Some (CastVoteAwait 1234 "onPageChange"))
    by (vm_compute; reflexivity).
  destruct (answered_vote_is_reflected Sample.enabledAll None Sample.voting 0 1234
              "onPageChange" Hp) as [H _].
  destruct (H (mkResponse (Some 1) (Some true) (Some 9))) as (_ & _ & _ & Hm & _).
  assert (Ht : topicModel Sample.voting = Some Sample.ownTopic) by (vm_compute; reflexivity).
  destruct (Hm Sample.ownTopic Ht eq_refl) as [Hmodel _].
  exact Hmodel.
Defined.

(** X4.  The same in [Part001].  An answer with a body is reflected as in
    [Part002]: the promise resolves to [true], the page shows the new count,
    the model of topic [t] gets the count and [user_voted = true], and
    nothing is written to the console.  An answer without a body is not: the
    read of [response.vote_count] throws, the [catch] of [castVote] swallows
    it, and the promise resolves to [false] with page and models untouched,
    although the request succeeded. *)
Theorem answered_vote_in_part001 :
  forall (settings : Settings) (site : option Site) (w : World) (k : nat)
         (t : Z) (src : string),
    pending w !! k = Some (CastVoteAwait t src) ->
    (forall body : VoteResponse,
       let w' := Part001.step settings site w (AjaxSettle k (inr (Some body))) in
       let n := match resp_vote_count body with
                | Some c => c
                | None => voteCountOrZero (topicModel w) + 1
                end in
       settled w' = settled w ++ [(t, true)]
       /\ uncaught w' = uncaught w
       /\ console w' = console w
       /\ document w' = UpdateVoteUIFacts.updateDoc n (document w)
       /\ (forall topic, topicModel w = Some topic -> topic_id topic = t ->
             topicModel w'
             = Some (mkTopic t (user_id topic) (category_id topic) (can_vote topic)
                             true (Some n)))
       /\ ((forall topic, topicModel w = Some topic -> topic_id topic <> t) ->
           topicModel w' = topicModel w /\ currentUser w' = currentUser w)
       /\ registryView w' = registryView (setPending (delete k (pending w)) w))
    /\ Part001.step settings site w (AjaxSettle k (inr None))
       = setSettled (settled w ++ [(t, false)]) (setPending (delete k (pending w)) w).
Proof.
  intros settings site w k t src Hp. split.
  - intros body w' n. unfold w'.
    rewrite (Part001Settle.step_settle_001 settings site w k t src _ Hp). cbv zeta.
    rewrite Part001Settle.castVoteResume_resolved_001. cbn [fst snd].
    set (w0 := setPending (delete k (pending w)) w).
    assert (Hreg : forall l w2, registryView (setSettled l w2) = registryView w2)
      by reflexivity.
    rewrite Hreg.
    cbn [settled uncaught console document topicModel currentUser setSettled].
    rewrite (Part002Settle.reflected_frame settled),
            (Part002Settle.reflected_frame uncaught),
            (Part002Settle.reflected_frame console),
            (Part002Settle.reflected_frame registryView) by reflexivity.
    split; [reflexivity|]. split; [reflexivity|]. split; [reflexivity|].
    split; [reflexivity|].
    split; [|split; [|reflexivity]].
    + intros topic Ht Hid.
      destruct (Part002Settle.models_reflected_same t body w0 topic Ht Hid) as [Hm _].
      rewrite Hm. subst t. reflexivity.
    + intros Hother. exact (Part002Settle.models_reflected_other t body w0 Hother).
  - rewrite (Part001Settle.step_settle_001 settings site w k t src _ Hp). reflexivity.
Qed.

Lemma answered_vote_in_part001_witness :
  settled (Part001.step Sample.enabledOnVisit None
             (Part001.run Sample.enabledOnVisit None
                (freshWorld Sample.alice Sample.emptyPage) Sample.arrival)
             (AjaxSettle 0 (inr None)))
  = [(1234, false)].
Proof.
  assert (Hp : pending (Part001.run Sample.enabledOnVisit None
                          (freshWorld Sample.alice Sample.emptyPage) Sample.arrival)
               !! 0%nat = Some (CastVoteAwait 1234 ""))
    by (vm_compute; reflexivity).
  destruct (answered_vote_in_part001 Sample.enabledOnVisit None _ 0 1234 "" Hp) as [_ H].
  rewrite H. reflexivity.
Defined.

(** X5.  Arriving on a topic in [Part001].  If the composer has pre-voted
    the topic of the path, the visit moves it from [preVotedTopics] to
    [autoVotedTopics] and schedules one refresh of the page with the count 1:
    no request is sent, then or when the timer fires, and a later
    [castVote] for the topic is a duplicate.  If it has not, the visit
    schedules the check of the topic when [auto_vote_on_visit] is on and does
    nothing at all when it is off. *)
Theorem prevoted_visit_only_refreshes_page :
  forall (settings : Settings) (site : option Site) (url digits : string) (t : Z)
         (w : World),
    Js.matchTopic url = Some digits ->
    Js.parseInt digits = Some t ->
    let w1 := Part001.step settings site w (PageChange url) in
    (t ∈ preVotedTopics w ->
       w1 = setTimers (timers w ++ [ReflectOne])
              (setAutoVoted ({[t]} ∪ autoVotedTopics w)
                 (setPreVoted (preVotedTopics w ∖ {[t]}) w))
       /\ Part001.castVoteSync settings t w1 = (Normal (Some false), w1))
    /\ (t ∉ preVotedTopics w ->
        w1 = if auto_vote_on_visit settings
             then setTimers (timers w ++ [VisitCheck]) w
             else w)
    /\ (forall (k : nat) (w2 : World),
          timers w2 !! k = Some ReflectOne ->
          Part001.step settings site w2 (TimerFire k)
          = setDocument (UpdateVoteUIFacts.updateDoc 1 (document w2))
              (setTimers (delete k (timers w2)) w2)).
Proof.
  intros settings site url digits t w Hm Hd w1.
  assert (Hw1 : w1 = runHandler
                       ((if bool_decide (t ∈ preVotedTopics w)
                         then modify (fun w => setPreVoted (preVotedTopics w ∖ {[t]}) w) ;;
                              modify (fun w => setAutoVoted ({[t]} ∪ autoVotedTopics w) w) ;;
                              setTimeout ReflectOne
                         else when (auto_vote_on_visit settings) (setTimeout VisitCheck)))
                       w).
  { unfold w1. cbn [Part001.step]. unfold Part001.onPageChange, runHandler.
    rewrite Hm. unfold bind at 1. unfold get at 1. rewrite Hd. reflexivity. }
  split; [|split].
  - intros Hin. rewrite bool_decide_eq_true_2 in Hw1 by exact Hin.
    assert (Heq : w1 = setTimers (timers w ++ [ReflectOne])
                         (setAutoVoted ({[t]} ∪ autoVotedTopics w)
                            (setPreVoted (preVotedTopics w ∖ {[t]}) w)))
      by (rewrite Hw1; reflexivity).
    split; [exact Heq|].
    apply Part001Facts.castVoteSync_duplicate_001. rewrite Heq. cbn.
    apply elem_of_union_l, elem_of_singleton. reflexivity.
  - intros Hn. rewrite bool_decide_eq_false_2 in Hw1 by exact Hn.
    rewrite Hw1. destruct (auto_vote_on_visit settings); reflexivity.
  - intros k w2 Hk. cbn [Part001.step]. unfold fire. rewrite Hk.
    cbn [Part001.fireTimer]. unfold runHandler, Part001.updateVoteUI.
    rewrite UpdateVoteUIFacts.updateVoteUI_quiet. reflexivity.
Qed.

Lemma prevoted_visit_only_refreshes_page_witness :
  posts (Part001.run Sample.enabledOnVisit None (freshWorld Sample.alice Sample.emptyPage)
           [ComposerSave true 3; SaveSettle 0 (Some 1234);
            PageChange "/t/my-topic/1234"; TimerFire 0])
  = [1234].
Proof.
  pose (w := Part001.run Sample.enabledOnVisit None
               (freshWorld Sample.alice Sample.emptyPage)
               [ComposerSave true 3; SaveSettle 0 (Some 1234)]).
  assert (Hin : 1234 ∈ preVotedTopics w).
  { apply (bool_decide_eq_true (1234 ∈ preVotedTopics w)). vm_compute. reflexivity. }
  destruct (prevoted_visit_only_refreshes_page Sample.enabledOnVisit None
              "/t/my-topic/1234" "1234" 1234 w eq_refl eq_refl) as (Hpre & _ & Hfire).
  destruct (Hpre Hin) as [Hw1 _].
  change (posts (Part001.step Sample.enabledOnVisit None
                   (Part001.step Sample.enabledOnVisit None w
                      (PageChange "/t/my-topic/1234")) (TimerFire 0)) = [1234]).
  rewrite Hw1. rewrite (Hfire 0%nat) by reflexivity. reflexivity.
Defined.

(** X6.  The visit vote of [Part001] is opt-in.  With [auto_vote_on_visit]
    off, [castVote] is never called in a session: no promise of it is waiting
    or settled, whatever the events.  If moreover the composer saves nothing,
    no request is sent at all and the registry stays empty. *)
Theorem visit_vote_is_opt_in :
  forall (settings : Settings) (site : option Site) (u : User) (h : Host)
         (evs : list Event),
    auto_vote_on_visit settings = false ->
    let w := Part001.run settings site (freshWorld u h) evs in
    settled w = []
    /\ (forall t src, ~ In (CastVoteAwait t src) (pending w))
    /\ (Forall Part001Facts.notComposerSave evs ->
        posts w = [] /\ autoVotedTopics w = ∅).
Proof.
  intros settings site u h evs Hoff w.
  assert (Hu : Part001Visit.Unvisited w).
  { apply Part001Visit.Unvisited_run; [exact Hoff|]. repeat split; constructor. }
  destruct Hu as (Hs & _ & Hp).
  split; [exact Hs|]. split.
  - intros t src Hin. rewrite Forall_forall in Hp.
    apply list_elem_of_In in Hin. exact (Hp _ Hin).
  - intros Hevs.
    assert (Ht : Part001Visit.Untouched w).
    { apply Part001Visit.Untouched_run; [exact Hoff | exact Hevs|].
      repeat split; constructor. }
    destruct Ht as (H1 & H2 & _). split; assumption.
Qed.

Lemma visit_vote_is_opt_in_witness :
  posts (Part001.run Sample.enabledAll None (freshWorld Sample.alice Sample.emptyPage)
           Sample.arrival) = [].
Proof.
  destruct (visit_vote_is_opt_in Sample.enabledAll None Sample.alice Sample.emptyPage
              Sample.arrival eq_refl) as (_ & _ & H).
  apply H. repeat constructor.
Defined.

(** X7.  The app-event trigger of the api-initializer.  An event makes the
    component send a vote request for [t] exactly when the event is one of
    the six watched, [data?.topic_id || data?.id] is [t], the component is
    enabled and [t] is new to the registry; otherwise registry, queues and
    request log stay as they are.  The topic's creator, its [can_vote] and
    [user_voted] flags and the category policy are not looked at.  The id is
    [data.topic_id] when that is a non-zero number, and else [data.id]
    (whatever kind of object the event carries). *)
Theorem app_event_votes_without_checks :
  forall (settings : Settings) (name : string) (data : option EventData) (w : World),
    let w' := AutoVoteOwnTopic.step settings w (AppEvent name data) in
    (forall t, posts w' = posts w ++ [t] <->
       In name AutoVoteOwnTopic.eventsToWatch
       /\ AutoVoteOwnTopic.eventTopicId data = Some t
       /\ auto_vote_enabled settings = true
       /\ t ∉ autoVotedTopics w)
    /\ ((forall t, posts w' <> posts w ++ [t]) -> registryView w' = registryView w)
    /\ (forall d a, data = Some d -> data_topic_id d = Some a -> a <> 0 ->
          AutoVoteOwnTopic.eventTopicId data = Some a)
    /\ (forall d b, data = Some d ->
          data_topic_id d = None \/ data_topic_id d = Some 0 ->
          data_id d = Some b -> b <> 0 ->
          AutoVoteOwnTopic.eventTopicId data = Some b)
    /\ uncaught w' = uncaught w.
Proof.
  intros settings name data w w'.
  assert (Hv : registryView w'
               = registryView
                   (match AutoVoteOwnTopic.eventTopicId data with
                    | Some t =>
                        if existsb (String.eqb name) AutoVoteOwnTopic.eventsToWatch
                           && auto_vote_enabled settings
                        then attempted t ("appEvent:" ++ name)%string w
                        else w
                    | None => w
                    end)).
  { unfold w'. cbn [AutoVoteOwnTopic.step].
    destruct (existsb (String.eqb name) AutoVoteOwnTopic.eventsToWatch).
    - rewrite AutoVoteOwnTopicTriggers.onAppEvent_registry. reflexivity.
    - destruct (AutoVoteOwnTopic.eventTopicId data); reflexivity. }
  destruct (trigger_sends _ _ _ _ _ Hv) as [Hiff Hnone].
  split; [|split; [exact Hnone|split; [|split]]].
  - intros t. rewrite Hiff, andb_true_iff, existsb_eqb_In. tauto.
  - intros d a -> Ha Hnz. unfold AutoVoteOwnTopic.eventTopicId, AutoVoteOwnTopic.truthyId.
    rewrite Ha. apply Z.eqb_neq in Hnz. rewrite Hnz. reflexivity.
  - intros d b -> Ha Hb Hnz.
    unfold AutoVoteOwnTopic.eventTopicId, AutoVoteOwnTopic.truthyId.
    apply Z.eqb_neq in Hnz. destruct Ha as [-> | ->]; rewrite Hb; cbn; rewrite Hnz; reflexivity.
  - apply AutoVoteOwnTopicContained.uncaught_step_main.
Qed.

(** X8.  The composer trigger of the api-initializer.  [afterSave] makes the
    component send a vote request for [t] exactly when a topic is being
    created, the result carries the non-zero [topic_id] [t], the component is
    enabled, the composer's category passes [isCategoryAllowed] and [t] is
    new to the registry; otherwise registry, queues and request log stay as
    they are. *)
Theorem composer_afterSave_votes_for_new_topics :
  forall (settings : Settings) (creatingTopic : bool) (categoryId : Z)
         (postTopicId : option Z) (w : World),
    let w' := AutoVoteOwnTopic.step settings w
                (ComposerAfterSave creatingTopic categoryId postTopicId) in
    (forall t, posts w' = posts w ++ [t] <->
       creatingTopic = true
       /\ postTopicId = Some t /\ t <> 0
       /\ auto_vote_enabled settings = true
       /\ fst (AutoVoteOwnTopic.isCategoryAllowed settings categoryId w) = Normal true
       /\ t ∉ autoVotedTopics w)
    /\ ((forall t, posts w' <> posts w ++ [t]) -> registryView w' = registryView w)
    /\ uncaught w' = uncaught w.
Proof.
  intros settings ct cat p w w'.
  assert (Hv : registryView w'
               = registryView
                   (match AutoVoteOwnTopic.truthyId p with
                    | Some t =>
                        if ct && (auto_vote_enabled settings
                                  && AutoVoteOwnTopicChecks.categoryAllowed settings cat)
                        then attempted t "composer:afterSave" w
                        else w
                    | None => w
                    end)).
  { unfold w'. cbn [AutoVoteOwnTopic.step].
    rewrite AutoVoteOwnTopicTriggers.afterSave_registry.
    destruct ct; destruct (AutoVoteOwnTopic.truthyId p); reflexivity. }
  destruct (trigger_sends _ _ _ _ _ Hv) as [Hiff Hnone].
  split; [|split; [exact Hnone|]].
  - intros t. rewrite Hiff, !andb_true_iff.
    rewrite AutoVoteOwnTopicChecks.isCategoryAllowed_run_main. cbn [fst].
    assert (Hid : AutoVoteOwnTopic.truthyId p = Some t <-> p = Some t /\ t <> 0).
    { unfold AutoVoteOwnTopic.truthyId. destruct p as [n|]; [|split; [discriminate | intros [[=] _]]].
      destruct (n =? 0) eqn:Hn.
      - apply Z.eqb_eq in Hn. split; [discriminate | intros [[= ->] H0]; contradiction].
      - apply Z.eqb_neq in Hn. split; [intros [= ->]; auto | intros [[= ->] _]; reflexivity]. }
    rewrite Hid. split.
    + intros ((Hp & Hnz) & (Hct & He & Ha) & Hn). rewrite Ha. auto 10.
    + intros (Hct & Hp & Hnz & He & Ha & Hn). injection Ha as Ha. auto 10.
  - apply AutoVoteOwnTopicContained.uncaught_step_main.
Qed.

(** X9.  The [$.ajax] interceptor of the api-initializer.  A finished
    request schedules a delayed [castVote(t)] exactly when it was a POST
    whose url contains "/posts", the response carries a post with the
    non-zero [topic_id] [t] and [post_number] 1, and the component is
    enabled; it sends nothing itself and schedules nothing otherwise.  When
    the timer fires, [castVote] is called with no further test: a request
    for [t] leaves unless [t] is already in the registry. *)
Theorem ajax_interceptor_schedules_vote :
  forall (settings : Settings) (type : string) (url : option string)
         (post : option (Z * Z)) (w : World),
    let w' := AutoVoteOwnTopic.step settings w (AjaxDone type url post) in
    (forall t, timers w' = timers w ++ [DelayedCast t] <->
       type = "POST"
       /\ (exists u, url = Some u /\ Js.includes "/posts" u = true)
       /\ post = Some (t, 1) /\ t <> 0
       /\ auto_vote_enabled settings = true)
    /\ ((forall t, timers w' <> timers w ++ [DelayedCast t]) -> timers w' = timers w)
    /\ posts w' = posts w
    /\ autoVotedTopics w' = autoVotedTopics w
    /\ pending w' = pending w
    /\ (forall (k : nat) (t : Z) (w2 : World),
          timers w2 !! k = Some (DelayedCast t) ->
          let w3 := AutoVoteOwnTopic.step settings w2 (TimerFire k) in
          timers w3 = delete k (timers w2)
          /\ (t ∉ autoVotedTopics w2 ->
              posts w3 = posts w2 ++ [t]
              /\ autoVotedTopics w3 = {[t]} ∪ autoVotedTopics w2
              /\ pending w3 = pending w2 ++ [CastVoteAwait t "ajax:interceptor"])
          /\ (t ∈ autoVotedTopics w2 -> posts w3 = posts w2 /\ pending w3 = pending w2)).
Proof.
  intros settings ty url post w w'.
  pose proof (AutoVoteOwnTopicTriggers.onAjaxDone_registry settings ty url post w) as Hv.
  change (runHandler (AutoVoteOwnTopic.onAjaxDone settings ty url post) w) with w' in Hv.
  set (cond := fun t n =>
         String.eqb ty "POST"
         && Js.includes "/posts" (match url with Some u => u | None => "" end)
         && (negb (t =? 0) && (n =? 1))
         && auto_vote_enabled settings) in *.
  assert (Hcond : forall t n, cond t n = true <->
            ty = "POST"
            /\ (exists u, url = Some u /\ Js.includes "/posts" u = true)
            /\ n = 1 /\ t <> 0 /\ auto_vote_enabled settings = true).
  { intros t n. unfold cond.
    rewrite !andb_true_iff, String.eqb_eq, negb_true_iff, Z.eqb_neq, Z.eqb_eq.
    assert (Hu : Js.includes "/posts" (match url with Some u => u | None => "" end) = true
                 <-> exists u, url = Some u /\ Js.includes "/posts" u = true).
    { destruct url as [u|].
      - split; [intros H; exists u; auto | intros (u' & [= <-] & H); exact H].
      - split; [discriminate | intros (u' & [=] & _)]. }
    rewrite Hu. tauto. }
  assert (Hview : registryView w'
                  = registryView (match post with
                                  | Some (t, n) =>
                                      if cond t n
                                      then setTimers (timers w ++ [DelayedCast t]) w
                                      else w
                                  | None => w
                                  end)) by exact Hv.
  clear Hv.
  assert (Hrest : posts w' = posts w /\ autoVotedTopics w' = autoVotedTopics w
                  /\ pending w' = pending w).
  { unfold registryView in Hview. injection Hview as Ha _ _ Hq Hs.
    destruct post as [[t n]|]; [destruct (cond t n)|]; cbn in Ha, Hq, Hs; auto. }
  assert (Htimers : timers w'
                    = match post with
                      | Some (t, n) => if cond t n then timers w ++ [DelayedCast t] else timers w
                      | None => timers w
                      end).
  { unfold registryView in Hview. injection Hview as _ _ Ht _ _.
    destruct post as [[t n]|]; [destruct (cond t n)|]; exact Ht. }
  split; [|split; [|split; [apply Hrest | split; [apply Hrest | split; [apply Hrest|]]]]].
  - intros t. rewrite Htimers. destruct post as [[t0 n]|].
    + destruct (cond t0 n) eqn:Hc.
      * apply Hcond in Hc. destruct Hc as (H1 & H2 & -> & H4 & H5). split.
        -- intros H. apply app_singleton_inv in H. injection H as <-. auto 10.
        -- intros (_ & _ & [= ->] & _). reflexivity.
      * split.
        -- intros H. symmetry in H. apply app_singleton_neq in H. destruct H.
        -- intros (H1 & H2 & [= -> ->] & H4 & H5).
           assert (Ht : cond t 1 = true) by (apply Hcond; auto 10). congruence.
    + split.
      * intros H. symmetry in H. apply app_singleton_neq in H. destruct H.
      * intros (_ & _ & [=] & _).
  - intros Hnone. rewrite Htimers. destruct post as [[t0 n]|]; [|reflexivity].
    destruct (cond t0 n) eqn:Hc; [|reflexivity].
    exfalso. apply (Hnone t0). exact Htimers.
  - intros k t w2 Hk w3.
    pose proof (AutoVoteOwnTopicTriggers.fire_delayedCast settings k t w2 Hk) as Hf.
    fold w3 in Hf. unfold attempted in Hf. cbn [autoVotedTopics setTimers] in Hf.
    split; [|split].
    + unfold registryView in Hf. injection Hf as _ _ Ht _ _. rewrite Ht.
      destruct (bool_decide (t ∈ autoVotedTopics w2)); reflexivity.
    + intros Hn. rewrite bool_decide_eq_false_2 in Hf by exact Hn.
      unfold registryView in Hf. injection Hf as Ha _ _ Hq Hs. auto.
    + intros Hin. rewrite bool_decide_eq_true_2 in Hf by exact Hin.
      unfold registryView in Hf. injection Hf as _ _ _ Hq Hs. auto.
Qed.

(** X10.  The [topic:created] trigger of [Part000].  The event makes the
    component send a vote request for [t] exactly when its data carries the
    non-zero id [t] and a category that passes [isCategoryAllowed], the
    component is enabled and [t] is new to the registry; otherwise registry,
    queues and request log stay as they are.  Who created the topic is not
    looked at. *)
Theorem topic_created_event_votes :
  forall (settings : Settings) (data : option (Z * Z)) (w : World),
    let w' := Part000.step settings w (TopicCreated data) in
    (forall t, posts w' = posts w ++ [t] <->
       (exists c, data = Some (t, c) /\ Part000.isCategoryAllowed settings c = true)
       /\ t <> 0
       /\ auto_vote_enabled settings = true
       /\ t ∉ autoVotedTopics w)
    /\ ((forall t, posts w' <> posts w ++ [t]) -> registryView w' = registryView w)
    /\ uncaught w' = uncaught w.
Proof.
  intros settings data w w'.
  assert (Hv : registryView w'
               = registryView
                   (match option_map fst data with
                    | Some t =>
                        if match data with
                           | Some (t0, c) =>
                               negb (t0 =? 0) && Part000.isCategoryAllowed settings c
                               && auto_vote_enabled settings
                           | None => false
                           end
                        then attempted t "topic:created" w
                        else w
                    | None => w
                    end)).
  { unfold w'. cbn [Part000.step]. rewrite Part000Triggers.onTopicCreated_registry.
    destruct data as [[t c]|]; reflexivity. }
  destruct (trigger_sends _ _ _ _ _ Hv) as [Hiff Hnone].
  split; [|split; [exact Hnone|]].
  - intros t. rewrite Hiff. destruct data as [[t0 c]|]; cbn [option_map fst].
    + rewrite !andb_true_iff, negb_true_iff, Z.eqb_neq. split.
      * intros ([= ->] & ((Hnz & Ha) & He) & Hn). split; [exists c; auto | auto].
      * intros ((c' & [= -> ->] & Ha) & Hnz & He & Hn). auto 10.
    + split; [intros ([=] & _) | intros ((c & [=] & _) & _)].
  - apply Part000Contained.uncaught_step_000.
Qed.

(** X11.  The navigation fallback of [Part000] and the visit vote of
    [Part001].  When the scheduled check finds a topic in the topic
    controller, a vote request for it leaves exactly when its [user_id] is
    the current user's, [can_vote] is true, [user_voted] is false, its
    category passes the draft's [isCategoryAllowed], the component is enabled
    and the topic is new to the registry; otherwise only the timer leaves its
    queue. *)
Theorem visit_check_votes_iff_checks_pass :
  forall (settings : Settings) (site : option Site) (k : nat) (topic : Topic) (w : World),
    timers w !! k = Some VisitCheck ->
    topicModel w = Some topic ->
    let own := user_id topic = uid (currentUser w)
               /\ can_vote topic = true /\ user_voted topic = false in
    let t := topic_id topic in
    (let w' := Part000.step settings w (TimerFire k) in
     (posts w' = posts w ++ [t] <->
        own /\ Part000.isCategoryAllowed settings (category_id topic) = true
        /\ auto_vote_enabled settings = true /\ t ∉ autoVotedTopics w)
     /\ (posts w' <> posts w ++ [t] ->
         registryView w' = registryView (setTimers (delete k (timers w)) w)))
    /\
    (let w' := Part001.step settings site w (TimerFire k) in
     (posts w' = posts w ++ [t] <->
        own /\ Part001.isCategoryAllowed settings site (category_id topic) = true
        /\ auto_vote_enabled settings = true /\ t ∉ autoVotedTopics w)
     /\ (posts w' <> posts w ++ [t] ->
         registryView w' = registryView (setTimers (delete k (timers w)) w))).
Proof.
  intros settings site k topic w Hk Ht own t.
  set (w0 := setTimers (delete k (timers w)) w).
  assert (Hown : forall a, (user_id topic =? uid (currentUser w)) && can_vote topic
                           && negb (user_voted topic) && a && auto_vote_enabled settings = true
                           <-> own /\ a = true /\ auto_vote_enabled settings = true).
  { intros a. unfold own. rewrite !andb_true_iff, Z.eqb_eq, negb_true_iff. tauto. }
  split.
  - intros w'.
    assert (Hv : registryView w'
                 = registryView
                     (if (user_id topic =? uid (currentUser w)) && can_vote topic
                         && negb (user_voted topic)
                         && Part000.isCategoryAllowed settings (category_id topic)
                         && auto_vote_enabled settings
                      then attempted t "onPageChange" w0 else w0)).
    { unfold w'. cbn [Part000.step]. unfold fire. rewrite Hk. cbn [Part000.fireTimer].
      apply (Part000Triggers.visitCheck_registry settings topic w0). exact Ht. }
    destruct (attempted_sends _ _ _ _ _ Hv) as (Hiff & _ & Hnot).
    cbn [posts autoVotedTopics setTimers w0] in Hiff, Hnot.
    split.
    + rewrite Hiff, Hown. tauto.
    + intros Hne. apply Hnot. intros [Hc Hn]. apply Hne, Hiff. auto.
  - intros w'.
    assert (Hv : registryView w'
                 = registryView
                     (if (user_id topic =? uid (currentUser w)) && can_vote topic
                         && negb (user_voted topic)
                         && Part001.isCategoryAllowed settings site (category_id topic)
                         && auto_vote_enabled settings
                      then attempted t "" w0 else w0)).
    { unfold w'. cbn [Part001.step]. unfold fire. rewrite Hk. cbn [Part001.fireTimer].
      apply (Part001Triggers.visitCheck_registry_001 settings site topic w0). exact Ht. }
    destruct (attempted_sends _ _ _ _ _ Hv) as (Hiff & _ & Hnot).
    cbn [posts autoVotedTopics setTimers w0] in Hiff, Hnot.
    split.
    + rewrite Hiff, Hown. tauto.
    + intros Hne. apply Hnot. intros [Hc Hn]. apply Hne, Hiff. auto.
Qed.

Lemma visit_check_votes_iff_checks_pass_witness :
  posts (Part000.step Sample.enabledAll Sample.scheduled (TimerFire 0))
  = posts Sample.scheduled ++ [1234].
Proof.
  destruct (visit_check_votes_iff_checks_pass Sample.enabledAll None 0 Sample.ownTopic
              Sample.scheduled eq_refl eq_refl) as [[Hiff _] _].
  apply Hiff. repeat split. apply not_elem_of_empty.
Defined.

(** X12.  What [updateVoteUI(n)] leaves on the page.  The page keeps its
    elements; each keeps every class other than "vote" and "nonvote".  The
    first element of class "vote-count-number" shows [String(n)] and no other
    text changes.  The first "vote-button" and the first "voting-wrapper"
    carry "vote" and no longer "nonvote"; the class list of every other
    element is as it was.  The span of the button reads "Voted" if it
    contained "vote" in any case, and is otherwise unchanged, as is every
    other span but one inside the count element, which the new text
    replaces.  [Part001] leaves the same page. *)
Theorem updateVoteUI_marks_the_page_voted :
  forall (settings : Settings) (n : Z) (w : World),
    let d := document w in
    let d' := document (snd (Part002.updateVoteUI settings n w)) in
    let count := Dom.findIndex (Dom.hasClass "vote-count-number") d in
    let button := Dom.findIndex (Dom.hasClass "vote-button") d in
    let wrapper := Dom.findIndex (Dom.hasClass "voting-wrapper") d in
    length d' = length d
    /\ document (snd (Part001.updateVoteUI n w)) = d'
    /\ (forall (x : nat) (e : Element),
          d !! x = Some e ->
          exists e',
            d' !! x = Some e'
            /\ (forall cls, cls <> "vote" -> cls <> "nonvote" ->
                  Dom.hasClass cls e' = Dom.hasClass cls e)
            /\ text e' = (if decide (count = Some x) then Js.numberToString n else text e)
            /\ (button = Some x \/ wrapper = Some x ->
                Dom.hasClass "vote" e' = true /\ Dom.hasClass "nonvote" e' = false)
            /\ (button <> Some x -> wrapper <> Some x -> classList e' = classList e)
            /\ span e'
               = (let s := if decide (count = Some x) then None else span e in
                  if decide (button = Some x)
                  then match s with
                       | Some t => if Js.includes "vote" (Js.toLowerCase t)
                                   then Some "Voted" else Some t
                       | None => None
                       end
                  else s)).
Proof.
  intros settings n w d d' count button wrapper.
  assert (Hd' : d' = UpdateVoteUIFacts.updateDoc n d).
  { unfold d', Part002.updateVoteUI.
    apply UpdateVoteUIFacts.updateVoteUI_document. apply Part002Debug.silent_log. }
  rewrite Hd'. split; [apply PageAfter.length_updateDoc|]. split.
  { unfold Part001.updateVoteUI. rewrite UpdateVoteUIFacts.updateVoteUI_quiet. reflexivity. }
  intros x e Hx. rewrite PageAfter.lookup_updateDoc. fold d count button wrapper.
  rewrite Hx. cbn [fmap option_fmap option_map].
  eexists. split; [reflexivity|].
  split; [intros cls H1 H2; apply PageAfter.after_other_classes; assumption|].
  split; [apply PageAfter.after_text|].
  split; [apply PageAfter.after_voted|].
  split; [apply PageAfter.after_classes|].
  apply PageAfter.after_span.
Qed.

(** X13.  The id read from a topic path.  Whatever the path, the group that
    [/\/t\/[^/]+\/(\d+)/] captures is a non-empty run of digits, so
    [parseInt] of it is never [NaN].  On a path that starts with "/t/", a
    non-empty slug without a slash, a slash, and a topic id [n] with
    [0 <= n < 2^53] written as [String(n)] writes it, followed by something
    that does not start with a digit, the group is that numeral and
    [parseInt] of it is [n]. *)
Theorem captured_topic_id_is_a_number :
  (forall (url digits : string),
     Js.matchTopic url = Some digits ->
     digits <> ""
     /\ Capture.allDigits digits = true
     /\ Js.parseInt digits <> None)
  /\
  (forall (slug rest : string) (n : Z),
     slug <> "" ->
     slashFree slug = true ->
     0 <= n < 2 ^ 53 ->
     Js.startsWithDigit rest = false ->
     Js.matchTopic ("/t/" ++ slug ++ "/" ++ Js.numberToString n ++ rest)
       = Some (Js.numberToString n)
     /\ Js.parseInt (Js.numberToString n) = Some n).
Proof.
  split.
  - intros url digits Hm.
    destruct (Capture.matchTopic_digits url digits Hm) as [Hs Ha].
    split; [intros ->; discriminate Hs|].
    split; [exact Ha|].
    rewrite (Capture.parseInt_digits digits Hs). discriminate.
  - intros slug rest n Hne Hf Hn Hr.
    destruct (Capture.numberToString_digits n (proj1 Hn)) as (Hd & Ha & Hv).
    split; [apply Capture.matchTopic_path; assumption|].
    rewrite (Capture.parseInt_digits _ (Capture.allDigits_starts _ Hd Ha)), Hv.
    reflexivity.
Qed.

Lemma captured_topic_id_is_a_number_witness :
  Js.matchTopic "/t/my-topic/1234/5" = Some "1234"
  /\ Js.parseInt "1234" = Some 1234.
Proof.
  destruct captured_topic_id_is_a_number as [_ H].
  apply (H "my-topic" "/5" 1234); [discriminate | reflexivity | lia | reflexivity].
Defined.

(** X14.  The registry and the request log.  In [Part002], [Part000] and
    the api-initializer, at every point of a session every topic id a request
    was sent for is in [autoVotedTopics], and every [castVote] that waits for
    its answer has its request in the log.  In all four drafts an id that is
    in [autoVotedTopics] stays there for the rest of the session: nothing
    ever removes one. *)
Theorem registry_records_every_request :
  forall (settings : Settings) (site : option Site) (u : User) (h : Host)
         (evs : list Event) (t : Z),
    (let w := Part002.run settings site (freshWorld u h) evs in
     (In t (posts w) -> t ∈ autoVotedTopics w)
     /\ (forall src, In (CastVoteAwait t src) (pending w) -> In t (posts w)))
    /\ (let w := Part000.run settings (freshWorld u h) evs in
        (In t (posts w) -> t ∈ autoVotedTopics w)
        /\ (forall src, In (CastVoteAwait t src) (pending w) -> In t (posts w)))
    /\ (let w := AutoVoteOwnTopic.run settings (freshWorld u h) evs in
        (In t (posts w) -> t ∈ autoVotedTopics w)
        /\ (forall src, In (CastVoteAwait t src) (pending w) -> In t (posts w)))
    /\ (forall (w : World) (later : list Event),
          t ∈ autoVotedTopics w ->
          t ∈ autoVotedTopics (Part002.run settings site w later)
          /\ t ∈ autoVotedTopics (Part001.run settings site w later)
          /\ t ∈ autoVotedTopics (Part000.run settings w later)
          /\ t ∈ autoVotedTopics (AutoVoteOwnTopic.run settings w later)).
Proof.
  intros settings site u h evs t.
  assert (Hd : forall w, Disciplined w ->
             (In t (posts w) -> t ∈ autoVotedTopics w)
             /\ (forall src, In (CastVoteAwait t src) (pending w) -> In t (posts w))).
  { intros w [_ H2 _ H4]. split; [apply H2 | intros src; apply H4]. }
  split; [apply Hd, Part002Facts.Disciplined_run_002, Disciplined_fresh|].
  split; [apply Hd, Part000Facts.Disciplined_run_000, Disciplined_fresh|].
  split; [apply Hd, AutoVoteOwnTopicFacts.Disciplined_run_main, Disciplined_fresh|].
  intros w later Hin.
  split; [apply RegistryGrows.Has_run_002, Hin|].
  split; [apply Part001Session.Registered_run, Hin|].
  split; [apply RegistryGrows.Has_run_000, Hin|].
  apply RegistryGrows.Has_run_main, Hin.
Qed.

(** X15.  A policy of separators and white space only.  When
    [auto_vote_categories], split at "|" and trimmed, has no entry left,
    every category is allowed in every draft, as with an empty setting. *)
Theorem blank_policy_allows_every_category :
  forall (settings : Settings) (site : option Site) (c : Z) (w : World),
    Policy.categorySettings settings = [] ->
    fst (Part002.isCategoryAllowed settings site c w) = Normal true
    /\ Part001.isCategoryAllowed settings site c = true
    /\ Part000.isCategoryAllowed settings c = true
    /\ fst (AutoVoteOwnTopic.isCategoryAllowed settings c w) = Normal true.
Proof.
  intros settings site c w Hnil.
  assert (Hids : Policy.allowedIds settings = []).
  { rewrite allowedIds_numericIds. unfold Policy.numericIds. rewrite Hnil. reflexivity. }
  rewrite Part002Checks.isCategoryAllowed_run_002,
          AutoVoteOwnTopicChecks.isCategoryAllowed_run_main.
  cbn [fst].
  unfold Part002Checks.categoryAllowed, AutoVoteOwnTopicChecks.categoryAllowed,
    Part001.isCategoryAllowed, Part000.isCategoryAllowed.
  rewrite Hnil, Hids. cbn [length Nat.eqb].
  destruct (Policy.noCategories settings); repeat split; reflexivity.
Qed.

Lemma blank_policy_allows_every_category_witness :
  Part000.isCategoryAllowed (mkSettings true (Some " | ") false false) 7 = true.
Proof.
  destruct (blank_policy_allows_every_category
              (mkSettings true (Some " | ") false false) None 7
              (freshWorld Sample.alice Sample.emptyPage) eq_refl)
    as (_ & _ & H & _).
  exact H.
Defined.

(** X16.  A vote that goes through in [Part000] and in the api-initializer.
    The promise resolves to [true] and the success is logged; models and
    page are not touched, and registry, timers and request log stay as they
    are while the promise leaves the queue. *)
Theorem answered_vote_is_only_logged :
  forall (settings : Settings) (w : World) (k : nat) (t : Z) (src : string)
         (r : option VoteResponse),
    pending w !! k = Some (CastVoteAwait t src) ->
    (let w' := Part000.step settings w (AjaxSettle k (inr r)) in
     settled w' = settled w ++ [(t, true)]
     /\ uncaught w' = uncaught w
     /\ console w' = console w ++
          (if auto_vote_debug_mode settings
           then [ConsoleLog "Vote cast successfully for topic:" [t]] else [])
     /\ document w' = document w
     /\ topicModel w' = topicModel w
     /\ currentUser w' = currentUser w
     /\ registryView w' = registryView (setPending (delete k (pending w)) w))
    /\
    (let w' := AutoVoteOwnTopic.step settings w (AjaxSettle k (inr r)) in
     settled w' = settled w ++ [(t, true)]
     /\ uncaught w' = uncaught w
     /\ console w' = console w ++ [ConsoleLog "Vote API response:" [];
                                   ConsoleLog "SUCCESS! Vote cast for topic:" [t]]
     /\ document w' = document w
     /\ topicModel w' = topicModel w
     /\ currentUser w' = currentUser w
     /\ registryView w' = registryView (setPending (delete k (pending w)) w)).
Proof.
  intros settings w k t src r Hp. split; cbv zeta.
  - rewrite (PlainSuccess.step_settle_resolved_000 settings w k t src r Hp).
    repeat split.
  - rewrite (PlainSuccess.step_settle_resolved_main settings w k t src r Hp).
    repeat split.
Qed.

Lemma answered_vote_is_only_logged_witness :
  settled (Part000.step Sample.enabledAll
             (Part000.run Sample.enabledAll (freshWorld Sample.alice Sample.emptyPage)
                Sample.arrival)
             (AjaxSettle 0 (inr None)))
  = [(1234, true)].
Proof.
  assert (Hp : pending (Part000.run Sample.enabledAll
                          (freshWorld Sample.alice Sample.emptyPage) Sample.arrival)
               !! 0%nat = Some (CastVoteAwait 1234 "onPageChange"))
    by (vm_compute; reflexivity).
  destruct (answered_vote_is_only_logged Sample.enabledAll _ 0 1234 "onPageChange" None Hp)
    as [(H & _) _].
  rewrite H. reflexivity.
Defined.

(** X17.  The composer pre-vote of [Part001], from [save] to its answer.
    A save followed by its resolution with a post of topic [t] sends a vote
    request for [t] exactly when, at the time of the save, a topic was being
    created, the component was enabled and the composer's category passed
    [isCategoryAllowed]: neither [autoVotedTopics] nor [preVotedTopics] is
    consulted.  The request is recorded in [preVotedTopics] only, and its
    answer, when it comes, changes nothing but the queue.  A save that
    resolves without a post sends nothing; a save that did not pass the three
    tests leaves no callback behind, so its resolution does nothing. *)
Theorem composer_save_prevotes :
  forall (settings : Settings) (site : option Site) (w : World)
         (creatingTopic : bool) (categoryId : Z) (t : Z),
    let attached := creatingTopic = true
                    /\ auto_vote_enabled settings = true
                    /\ Part001.isCategoryAllowed settings site categoryId = true in
    let k := length (pending w) in
    let w1 := Part001.step settings site w (ComposerSave creatingTopic categoryId) in
    let w2 := Part001.step settings site w1 (SaveSettle k (Some t)) in
    let w3 := Part001.step settings site w1 (SaveSettle k None) in
    (posts w2 = posts w ++ [t] <-> attached)
    /\ (attached ->
        preVotedTopics w2 = {[t]} ∪ preVotedTopics w
        /\ autoVotedTopics w2 = autoVotedTopics w
        /\ pending w2 = pending w ++ [PreVoteAwait t]
        /\ (forall r : option VoteResponse,
              Part001.step settings site w2 (AjaxSettle k (inr r)) = setPending (pending w) w2)
        /\ w3 = w)
    /\ (~ attached -> w1 = w /\ w2 = w /\ w3 = w).
Proof.
  intros settings site w ct cat t attached k w1 w2 w3.
  assert (Hatt : ct && auto_vote_enabled settings
                 && Part001.isCategoryAllowed settings site cat = true <-> attached).
  { unfold attached. rewrite !andb_true_iff. tauto. }
  assert (Hw1 : w1 = if ct && auto_vote_enabled settings
                        && Part001.isCategoryAllowed settings site cat
                     then setPending (pending w ++ [SaveThen]) w else w).
  { unfold w1. cbn [Part001.step]. unfold Part001.save, runHandler.
    destruct (ct && auto_vote_enabled settings && Part001.isCategoryAllowed settings site cat);
      reflexivity. }
  assert (Hnone : pending w !! k = None) by (apply lookup_ge_None_2; unfold k; lia).
  destruct (ct && auto_vote_enabled settings && Part001.isCategoryAllowed settings site cat)
    eqn:Hc.
  - assert (Ha : attached) by (apply Hatt; reflexivity).
    assert (Hk : pending w1 !! k = Some SaveThen).
    { rewrite Hw1. cbn [pending setPending]. apply list_lookup_middle. reflexivity. }
    assert (Hdel : delete k (pending w1) = pending w).
    { rewrite Hw1. cbn [pending setPending]. unfold k.
      rewrite (delete_middle (pending w) [] SaveThen). apply app_nil_r. }
    assert (Hw2 : w2 = setPending (pending w ++ [PreVoteAwait t])
                         (setPosts (posts w ++ [t])
                            (setPreVoted ({[t]} ∪ preVotedTopics w) w))).
    { unfold w2. cbn [Part001.step]. rewrite Hk. unfold fire. rewrite Hk.
      cbn [Part001.saveThen]. unfold runHandler, bind, modify, ajaxVote.
      cbn [pending setPending setPreVoted posts setPosts preVotedTopics].
      rewrite Hdel. rewrite Hw1. reflexivity. }
    assert (Hw3 : w3 = w).
    { unfold w3. cbn [Part001.step]. rewrite Hk. unfold fire. rewrite Hk.
      cbn [Part001.saveThen]. unfold runHandler, ret. rewrite Hdel, Hw1.
      change (setPending (pending w) (setPending (pending w ++ [SaveThen]) w))
        with (setPending (pending w) w).
      apply setPending_id. }
    split; [rewrite Hw2; split; [intros _; exact Ha | reflexivity]|].
    split; [|intros Hn; contradiction].
    intros _. rewrite Hw2. cbn [preVotedTopics autoVotedTopics pending setPending setPosts
                                 setPreVoted].
    split; [reflexivity|]. split; [reflexivity|]. split; [reflexivity|].
    split; [|exact Hw3].
    intros r. cbn [Part001.step].
    assert (Hk2 : (pending w ++ [PreVoteAwait t]) !! k = Some (PreVoteAwait t))
      by (apply list_lookup_middle; reflexivity).
    cbn [pending setPending]. rewrite Hk2. unfold fire.
    cbn [pending setPending]. rewrite Hk2. cbn [Part001.settle Part001.preVoteSettled].
    unfold runHandler, ret, k.
    rewrite (delete_middle (pending w) [] (PreVoteAwait t)), app_nil_r. reflexivity.
  - assert (Hn : ~ attached) by (intros Ha; apply Hatt in Ha; discriminate).
    assert (Hw2 : w2 = w).
    { unfold w2. rewrite Hw1. cbn [Part001.step]. rewrite Hnone. reflexivity. }
    assert (Hw3 : w3 = w).
    { unfold w3. rewrite Hw1. cbn [Part001.step]. rewrite Hnone. reflexivity. }
    split; [|split; [intros Ha; contradiction | auto]].
    rewrite Hw2. split; [|intros Ha; contradiction].
    intros H. symmetry in H. apply app_singleton_neq in H. destruct H.
Qed.
